(** * Taguchi experiment analysis: a shallow embedding of the Go sources

    The development follows the Go package [taguchi]:
    - [taguchi/types.go]   : factors, trials, results, the experiment record;
    - [taguchi/snr.go]     : the three signal-to-noise formulas;
    - [taguchi/anova.go]   : [computeANOVA] and the trial generator;
    - [experiment.go], [anova.go] : constructors, [AddResult], [Analyze] with
      its helpers [computeOASNR], [computeANOVA], [findOptimalLevels] and
      [computeContributions];
    - the older, monolithic [Analyze] (module [Legacy]).

    Conventions.
    - [float64] is Rocq's primitive binary64 [float]; every Go operation is the
      IEEE operation of the same name, evaluated left to right without fused
      multiply-add.
    - Go [int] values are [Z]; lengths and counters stay far below [2^63], so
      no wrap-around is written out for them.
    - A run-time panic (slice index out of range) is [None].
    - Go maps are [gmap string _]; a [nil] map reads like the empty map.
    - The order in which [range] visits a map is unspecified in Go: every
      such loop asks a [MapRange] for the order, and every theorem holds for
      all of them. *)

From Stdlib Require Import ZArith List Floats Uint63 Lia Bool.
From stdpp Require Import base option list gmap strings fin_maps.

Open Scope Z_scope.

(* ===================================================================== *)
(** ** float64 *)
(* ===================================================================== *)

Declare Scope f64_scope.
Delimit Scope f64_scope with f64.
Notation "x + y" := (PrimFloat.add x y) : f64_scope.
Notation "x - y" := (PrimFloat.sub x y) : f64_scope.
Notation "x * y" := (PrimFloat.mul x y) : f64_scope.
Notation "x / y" := (PrimFloat.div x y) : f64_scope.
Notation "x == y" := (PrimFloat.eqb x y) (at level 70, no associativity) : f64_scope.
Notation "x > y" := (PrimFloat.ltb y x) : f64_scope.
Notation "x < y" := (PrimFloat.ltb x y) : f64_scope.

(** The constants of the sources. *)
Definition f0 : float := 0%float.
Definition f1 : float := 1%float.
Definition f100 : float := 100%float.
Definition fm10 : float := Eval cbv in PrimFloat.opp 10%float.
Definition epsilon_1e_10 : float := 0x1.b7cdfd9d7bdbbp-34%float.
Definition Inf_pos : float := infinity.

(** [float64(n)] for a Go [int]. *)
Definition float64_of_int (z : Z) : float :=
  if z <? 0 then PrimFloat.opp (PrimFloat.of_uint63 (Uint63.of_Z (- z)))
  else PrimFloat.of_uint63 (Uint63.of_Z z).

(** [len(s)] as a Go [int]. *)
Definition len {A} (l : list A) : Z := Z.of_nat (length l).

(** [s[i]] on a slice: panics outside [0, len(s)). *)
Definition index {A} (l : list A) (i : Z) : option A :=
  if i <? 0 then None else l !! Z.to_nat i.

(** [m[k]] on a [map[string]float64]: the zero value when [k] is absent. *)
Definition mapGet (m : gmap string float) (k : string) : float :=
  default f0 (m !! k).

(** The order chosen by one [range] statement over a map.  [site] names the
    statement, so that two loops over one map may disagree. *)
Record MapRange := {
  range : forall V : Type, nat -> gmap string V -> list (string * V);
  range_perm : forall (V : Type) (site : nat) (m : gmap string V),
      range V site m ≡ₚ map_to_list m
}.
Arguments range _ {V} _ _.

Definition canonicalRange : MapRange :=
  {| range := fun V _ m => map_to_list m;
     range_perm := fun V _ m => reflexivity (map_to_list m) |}.

(* ===================================================================== *)
(** ** math.Log10 *)
(* ===================================================================== *)

(** [math.Log10] belongs to Go's standard library, not to this package: the
    analysis is stated for an arbitrary [log10 : float -> float].  For
    concrete evaluations the logarithm below is used; it follows the scheme
    of Go's [math] package ([Frexp], the FDLIBM polynomial of [Log], then
    [Log2] and [Log10]).  Nothing proved for all logarithms depends on it;
    statements that evaluate it name it. *)
Module GoMath.

Definition Frexp (x : float) : float * Z :=
  let '(m, e) := PrimFloat.frshiftexp x in
  (m, Uint63.to_Z e - FloatOps.shift).

Definition Log (x : float) : float :=
  if PrimFloat.is_nan x || (x == infinity)%f64 then x
  else if (x < 0)%f64 then nan
  else if (x == 0)%f64 then neg_infinity
  else
    let '(m, ki) := Frexp x in
    let '(m, ki) :=
      if (m < 0x1.6a09e667f3bcdp-1)%f64 then ((m * 2)%f64, ki - 1) else (m, ki) in
    let f := (m - 1)%f64 in
    let k := float64_of_int ki in
    let s := (f / (2 + f))%f64 in
    let s2 := (s * s)%f64 in
    let s4 := (s2 * s2)%f64 in
    let t1 := (s2 * (0x1.5555555555593p-1 + s4 * (0x1.2492494229359p-2
                + s4 * (0x1.7466496cb03dep-3 + s4 * 0x1.2f112df3e5244p-3))))%f64 in
    let t2 := (s4 * (0x1.999999997fa04p-2 + s4 * (0x1.c71c51d8e78afp-3
                + s4 * 0x1.39a09d078c69fp-3)))%f64 in
    let R := (t1 + t2)%f64 in
    let hfsq := (0.5 * f * f)%f64 in
    (k * 0x1.62e42fee00000p-1
      - ((hfsq - (s * (hfsq + R) + k * 0x1.a39ef35793c76p-33)) - f))%f64.

Definition Log2 (x : float) : float :=
  let '(frac, e) := Frexp x in
  if (frac == 0.5)%f64 then float64_of_int (e - 1)
  else (Log frac * 0x1.71547652b82fep+0 + float64_of_int e)%f64.

Definition Log10 (x : float) : float :=
  (Log2 x * 0x1.34413509f79ffp-2)%f64.

End GoMath.

(* ===================================================================== *)
(** ** taguchi/types.go *)
(* ===================================================================== *)

(** [type OptimizationGoal int] with its three [iota] constants. *)
Definition OptimizationGoal := Z.
Definition SmallerTheBetter : OptimizationGoal := 0.
Definition LargerTheBetter : OptimizationGoal := 1.
Definition NominalTheBest : OptimizationGoal := 2.

Record Factor := mkFactor {
  Name : string;
  Levels : list float
}.

Record NoiseFactor := mkNoiseFactor {
  NoiseName : string;
  NoiseLevels : list float
}.

Record Trial := mkTrial {
  ID : Z;
  Control : gmap string float;
  Noise : gmap string float
}.

Record TrialResult := mkTrialResult {
  ResultTrial : Trial;
  Observations : list float
}.

Record ANOVAResult := mkANOVAResult {
  FactorSS : gmap string float;
  FactorDF : gmap string Z;
  FactorMS : gmap string float;
  FactorF : gmap string float;
  ErrorSS : float;
  ErrorDF : Z;
  ErrorMS : float;
  PooledFactors : list string
}.

Record AnalysisResult := mkAnalysisResult {
  OptimalLevels : gmap string float;
  SNR : gmap string (list float);
  MainEffects : gmap string (list float);
  Contributions : gmap string float;
  ANOVA : ANOVAResult
}.

Record Experiment := mkExperiment {
  ControlFactors : list Factor;
  NoiseFactors : list NoiseFactor;
  Goal : OptimizationGoal;
  Target : float;
  OrthogonalArray : list (list Z);
  Results : list TrialResult;
  PoolingThreshold : float
}.

(* ===================================================================== *)
(** ** taguchi/snr.go *)
(* ===================================================================== *)

Section SNRCalculator.

Variable log10 : float -> float.

Definition snrSmallerTheBetter (obs : list float) : float :=
  let msd := fold_left (fun msd y => (msd + y * y)%f64) obs f0 in
  let msd := (msd / float64_of_int (len obs))%f64 in
  if (msd == f0)%f64 then Inf_pos
  else (fm10 * log10 msd)%f64.

Definition snrLargerTheBetter (obs : list float) : float :=
  let msd :=
    fold_left
      (fun msd y =>
         let y := if (y == f0)%f64 then epsilon_1e_10 else y in
         (msd + f1 / (y * y))%f64)
      obs f0 in
  let msd := (msd / float64_of_int (len obs))%f64 in
  (fm10 * log10 msd)%f64.

Definition snrNominalTheBest (obs : list float) (target : float) : float :=
  let msd :=
    fold_left (fun msd y => (msd + (y - target) * (y - target))%f64) obs f0 in
  let msd := (msd / float64_of_int (len obs))%f64 in
  if (msd == f0)%f64 then Inf_pos
  else (fm10 * log10 msd)%f64.

(** [func (e *Experiment) calculateSNR(obs []float64) float64] *)
Definition calculateSNR (e : Experiment) (obs : list float) : float :=
  if len obs =? 0 then f0
  else if Goal e =? SmallerTheBetter then snrSmallerTheBetter obs
  else if Goal e =? LargerTheBetter then snrLargerTheBetter obs
  else if Goal e =? NominalTheBest then snrNominalTheBest obs (Target e)
  else f0.

End SNRCalculator.

(* ===================================================================== *)
(** ** taguchi/anova.go, second part: trial generation *)
(* ===================================================================== *)

(** State of [generateNoiseCombinations]: the captured slice [trials], the
    captured counter [id], and the map [current] that every recursive call
    of [helper] writes to in place. *)
Record NoiseGen := mkNoiseGen {
  ng_trials : list Trial;
  ng_id : Z;
  ng_current : gmap string float
}.

(** [helper(idx, current)], with [fs] the factors from [idx] on. *)
Fixpoint helper (fs : list NoiseFactor) (st : NoiseGen) : NoiseGen :=
  match fs with
  | [] =>
      (* noiseCopy is a fresh copy of [current] *)
      {| ng_trials := ng_trials st ++
                      [ {| ID := ng_id st; Control := ∅; Noise := ng_current st |} ];
         ng_id := ng_id st + 1;
         ng_current := ng_current st |}
  | factor :: rest =>
      fold_left
        (fun st level =>
           helper rest
             {| ng_trials := ng_trials st;
                ng_id := ng_id st;
                ng_current := <[NoiseName factor := level]> (ng_current st) |})
        (NoiseLevels factor) st
  end.

Definition generateNoiseCombinations (e : Experiment) : list Trial :=
  ng_trials (helper (NoiseFactors e)
               {| ng_trials := []; ng_id := 1; ng_current := ∅ |}).

(** [getControlConfig]: [row[j]] and [factor.Levels[levelIndex]] may panic. *)
Fixpoint getControlConfig_loop (fs : list Factor) (j : Z) (row : list Z)
    (controlConfig : gmap string float) : option (gmap string float) :=
  match fs with
  | [] => Some controlConfig
  | factor :: rest =>
      rj ← index row j;
      let levelIndex := rj - 1 in
      lv ← index (Levels factor) levelIndex;
      getControlConfig_loop rest (j + 1) row (<[Name factor := lv]> controlConfig)
  end.

Definition getControlConfig (e : Experiment) (row : list Z)
    : option (gmap string float) :=
  getControlConfig_loop (ControlFactors e) 0 row ∅.

(** The inner loop of [combineControlAndNoise] over [noiseTrials]. *)
Definition combine_row (controlConfig : gmap string float)
    (noiseTrials : list Trial) (acc : list Trial * Z) : list Trial * Z :=
  fold_left
    (fun '(finalTrials, id) noiseTrial =>
       (finalTrials ++
          [ {| ID := id; Control := controlConfig; Noise := Noise noiseTrial |} ],
        id + 1))
    noiseTrials acc.

Fixpoint combine_rows (e : Experiment) (rows : list (list Z))
    (noiseTrials : list Trial) (acc : list Trial * Z) : option (list Trial * Z) :=
  match rows with
  | [] => Some acc
  | row :: rest =>
      controlConfig ← getControlConfig e row;
      combine_rows e rest noiseTrials (combine_row controlConfig noiseTrials acc)
  end.

Definition combineControlAndNoise (e : Experiment) (noiseTrials : list Trial)
    : option (list Trial) :=
  fst <$> combine_rows e (OrthogonalArray e) noiseTrials ([], 1).

Definition GenerateTrials (e : Experiment) : option (list Trial) :=
  let noiseTrials := generateNoiseCombinations e in
  combineControlAndNoise e noiseTrials.

(* ===================================================================== *)
(** ** experiment.go: constructors and the observation log *)
(* ===================================================================== *)

Inductive ConstructionError :=
| FactorsError (msg : string)
| ArrayEmpty
| CannotAccommodate (factors : Z).

(** [NewExperimentFromFactorsUsingArray]. *)
Definition NewExperimentFromFactorsUsingArray (goal : OptimizationGoal)
    (controlFactors : list Factor) (orthogonalArray : list (list Z))
    (noiseFactors : list NoiseFactor) : ConstructionError + Experiment :=
  match orthogonalArray with
  | [] => inl ArrayEmpty
  | row0 :: _ =>
      if len controlFactors >? len row0
      then inl (CannotAccommodate (len controlFactors))
      else inr {| ControlFactors := controlFactors;
                  NoiseFactors := noiseFactors;
                  Goal := goal;
                  Target := f0;
                  OrthogonalArray := orthogonalArray;
                  Results := [];
                  PoolingThreshold := f0 |}
  end.

Section Constructors.

(** [factorsFrom] reads the control factors off a caller-defined struct by
    reflection; it is not among the sources and is taken as given. *)
Context {F : Type}.
Variable factorsFrom : F -> ConstructionError + list Factor.

(** [NewExperimentUsingArray]. *)
Definition NewExperimentUsingArray (goal : OptimizationGoal) (factors : F)
    (orthogonalArray : list (list Z)) (noiseFactors : list NoiseFactor)
    : ConstructionError + Experiment :=
  match factorsFrom factors with
  | inl err => inl err
  | inr controlFactors =>
      match orthogonalArray with
      | [] => inl ArrayEmpty
      | row0 :: _ =>
          if len controlFactors >? len row0
          then inl (CannotAccommodate (len controlFactors))
          else inr {| ControlFactors := controlFactors;
                      NoiseFactors := noiseFactors;
                      Goal := goal;
                      Target := f0;
                      OrthogonalArray := orthogonalArray;
                      Results := [];
                      PoolingThreshold := f0 |}
      end
  end.

End Constructors.

(** [AddResult] appends to the log. *)
Definition AddResult (e : Experiment) (trial : Trial) (observations : list float)
    : Experiment :=
  {| ControlFactors := ControlFactors e;
     NoiseFactors := NoiseFactors e;
     Goal := Goal e;
     Target := Target e;
     OrthogonalArray := OrthogonalArray e;
     Results := Results e ++
                [ {| ResultTrial := trial; Observations := observations |} ];
     PoolingThreshold := PoolingThreshold e |}.


(* ===================================================================== *)
(** ** experiment.go and anova.go: the analysis *)
(* ===================================================================== *)

Section Analysis.

Variable log10 : float -> float.
Variable rng : MapRange.

(** Modelled from the spec: the method [CalculateSNR] of the goal value
    ([e.Goal.CalculateSNR]) is not among the sources.  Section 4.2 of the
    specification gives it the three formulas and the empty-pool convention
    that [taguchi/snr.go] implements, so it is [calculateSNR]. *)
Definition CalculateSNR (e : Experiment) (obs : list float) : float :=
  calculateSNR log10 e obs.

(** The loop [for j, factor := range e.ControlFactors] that decides whether
    result [r] belongs to [row]; it stops at the first mismatch. *)
Fixpoint rowMatches (fs : list Factor) (j : Z) (row : list Z) (r : TrialResult)
    : option bool :=
  match fs with
  | [] => Some true
  | factor :: rest =>
      oaij ← index row j;
      lv ← index (Levels factor) (oaij - 1);
      if negb (mapGet (Control (ResultTrial r)) (Name factor) == lv)%f64
      then Some false
      else rowMatches rest (j + 1) row r
  end.

(** The loop [for _, r := range e.Results] for one row. *)
Fixpoint collectObs (e : Experiment) (row : list Z) (results : list TrialResult)
    (allObs : list float) : option (list float) :=
  match results with
  | [] => Some allObs
  | r :: rest =>
      m ← rowMatches (ControlFactors e) 0 row r;
      collectObs e row rest
        (if (m : bool) then allObs ++ Observations r else allObs)
  end.

Definition rowSNR (e : Experiment) (row : list Z) : option float :=
  allObs ← collectObs e row (Results e) [];
  Some (if len allObs >? 0 then CalculateSNR e allObs else f0).

Fixpoint computeOASNR_loop (e : Experiment) (rows : list (list Z))
    (oaSNR : list float) (grandMean : float) : option (list float * float) :=
  match rows with
  | [] => Some (oaSNR, grandMean)
  | row :: rest =>
      s ← rowSNR e row;
      computeOASNR_loop e rest (oaSNR ++ [s]) (grandMean + s)%f64
  end.

Definition computeOASNR (e : Experiment) : option (list float * float) :=
  let oaRows := len (OrthogonalArray e) in
  '(oaSNR, grandMean) ← computeOASNR_loop e (OrthogonalArray e) [] f0;
  Some (oaSNR, (grandMean / float64_of_int oaRows)%f64).

(** The search [for j, f := range e.ControlFactors] for the column of the
    factor called [name]; [levelIdx] stays [-1] when nothing is found. *)
Fixpoint levelIdx_loop (fs : list Factor) (j : Z) (name : string) (row : list Z)
    : option Z :=
  match fs with
  | [] => Some (-1)
  | f :: rest =>
      if String.eqb (Name f) name
      then (oaij ← index row j; Some (oaij - 1))
      else levelIdx_loop rest (j + 1) name row
  end.

(** The loop [for i := 0; i < oaRows; i++] that fills [levelMeans] and
    [levelCounts] of one factor. *)
Fixpoint accumulateRows (e : Experiment) (factor : Factor) (rows : list (list Z))
    (i : Z) (oaSNR : list float) (levelMeans : list float) (levelCounts : list Z)
    : option (list float * list Z) :=
  match rows with
  | [] => Some (levelMeans, levelCounts)
  | row :: rest =>
      levelIdx ← levelIdx_loop (ControlFactors e) 0 (Name factor) row;
      if (0 <=? levelIdx) && (levelIdx <? len (Levels factor))
      then
        sn ← index oaSNR i;
        accumulateRows e factor rest (i + 1) oaSNR
          (alter (fun m => (m + sn)%f64) (Z.to_nat levelIdx) levelMeans)
          (alter (fun c => c + 1) (Z.to_nat levelIdx) levelCounts)
      else accumulateRows e factor rest (i + 1) oaSNR levelMeans levelCounts
  end.

(** Body of the loop over the control factors: level means, sum of squares
    and degrees of freedom of one factor. *)
Definition factorStats (e : Experiment) (oaSNR : list float) (grandMean : float)
    (factor : Factor) : option (list float * float * Z) :=
  let n := length (Levels factor) in
  '(levelMeans, levelCounts) ←
    accumulateRows e factor (OrthogonalArray e) 0 oaSNR
      (replicate n f0) (replicate n 0);
  let levelMeans :=
    zip_with (fun m c => if c >? 0 then (m / float64_of_int c)%f64 else f0)
      levelMeans levelCounts in
  let ss :=
    fold_left
      (fun ss '(c, m) =>
         (ss + float64_of_int c * (m - grandMean) * (m - grandMean))%f64)
      (zip levelCounts levelMeans) f0 in
  let dfs := len (Levels factor) - 1 in
  Some (levelMeans, ss, dfs).

(** What the factor loop has written so far. *)
Record FactorTables := mkFactorTables {
  ft_SS : gmap string float;
  ft_DF : gmap string Z;
  ft_mainEffects : gmap string (list float);
  ft_snrPerFactor : gmap string (list float)
}.

Fixpoint factorLoop (e : Experiment) (oaSNR : list float) (grandMean : float)
    (fs : list Factor) (t : FactorTables) : option FactorTables :=
  match fs with
  | [] => Some t
  | factor :: rest =>
      '(levelMeans, ss, dfs) ← factorStats e oaSNR grandMean factor;
      factorLoop e oaSNR grandMean rest
        {| ft_SS := <[Name factor := ss]> (ft_SS t);
           ft_DF := <[Name factor := dfs]> (ft_DF t);
           ft_mainEffects := <[Name factor := levelMeans]> (ft_mainEffects t);
           ft_snrPerFactor := <[Name factor := levelMeans]> (ft_snrPerFactor t) |}
  end.

Definition totalSS_of (oaSNR : list float) (grandMean : float) : float :=
  fold_left (fun totalSS sn => (totalSS + (sn - grandMean) * (sn - grandMean))%f64)
    oaSNR f0.

(** [errorDF] after the loop over [anova.FactorDF] and the floor. *)
Definition errorDF_of (oaRows : Z) (factorDF : gmap string Z) : Z :=
  let errorDF :=
    fold_left (fun errorDF '(_, df) => errorDF - df) (range rng 0%nat factorDF)
      (oaRows - 1) in
  if errorDF <? 1 then 1 else errorDF.

(** [errorSS] after the loop over [anova.FactorSS]. *)
Definition errorSS_of (totalSS : float) (factorSS : gmap string float) : float :=
  fold_left (fun errorSS '(_, ss) => (errorSS - ss)%f64) (range rng 1%nat factorSS)
    totalSS.

(** The last loop of [computeANOVA]: mean squares and F-ratios. *)
Definition factorMSF (factorSS : gmap string float) (factorDF : gmap string Z)
    (errorMS : float) : gmap string float * gmap string float :=
  fold_left
    (fun '(factorMS, factorF) '(f, ss) =>
       let df := default 0 (factorDF !! f) in
       let ms := (ss / float64_of_int df)%f64 in
       (<[f := ms]> factorMS, <[f := (ms / errorMS)%f64]> factorF))
    (range rng 2%nat factorSS) (∅, ∅).

Definition computeANOVA (e : Experiment) (oaSNR : list float) (grandMean : float)
    : option (ANOVAResult * gmap string (list float) * gmap string (list float)) :=
  let oaRows := len (OrthogonalArray e) in
  let totalSS := totalSS_of oaSNR grandMean in
  t ← factorLoop e oaSNR grandMean (ControlFactors e)
        {| ft_SS := ∅; ft_DF := ∅; ft_mainEffects := ∅; ft_snrPerFactor := ∅ |};
  let errorDF := errorDF_of oaRows (ft_DF t) in
  let errorSS := errorSS_of totalSS (ft_SS t) in
  let errorMS := (errorSS / float64_of_int errorDF)%f64 in
  let '(factorMS, factorF) := factorMSF (ft_SS t) (ft_DF t) errorMS in
  Some ({| FactorSS := ft_SS t;
           FactorDF := ft_DF t;
           FactorMS := factorMS;
           FactorF := factorF;
           ErrorSS := errorSS;
           ErrorDF := errorDF;
           ErrorMS := errorMS;
           PooledFactors := [] |},
        ft_mainEffects t, ft_snrPerFactor t).

(** The scan [for i, v := range levels] of [findOptimalLevels]. *)
Fixpoint bestLevel_loop (levels : list float) (i : Z) (maxVal : float)
    (bestLevel : Z) : Z :=
  match levels with
  | [] => bestLevel
  | v :: rest =>
      if (v > maxVal)%f64
      then bestLevel_loop rest (i + 1) v i
      else bestLevel_loop rest (i + 1) maxVal bestLevel
  end.

Definition bestLevelOf (levels : list float) : option Z :=
  maxVal ← index levels 0;
  Some (bestLevel_loop levels 0 maxVal 0).

Fixpoint findOptimalLevels_loop (fs : list Factor)
    (mainEffects : gmap string (list float)) (optimalLevels : gmap string float)
    : option (gmap string float) :=
  match fs with
  | [] => Some optimalLevels
  | factor :: rest =>
      let levels := default [] (mainEffects !! Name factor) in
      bestLevel ← bestLevelOf levels;
      lv ← index (Levels factor) bestLevel;
      findOptimalLevels_loop rest mainEffects (<[Name factor := lv]> optimalLevels)
  end.

Definition findOptimalLevels (e : Experiment)
    (mainEffects : gmap string (list float)) : option (gmap string float) :=
  findOptimalLevels_loop (ControlFactors e) mainEffects ∅.

Definition totalFactorSS_of (factorSS : gmap string float) : float :=
  fold_left (fun total '(_, ss) => (total + ss)%f64) (range rng 3%nat factorSS) f0.

Definition computeContributions (anova : ANOVAResult) : gmap string float :=
  let totalFactorSS := totalFactorSS_of (FactorSS anova) in
  if (totalFactorSS > f0)%f64
  then
    fold_left
      (fun contributions '(f, ss) =>
         <[f := (ss / totalFactorSS * f100)%f64]> contributions)
      (range rng 4%nat (FactorSS anova)) ∅
  else
    fold_left (fun contributions '(f, _) => <[f := f0]> contributions)
      (range rng 5%nat (FactorSS anova)) ∅.

Definition Analyze (e : Experiment) : option AnalysisResult :=
  '(oaSNR, grandMean) ← computeOASNR e;
  '(anova, mainEffects, snrPerFactor) ← computeANOVA e oaSNR grandMean;
  optimalLevels ← findOptimalLevels e mainEffects;
  let contributions := computeContributions anova in
  Some {| OptimalLevels := optimalLevels;
          SNR := snrPerFactor;
          MainEffects := mainEffects;
          Contributions := contributions;
          ANOVA := anova |}.

End Analysis.

(* ===================================================================== *)
(** ** The older, monolithic [Analyze] *)
(* ===================================================================== *)

(** The sources also hold the earlier experiment file (the one whose
    [NewExperiment] takes goal, target and pooling threshold, used by the
    example programs).  Its [Analyze] is one function; it differs from the
    current one in the first loop only. *)

Module Legacy.

Section LegacyAnalysis.

Variable log10 : float -> float.
Variable rng : MapRange.

(** The loop over [e.Results] for one row: one SNR per matching result,
    summed and counted. *)
Fixpoint sumSNR (e : Experiment) (row : list Z) (results : list TrialResult)
    (sum : float) (count : Z) : option (float * Z) :=
  match results with
  | [] => Some (sum, count)
  | r :: rest =>
      m ← rowMatches (ControlFactors e) 0 row r;
      if (m : bool)
      then sumSNR e row rest (sum + calculateSNR log10 e (Observations r))%f64
             (count + 1)
      else sumSNR e row rest sum count
  end.

Definition rowSNR (e : Experiment) (row : list Z) : option float :=
  '(sum, count) ← sumSNR e row (Results e) f0 0;
  Some (if count >? 0 then (sum / float64_of_int count)%f64 else f0).

Fixpoint oaSNR_loop (e : Experiment) (rows : list (list Z))
    (oaSNR : list float) (grandMean : float) : option (list float * float) :=
  match rows with
  | [] => Some (oaSNR, grandMean)
  | row :: rest =>
      s ← rowSNR e row;
      oaSNR_loop e rest (oaSNR ++ [s]) (grandMean + s)%f64
  end.

(** The first loop of the function: per-row SNR and grand mean. *)
Definition oaSNR_of (e : Experiment) : option (list float * float) :=
  let oaRows := len (OrthogonalArray e) in
  '(oaSNR, grandMean) ← oaSNR_loop e (OrthogonalArray e) [] f0;
  Some (oaSNR, (grandMean / float64_of_int oaRows)%f64).

(** After the first loop the text of the function is, statement for
    statement, the body of [computeANOVA], of [findOptimalLevels] and of
    [computeContributions]. *)
Definition Analyze (e : Experiment) : option AnalysisResult :=
  '(oaSNR, grandMean) ← oaSNR_of e;
  '(anova, mainEffects, snrPerFactor) ← computeANOVA rng e oaSNR grandMean;
  optimalLevels ← findOptimalLevels e mainEffects;
  let contributions := computeContributions rng anova in
  Some {| OptimalLevels := optimalLevels;
          SNR := snrPerFactor;
          MainEffects := mainEffects;
          Contributions := contributions;
          ANOVA := anova |}.

End LegacyAnalysis.

End Legacy.


(* ===================================================================== *)
(** ** Reference definitions used in the statements *)
(* ===================================================================== *)

(** [x != x] holds of NaN only. *)
Definition isNaN (x : float) : bool := negb (PrimFloat.eqb x x).

(** Left-to-right float64 sum and mean of a pool. *)
Definition fsum (l : list float) : float :=
  fold_left (fun acc x => (acc + x)%f64) l f0.

Definition fmean (l : list float) : float :=
  (fsum l / float64_of_int (len l))%f64.

Definition square (y : float) : float := (y * y)%f64.

Definition squaredDeviation (target y : float) : float :=
  ((y - target) * (y - target))%f64.

(** The noise-floor substitution of Larger-the-Better. *)
Definition substituteZero (y : float) : float :=
  if (y == f0)%f64 then epsilon_1e_10 else y.

Definition inverseSquare (y : float) : float := (f1 / (y * y))%f64.

(** The array invariant of the data model, as a check: row [row] has a
    column for every control factor from column [j] on, and each entry lies
    in [1, number of levels of that factor]. *)
Fixpoint validRowFrom (fs : list Factor) (j : Z) (row : list Z) : bool :=
  match fs with
  | [] => true
  | f :: rest =>
      match index row j with
      | Some v => (1 <=? v) && (v <=? len (Levels f)) && validRowFrom rest (j + 1) row
      | None => false
      end
  end.

Definition validArray (e : Experiment) : bool :=
  forallb (validRowFrom (ControlFactors e) 0) (OrthogonalArray e).

(** The control levels a row selects, factor by factor. *)
Fixpoint rowLevels (fs : list Factor) (j : Z) (row : list Z) : option (list float) :=
  match fs with
  | [] => Some []
  | f :: rest =>
      oaij ← index row j;
      lv ← index (Levels f) (oaij - 1);
      lvs ← rowLevels rest (j + 1) row;
      Some (lv :: lvs)
  end.

(** Result [r] carries, for every factor, the level the row selects. *)
Fixpoint agreesWith (fs : list Factor) (lvs : list float) (r : TrialResult) : bool :=
  match fs, lvs with
  | f :: fs', lv :: lvs' =>
      (mapGet (Control (ResultTrial r)) (Name f) == lv)%f64 && agreesWith fs' lvs' r
  | _, _ => true
  end.

(** The pool of a row: the observations of every matching result, in log
    order. *)
Definition pooledObservations (e : Experiment) (lvs : list float) : list float :=
  concat (map Observations
            (List.filter (agreesWith (ControlFactors e) lvs) (Results e))).

(** The SNR of a row computed once, on its pool. *)
Definition pooledRowSNR (log10 : float -> float) (e : Experiment) (row : list Z)
    : float :=
  match rowLevels (ControlFactors e) 0 row with
  | Some lvs =>
      let pool := pooledObservations e lvs in
      if len pool >? 0 then CalculateSNR log10 e pool else f0
  | None => f0
  end.

(** Two experiments with the same configuration (everything but the log). *)
Definition sameConfig (e1 e2 : Experiment) : Prop :=
  ControlFactors e1 = ControlFactors e2 /\
  NoiseFactors e1 = NoiseFactors e2 /\
  Goal e1 = Goal e2 /\
  Target e1 = Target e2 /\
  OrthogonalArray e1 = OrthogonalArray e2 /\
  PoolingThreshold e1 = PoolingThreshold e2.

(** Two recorded results that agree on the control assignment and on the
    observations; trial identifier and noise assignment are free. *)
Definition sameControlAndObservations (r1 r2 : TrialResult) : Prop :=
  Control (ResultTrial r1) = Control (ResultTrial r2) /\
  Observations r1 = Observations r2.

(** Degrees of freedom of a factor as the spec states them. *)
Definition factorDFSpec (f : Factor) : Z := len (Levels f) - 1.

Definition zsum (l : list Z) : Z := fold_right Z.add 0 l.

(** Error degrees of freedom as the spec states them. *)
Definition errorDFSpec (e : Experiment) : Z :=
  Z.max 1 (len (OrthogonalArray e) - 1 - zsum (map factorDFSpec (ControlFactors e))).

(** The error terms of an ANOVA table [a] computed from the row values
    [oaSNR] and their mean, in the spec's words: every factor with [k] levels
    has [k-1] degrees of freedom; the error degrees of freedom are
    [(rows-1) - sum of factor DF], floored at 1; the error sum of squares is
    the total sum of squares with every factor's sum of squares subtracted
    (once each, in the order the map was visited); the error mean square
    divides it by the floored degrees of freedom. *)
Definition anovaErrorTerms (e : Experiment) (oaSNR : list float) (grandMean : float)
    (a : ANOVAResult) : Prop :=
  (forall f, f ∈ ControlFactors e -> FactorDF a !! Name f = Some (len (Levels f) - 1)) /\
  ErrorDF a = errorDFSpec e /\
  1 <= ErrorDF a /\
  ErrorMS a = (ErrorSS a / float64_of_int (ErrorDF a))%f64 /\
  exists order : list Factor,
    order ≡ₚ ControlFactors e /\
    ErrorSS a
    = fold_left (fun acc f => (acc - mapGet (FactorSS a) (Name f))%f64) order
        (totalSS_of oaSNR grandMean).

(** [b] is the position of the first strict maximum of [L]: nothing in [L]
    compares greater than [L[b]], and everything before [b] compares smaller
    (a NaN entry compares with nothing). *)
Definition firstMaxAt (L : list float) (b : Z) : Prop :=
  0 <= b /\
  exists vb, L !! Z.to_nat b = Some vb /\
    (forall (k : nat) v, L !! k = Some v -> (v > vb)%f64 = false) /\
    (forall (k : nat) v, (k < Z.to_nat b)%nat -> L !! k = Some v ->
       (v < vb)%f64 = true \/ isNaN v = true).

(** Product of the level counts of the noise factors. *)
Fixpoint prodLevels (fs : list NoiseFactor) : nat :=
  match fs with
  | [] => 1
  | f :: rest => (length (NoiseLevels f) * prodLevels rest)%nat
  end.

(** The full factorial of the noise levels by nested iteration: the first
    factor is the outermost loop. *)
Fixpoint noiseProduct (fs : list NoiseFactor) (current : gmap string float)
    : list (gmap string float) :=
  match fs with
  | [] => [current]
  | f :: rest =>
      concat (map (fun level => noiseProduct rest (<[NoiseName f := level]> current))
                (NoiseLevels f))
  end.

(** Noise-only trials numbered from [id] on. *)
Fixpoint noiseTrialsFrom (id : Z) (ms : list (gmap string float)) : list Trial :=
  match ms with
  | [] => []
  | m :: ms' => {| ID := id; Control := ∅; Noise := m |} :: noiseTrialsFrom (id + 1) ms'
  end.

(** Mixed-radix digits of a combination number, most significant first: the
    digit of the first factor changes slowest, that of the last fastest. *)
Fixpoint digits (fs : list NoiseFactor) (c : nat) : list nat :=
  match fs with
  | [] => []
  | f :: rest => (c / prodLevels rest)%nat :: digits rest (c mod prodLevels rest)%nat
  end.

(** Full trials numbered from [id] on: one per pair of control and noise
    assignment. *)
Fixpoint trialsFrom (id : Z) (ps : list (gmap string float * gmap string float))
    : list Trial :=
  match ps with
  | [] => []
  | (c, n) :: ps' => {| ID := id; Control := c; Noise := n |} :: trialsFrom (id + 1) ps'
  end.

(** Rows outer, noise combinations inner. *)
Definition rowMajor (controls noises : list (gmap string float))
    : list (gmap string float * gmap string float) :=
  concat (map (fun c => map (fun n => (c, n)) noises) controls).

(** What a call of [helper] on the factors [fs] does to the generator
    state: it appends the numbered leaves below [fs], advances the counter,
    and leaves alone the entries of [current] that [fs] does not name. *)
Definition helperSpec (fs : list NoiseFactor) (st st' : NoiseGen) : Prop :=
  ng_trials st'
  = ng_trials st ++ noiseTrialsFrom (ng_id st) (noiseProduct fs (ng_current st)) /\
  ng_id st' = ng_id st + len (noiseProduct fs (ng_current st)) /\
  (forall k, k ∉ map NoiseName fs -> ng_current st' !! k = ng_current st !! k).

(** The experiment record that a successful construction returns. *)
Definition constructed (goal : OptimizationGoal) (controlFactors : list Factor)
    (orthogonalArray : list (list Z)) (noiseFactors : list NoiseFactor) : Experiment :=
  {| ControlFactors := controlFactors; NoiseFactors := noiseFactors;
     Goal := goal; Target := f0; OrthogonalArray := orthogonalArray;
     Results := []; PoolingThreshold := f0 |}.

(** Freedom from run-time faults: trial generation returns, and so does the
    analysis (either version) of every experiment with the same
    configuration, whatever its log, logarithm and map iteration order. *)
Definition neverFaults (e : Experiment) : Prop :=
  (exists trials, GenerateTrials e = Some trials) /\
  forall (log10 : float -> float) (rng : MapRange) (e' : Experiment),
    sameConfig e e' ->
    (exists r, Analyze log10 rng e' = Some r) /\
    (exists r, Legacy.Analyze log10 rng e' = Some r).


(* ===================================================================== *)
(** ** Sample inputs *)
(* ===================================================================== *)

(** An experiment that only fixes goal and target. *)
Definition goalOnly (goal : OptimizationGoal) (target : float) : Experiment :=
  {| ControlFactors := []; NoiseFactors := []; Goal := goal; Target := target;
     OrthogonalArray := []; Results := []; PoolingThreshold := f0 |}.

Definition pool_2_4 : list float := [2%float; 4%float].

Definition pool_6_8 : list float := [6%float; 8%float].

Definition pool_0_5 : list float := [0%float; 5%float].

(** Control factors: A and B with two levels, T with three. *)
Definition factorA : Factor := {| Name := "A"; Levels := [1%float; 2%float] |}.

Definition factorB : Factor := {| Name := "B"; Levels := [1%float; 2%float] |}.

Definition factorT : Factor :=
  {| Name := "T"; Levels := [10%float; 20%float; 30%float] |}.

(** Noise factors: N with two levels, M with three. *)
Definition noiseN : NoiseFactor :=
  {| NoiseName := "N"; NoiseLevels := [0%float; 1%float] |}.

Definition noiseM : NoiseFactor :=
  {| NoiseName := "M"; NoiseLevels := [10%float; 20%float; 30%float] |}.

(** The layout of the repository's tests: factor A, the array [[1], [2]],
    noise factor N. *)
Definition experimentA (goal : OptimizationGoal) (target : float)
    (log : list TrialResult) : Experiment :=
  {| ControlFactors := [factorA]; NoiseFactors := [noiseN];
     Goal := goal; Target := target;
     OrthogonalArray := [[1]; [2]];
     Results := log; PoolingThreshold := f0 |}.

Definition trialA (id : Z) (a n : float) : Trial :=
  {| ID := id; Control := {[ "A" := a ]}; Noise := {[ "N" := n ]} |}.

(** Observations [2,4] and [6,8] for A=1 under the two noise settings, and
    [1,1], [1,1] for A=2. *)
Definition logA : list TrialResult :=
  [ {| ResultTrial := trialA 1 1 0; Observations := pool_2_4 |};
    {| ResultTrial := trialA 2 1 1; Observations := pool_6_8 |};
    {| ResultTrial := trialA 3 2 0; Observations := [1%float; 1%float] |};
    {| ResultTrial := trialA 4 2 1; Observations := [1%float; 1%float] |} ].

(** The same controls and observations under other identifiers and without
    any noise assignment. *)
Definition logA_relabelled : list TrialResult :=
  [ {| ResultTrial := {| ID := 40; Control := {[ "A" := 1%float ]}; Noise := ∅ |};
       Observations := pool_2_4 |};
    {| ResultTrial := {| ID := 7; Control := {[ "A" := 1%float ]}; Noise := ∅ |};
       Observations := pool_6_8 |};
    {| ResultTrial := {| ID := 7; Control := {[ "A" := 2%float ]}; Noise := ∅ |};
       Observations := [1%float; 1%float] |};
    {| ResultTrial := {| ID := -1; Control := {[ "A" := 2%float ]}; Noise := ∅ |};
       Observations := [1%float; 1%float] |} ].

(** The two-factor layout of the repository's ANOVA test: A and B on the
    full 2x2 array, one observation per row. *)
Definition resultAB (a b obs : float) : TrialResult :=
  {| ResultTrial := {| ID := 0; Control := <["A" := a]> (<["B" := b]> ∅); Noise := ∅ |};
     Observations := [obs] |}.

Definition experimentAB (o1 o2 o3 o4 : float) : Experiment :=
  {| ControlFactors := [factorA; factorB]; NoiseFactors := [];
     Goal := SmallerTheBetter; Target := f0;
     OrthogonalArray := [[1; 1]; [1; 2]; [2; 1]; [2; 2]];
     Results := [resultAB 1 1 o1; resultAB 1 2 o2; resultAB 2 1 o3; resultAB 2 2 o4];
     PoolingThreshold := f0 |}.

(** Factors A and T with main effects in which the greatest value of T occurs
    twice. *)
Definition experimentAT : Experiment :=
  {| ControlFactors := [factorA; factorT]; NoiseFactors := [];
     Goal := SmallerTheBetter; Target := f0;
     OrthogonalArray := [[1; 1]; [2; 2]; [1; 3]];
     Results := []; PoolingThreshold := f0 |}.

Definition mainEffectsAT : gmap string (list float) :=
  <["A" := [(-14.5)%float; 0%float]]>
    (<["T" := [3%float; 5%float; 5%float]]> ∅).

(** An ANOVA table in which three factors have the same sum of squares. *)
Definition anovaThirds : ANOVAResult :=
  {| FactorSS := <["A" := 1%float]> (<["B" := 1%float]> (<["C" := 1%float]> ∅));
     FactorDF := <["A" := 1]> (<["B" := 1]> (<["C" := 1]> ∅));
     FactorMS := ∅; FactorF := ∅;
     ErrorSS := f0; ErrorDF := 1; ErrorMS := f0; PooledFactors := [] |}.

(** Three rows of factor A crossed with the noise factors N and M. *)
Definition experimentNoise : Experiment :=
  {| ControlFactors := [factorA]; NoiseFactors := [noiseN; noiseM];
     Goal := SmallerTheBetter; Target := f0;
     OrthogonalArray := [[1]; [2]; [1]];
     Results := []; PoolingThreshold := f0 |}.

(** A caller whose factors already are the list of control factors. *)
Definition factorsFromList (fs : list Factor) : ConstructionError + list Factor :=
  inr fs.

(** Nominal-the-Best with target 5: [3,4] and [6,7] for A=1, all
    observations on target for A=2. *)
Definition logA_nominal : list TrialResult :=
  [ {| ResultTrial := trialA 1 1 0; Observations := [3%float; 4%float] |};
    {| ResultTrial := trialA 2 1 1; Observations := [6%float; 7%float] |};
    {| ResultTrial := trialA 3 2 0; Observations := [5%float; 5%float] |};
    {| ResultTrial := trialA 4 2 1; Observations := [5%float; 5%float] |} ].

(* ===================================================================== *)
(** ** Reference definitions for further properties *)
(* ===================================================================== *)

(** Pairwise float64 equality of two lists of selected levels. *)
Fixpoint levelsEqual (lvs1 lvs2 : list float) : bool :=
  match lvs1, lvs2 with
  | a :: l1, b :: l2 => (a == b)%f64 && levelsEqual l1 l2
  | _, _ => true
  end.

(** A recorded result for [trial]. *)
Definition resultOf (trial : Trial) (observations : list float) : TrialResult :=
  {| ResultTrial := trial; Observations := observations |}.

(** [m] has exactly the keys [names]. *)
Definition keysAre {V} (names : list string) (m : gmap string V) : Prop :=
  forall k, is_Some (m !! k) <-> k ∈ names.

(** Every map of an analysis result has exactly the keys [names]. *)
Definition resultKeysAre (names : list string) (r : AnalysisResult) : Prop :=
  keysAre names (OptimalLevels r) /\
  keysAre names (SNR r) /\
  keysAre names (MainEffects r) /\
  keysAre names (Contributions r) /\
  keysAre names (FactorSS (ANOVA r)) /\
  keysAre names (FactorDF (ANOVA r)) /\
  keysAre names (FactorMS (ANOVA r)) /\
  keysAre names (FactorF (ANOVA r)).

(** Mean square and F-ratio of every factor of an ANOVA table, as the last
    loop of [computeANOVA] writes them. *)
Definition meanSquaresOf (a : ANOVAResult) : Prop :=
  forall f,
    FactorMS a !! f
    = (fun ss => (ss / float64_of_int (default 0 (FactorDF a !! f)))%f64)
        <$> FactorSS a !! f /\
    FactorF a !! f
    = (fun ss => (ss / float64_of_int (default 0 (FactorDF a !! f)) / ErrorMS a)%f64)
        <$> FactorSS a !! f.

(** The row values of the rows whose entry in column [j] is [li + 1] (the
    1-based index of level [li]), in row order. *)
Fixpoint valuesAtLevel (rows : list (list Z)) (oaSNR : list float) (j li : nat)
    : list float :=
  match rows, oaSNR with
  | row :: rows', sn :: oaSNR' =>
      if bool_decide (row !! j = Some (Z.of_nat li + 1))
      then sn :: valuesAtLevel rows' oaSNR' j li
      else valuesAtLevel rows' oaSNR' j li
  | _, _ => []
  end.

(** The mean of the values of a level; 0 for a level without rows. *)
Definition levelMean (values : list float) : float :=
  if len values >? 0 then (fsum values / float64_of_int (len values))%f64 else f0.

(** The part of the configuration that the analysis reads. *)
Definition analysisConfig (e1 e2 : Experiment) : Prop :=
  ControlFactors e1 = ControlFactors e2 /\
  Goal e1 = Goal e2 /\
  Target e1 = Target e2 /\
  OrthogonalArray e1 = OrthogonalArray e2.

(** [e] with other noise factors and another pooling threshold. *)
Definition withNoiseAndThreshold (e : Experiment) (noiseFactors : list NoiseFactor)
    (poolingThreshold : float) : Experiment :=
  {| ControlFactors := ControlFactors e;
     NoiseFactors := noiseFactors;
     Goal := Goal e;
     Target := Target e;
     OrthogonalArray := OrthogonalArray e;
     Results := Results e;
     PoolingThreshold := poolingThreshold |}.

(** The per-row value of the older [Analyze]: the float64 mean of the SNR of
    every matching result, 0 when no result matches. *)
Definition averagedRowSNR (log10 : float -> float) (e : Experiment) (row : list Z)
    : float :=
  match rowLevels (ControlFactors e) 0 row with
  | Some lvs =>
      let matching := List.filter (agreesWith (ControlFactors e) lvs) (Results e) in
      if len matching >? 0
      then (fsum (map (fun r => calculateSNR log10 e (Observations r)) matching)
            / float64_of_int (len matching))%f64
      else f0
  | None => f0
  end.

(* ===================================================================== *)
(** ** experiment.go: construction from a named array *)
(* ===================================================================== *)

Inductive NamedConstructionError :=
| ArrayNotDefined (arrayName : string)
| NamedCannotAccommodate (arrayName : string) (factors : Z).

Section NamedArrays.

(** [StandardArrays], the catalog of predefined arrays keyed by name, is not
    among the sources and is taken as given. *)
Variable StandardArrays : gmap string (list (list Z)).

(** [NewExperimentFromFactors]; [oa[0]] faults on an empty catalog array. *)
Definition NewExperimentFromFactors (goal : OptimizationGoal)
    (controlFactors : list Factor) (arrayName : string)
    (noiseFactors : list NoiseFactor)
    : option (NamedConstructionError + Experiment) :=
  match StandardArrays !! arrayName with
  | None => Some (inl (ArrayNotDefined arrayName))
  | Some oa =>
      row0 ← index oa 0;
      if len controlFactors >? len row0
      then Some (inl (NamedCannotAccommodate arrayName (len controlFactors)))
      else Some (inr {| ControlFactors := controlFactors;
                        NoiseFactors := noiseFactors;
                        Goal := goal;
                        Target := f0;
                        OrthogonalArray := oa;
                        Results := [];
                        PoolingThreshold := f0 |})
  end.

(** The older [NewExperiment], with target and pooling threshold. *)
Definition LegacyNewExperiment (goal : OptimizationGoal) (target : float)
    (poolingThreshold : float) (controlFactors : list Factor) (arrayName : string)
    (noiseFactors : list NoiseFactor)
    : option (NamedConstructionError + Experiment) :=
  match StandardArrays !! arrayName with
  | None => Some (inl (ArrayNotDefined arrayName))
  | Some oa =>
      row0 ← index oa 0;
      if len controlFactors >? len row0
      then Some (inl (NamedCannotAccommodate arrayName (len controlFactors)))
      else Some (inr {| ControlFactors := controlFactors;
                        NoiseFactors := noiseFactors;
                        Goal := goal;
                        Target := target;
                        OrthogonalArray := oa;
                        Results := [];
                        PoolingThreshold := poolingThreshold |})
  end.

End NamedArrays.

(** Every level in [lvs] compares equal to zero. *)
Definition allZero (lvs : list float) : bool :=
  forallb (fun lv => (f0 == lv)%f64) lvs.

(* ===================================================================== *)
(** ** Further sample inputs *)
(* ===================================================================== *)

(** The trials generated for [experimentNoise], and the eleventh of them. *)
Definition sampleTrials : list Trial := default [] (GenerateTrials experimentNoise).

Definition sampleTrial : Trial :=
  default {| ID := 0; Control := ∅; Noise := ∅ |} (sampleTrials !! 10%nat).

(** The first half of [logA]: results for A=1 only. *)
Definition logA_first_level : list TrialResult := firstn 2 logA.

(** A noise factor without levels. *)
Definition noiseWithoutLevels : NoiseFactor := {| NoiseName := "Z"; NoiseLevels := [] |}.

(** A catalog with the four-row array for three two-level factors and an
    empty entry. *)
Definition sampleArrays : gmap string (list (list Z)) :=
  <["L4" := [[1; 1; 1]; [1; 2; 2]; [2; 1; 2]; [2; 2; 1]]]> (<["none" := []]> ∅).

(** A factor whose second level is NaN, on a one-row array that selects it. *)
Definition factorWithNaN : Factor := {| Name := "A"; Levels := [1%float; nan] |}.

Definition experimentNaN (log : list TrialResult) : Experiment :=
  {| ControlFactors := [factorWithNaN]; NoiseFactors := [];
     Goal := SmallerTheBetter; Target := f0;
     OrthogonalArray := [[2]];
     Results := log; PoolingThreshold := f0 |}.

(** A result recorded without any control assignment. *)
Definition resultWithoutControl : TrialResult :=
  {| ResultTrial := {| ID := 1; Control := ∅; Noise := ∅ |};
     Observations := pool_2_4 |}.

(** The fields of an analysis result that are written key by key or summed
    over integers. *)
Definition sameOrderFreeFields (r1 r2 : AnalysisResult) : Prop :=
  OptimalLevels r1 = OptimalLevels r2 /\
  SNR r1 = SNR r2 /\
  MainEffects r1 = MainEffects r2 /\
  FactorSS (ANOVA r1) = FactorSS (ANOVA r2) /\
  FactorDF (ANOVA r1) = FactorDF (ANOVA r2) /\
  FactorMS (ANOVA r1) = FactorMS (ANOVA r2) /\
  ErrorDF (ANOVA r1) = ErrorDF (ANOVA r2).

(** An iteration order other than [canonicalRange]: every map is visited in
    the opposite order. *)
Definition reversedRange : MapRange :=
  {| range := fun V _ m => reverse (map_to_list m);
     range_perm := fun V _ m => reverse_Permutation (map_to_list m) |}.

Definition factorC : Factor := {| Name := "C"; Levels := [1%float; 2%float] |}.

(** Three two-level factors on the four-row array, without results. *)
Definition experimentABC : Experiment :=
  {| ControlFactors := [factorA; factorB; factorC]; NoiseFactors := [];
     Goal := SmallerTheBetter; Target := f0;
     OrthogonalArray := [[1; 1; 1]; [1; 2; 2]; [2; 1; 2]; [2; 2; 1]];
     Results := []; PoolingThreshold := f0 |}.

(** Row values 1/3, 2/3, 3/2 and 2. *)
Definition rowValuesThirds : list float :=
  [(f1 / 3)%f64; (2 / 3)%f64; 1.5%float; 2%float].

(** Factors A and B without any array row. *)
Definition experimentWithoutRows (log : list TrialResult) : Experiment :=
  {| ControlFactors := [factorA; factorB]; NoiseFactors := [];
     Goal := SmallerTheBetter; Target := f0;
     OrthogonalArray := [];
     Results := log; PoolingThreshold := f0 |}.

(** Factor A on an array whose first row names a third level, which the
    factor does not have. *)
Definition experimentOutOfRange : Experiment :=
  {| ControlFactors := [factorA]; NoiseFactors := [];
     Goal := SmallerTheBetter; Target := f0;
     OrthogonalArray := [[3]; [1]];
     Results := []; PoolingThreshold := f0 |}.

(* ===================================================================== *)
(** ** Order facts about float64 comparison *)
(* ===================================================================== *)

Ltac cmp_cases :=
  change (PosDef.Pos.compare_cont Eq) with Pos.compare in *;
  repeat match goal with
  | H : context [Z.compare ?x ?y] |- _ => destruct (Z.compare_spec x y)
  | |- context [Z.compare ?x ?y] => destruct (Z.compare_spec x y)
  | H : context [Pos.compare ?x ?y] |- _ => destruct (Pos.compare_spec x y)
  | |- context [Pos.compare ?x ?y] => destruct (Pos.compare_spec x y)
  end;
  simpl in *; try discriminate; try reflexivity; try (exfalso; lia).

Lemma SFcompare_lt_trans (a b c : spec_float) :
  SFcompare a b = Some Lt -> SFcompare b c = Some Lt -> SFcompare a c = Some Lt.
Proof.
  destruct a as [sa|sa| |sa ma ea], b as [sb|sb| |sb mb eb], c as [sc|sc| |sc mc ec];
    simpl; try discriminate; try (destruct sa); try (destruct sb); try (destruct sc);
    try discriminate; try reflexivity; intros H1 H2; cmp_cases.
Qed.

Lemma ltb_trans (a b c : float) :
  PrimFloat.ltb a b = true -> PrimFloat.ltb b c = true -> PrimFloat.ltb a c = true.
Proof.
  rewrite !FloatAxioms.ltb_spec. unfold SFltb.
  destruct (SFcompare (Prim2SF a) (Prim2SF b)) as [[]|] eqn:E1; try discriminate.
  destruct (SFcompare (Prim2SF b) (Prim2SF c)) as [[]|] eqn:E2; try discriminate.
  intros _ _. now rewrite (SFcompare_lt_trans _ _ _ E1 E2).
Qed.

Lemma SFcompare_none (a b : spec_float) :
  SFcompare a b = None -> a = S754_nan \/ b = S754_nan.
Proof. destruct a, b; simpl; try discriminate; auto. Qed.

Lemma SFcompare_refl_nan (a : spec_float) :
  SFeqb a a = false -> a = S754_nan.
Proof.
  unfold SFeqb. destruct a as [s|s| |s m e]; simpl; try discriminate; auto;
  destruct s; try discriminate; cmp_cases.
Qed.

Lemma SFcompare_nan_l b : SFcompare S754_nan b = None.
Proof. reflexivity. Qed.
Lemma SFcompare_nan_r a : SFcompare a S754_nan = None.
Proof. destruct a; reflexivity. Qed.

Lemma isNaN_spec x : isNaN x = true <-> Prim2SF x = S754_nan.
Proof.
  unfold isNaN. rewrite FloatAxioms.eqb_spec. split.
  - intros H. apply SFcompare_refl_nan. now destruct (SFeqb _ _).
  - intros ->. reflexivity.
Qed.

Lemma SFcompare_antisym (a b : spec_float) :
  SFcompare b a = option_map CompOpp (SFcompare a b).
Proof.
  destruct a as [sa|sa| |sa ma ea], b as [sb|sb| |sb mb eb]; simpl; try reflexivity;
  try (destruct sa); try (destruct sb); try reflexivity; cmp_cases.
Qed.

(** When [a < b] fails, either one side is NaN or [b <= a]. *)
Lemma ltb_false (a b : float) :
  PrimFloat.ltb a b = false ->
  isNaN a = true \/ isNaN b = true \/ PrimFloat.leb b a = true.
Proof.
  rewrite FloatAxioms.ltb_spec, FloatAxioms.leb_spec, !isNaN_spec. unfold SFltb, SFleb.
  rewrite (SFcompare_antisym (Prim2SF a) (Prim2SF b)).
  destruct (SFcompare (Prim2SF a) (Prim2SF b)) as [[]|] eqn:E; simpl; try discriminate; auto.
  intros _. destruct (SFcompare_none _ _ E); auto.
Qed.

Lemma leb_ltb_trans (a b c : float) :
  PrimFloat.leb a b = true -> PrimFloat.ltb b c = true -> PrimFloat.ltb a c = true.
Proof.
  rewrite !FloatAxioms.ltb_spec, FloatAxioms.leb_spec. unfold SFltb, SFleb.
  destruct (SFcompare (Prim2SF a) (Prim2SF b)) as [[]|] eqn:E1; try discriminate;
  destruct (SFcompare (Prim2SF b) (Prim2SF c)) as [[]|] eqn:E2; try discriminate; intros _ _.
  - revert E1 E2.
    destruct (Prim2SF a) as [sa|sa| |sa ma ea], (Prim2SF b) as [sb|sb| |sb mb eb], (Prim2SF c) as [sc|sc| |sc mc ec];
    simpl; try discriminate; try (destruct sa); try (destruct sb); try (destruct sc);
    try discriminate; try reflexivity; intros H1 H2; cmp_cases.
  - now rewrite (SFcompare_lt_trans _ _ _ E1 E2).
Qed.

Lemma ltb_leb (a b : float) : PrimFloat.ltb a b = true -> PrimFloat.leb a b = true.
Proof.
  rewrite FloatAxioms.ltb_spec, FloatAxioms.leb_spec. unfold SFltb, SFleb.
  now destruct (SFcompare _ _) as [[]|].
Qed.

Lemma ltb_not_nan (a b : float) : PrimFloat.ltb a b = true -> isNaN a = false /\ isNaN b = false.
Proof.
  rewrite FloatAxioms.ltb_spec. unfold SFltb. intros H.
  split; apply not_true_is_false; rewrite isNaN_spec; intros E; rewrite E in H.
  - discriminate.
  - now rewrite SFcompare_nan_r in H.
Qed.

(* ===================================================================== *)
(** ** SNRCalculator *)
(* ===================================================================== *)

Lemma fold_left_add_map (g : float -> float) (obs : list float) (a : float) :
  fold_left (fun msd y => (msd + g y)%f64) obs a
  = fold_left (fun acc x => (acc + x)%f64) (map g obs) a.
Proof.
  revert a. induction obs as [|y obs IH]; intros a; simpl; [reflexivity|].
  apply IH.
Qed.

Lemma len_map {A B} (g : A -> B) (l : list A) : len (map g l) = len l.
Proof. unfold len. now rewrite length_map. Qed.

Lemma len_pos_cons {A} (l : list A) : 0 < len l -> exists x l', l = x :: l'.
Proof. destruct l as [|x l']; unfold len; simpl; [lia|eauto]. Qed.

Lemma snrSmallerTheBetter_formula (log10 : float -> float) (obs : list float) :
  snrSmallerTheBetter log10 obs
  = if (fmean (map square obs) == f0)%f64 then Inf_pos
    else (fm10 * log10 (fmean (map square obs)))%f64.
Proof.
  unfold snrSmallerTheBetter, fmean, fsum.
  rewrite (fold_left_add_map square), len_map. reflexivity.
Qed.

Lemma snrNominalTheBest_formula (log10 : float -> float) (obs : list float)
    (target : float) :
  snrNominalTheBest log10 obs target
  = if (fmean (map (squaredDeviation target) obs) == f0)%f64 then Inf_pos
    else (fm10 * log10 (fmean (map (squaredDeviation target) obs)))%f64.
Proof.
  unfold snrNominalTheBest, fmean, fsum.
  rewrite (fold_left_add_map (squaredDeviation target)), len_map. reflexivity.
Qed.

Lemma snrLargerTheBetter_formula (log10 : float -> float) (obs : list float) :
  snrLargerTheBetter log10 obs
  = (fm10 * log10 (fmean (map (fun y => inverseSquare (substituteZero y)) obs)))%f64.
Proof.
  unfold snrLargerTheBetter, fmean, fsum.
  rewrite (fold_left_add_map (fun y => inverseSquare (substituteZero y))), len_map.
  reflexivity.
Qed.

Lemma calculateSNR_nonempty (log10 : float -> float) (e : Experiment)
    (obs : list float) :
  0 < len obs ->
  calculateSNR log10 e obs
  = if Goal e =? SmallerTheBetter then snrSmallerTheBetter log10 obs
    else if Goal e =? LargerTheBetter then snrLargerTheBetter log10 obs
    else if Goal e =? NominalTheBest then snrNominalTheBest log10 obs (Target e)
    else f0.
Proof.
  intros H. unfold calculateSNR.
  destruct (len obs =? 0) eqn:E; [apply Z.eqb_eq in E; lia | reflexivity].
Qed.

(** C2: for a non-empty pool, Smaller-the-Better is -10*log10(mean of y^2)
    and Nominal-the-Best is -10*log10(mean of (y-target)^2); when the mean is
    exactly zero the result is +infinity, and that case is decided before the
    logarithm is taken, so the result does not depend on the logarithm. *)
Theorem C2_snr_smaller_and_nominal (log10 : float -> float) (e : Experiment)
    (obs : list float) :
  0 < len obs ->
  let msq := fmean (map square obs) in
  let msd := fmean (map (squaredDeviation (Target e)) obs) in
  (Goal e = SmallerTheBetter ->
     calculateSNR log10 e obs
     = if (msq == f0)%f64 then Inf_pos else (fm10 * log10 msq)%f64) /\
  (Goal e = NominalTheBest ->
     calculateSNR log10 e obs
     = if (msd == f0)%f64 then Inf_pos else (fm10 * log10 msd)%f64) /\
  ((msq == f0)%f64 = true ->
     forall lg : float -> float, snrSmallerTheBetter lg obs = Inf_pos) /\
  ((msd == f0)%f64 = true ->
     forall lg : float -> float, snrNominalTheBest lg obs (Target e) = Inf_pos).
Proof.
  intros Hlen msq msd. repeat split.
  - intros Hg. rewrite calculateSNR_nonempty by assumption. rewrite Hg. simpl.
    apply snrSmallerTheBetter_formula.
  - intros Hg. rewrite calculateSNR_nonempty by assumption. rewrite Hg. simpl.
    apply snrNominalTheBest_formula.
  - intros Hz lg. rewrite snrSmallerTheBetter_formula. fold msq. now rewrite Hz.
  - intros Hz lg. rewrite snrNominalTheBest_formula. fold msd. now rewrite Hz.
Qed.

(** The theorem applied to the pool [2, 4] (Smaller-the-Better, mean square
    10) with the concrete logarithm. *)
Lemma C2_witness :
  0 < len pool_2_4 /\
  calculateSNR GoMath.Log10 (goalOnly SmallerTheBetter f0) pool_2_4
  = (fm10 * GoMath.Log10 10)%f64.
Proof.
  split; [reflexivity|].
  exact (proj1 (C2_snr_smaller_and_nominal GoMath.Log10
                  (goalOnly SmallerTheBetter f0) pool_2_4 eq_refl) eq_refl).
Defined.

Lemma substituteZero_nonzero (y : float) : (substituteZero y == f0)%f64 = false.
Proof.
  unfold substituteZero. destruct (y == f0)%f64 eqn:E; [reflexivity | exact E].
Qed.

(** C8: Larger-the-Better replaces every observation equal to zero by 1e-10
    before inverting, so no inverted value is zero, and the result is
    -10*log10(mean of 1/y'^2) over the substituted values for every pool,
    without any +infinity case. *)
Theorem C8_larger_the_better (log10 : float -> float) (obs : list float) :
  snrLargerTheBetter log10 obs
  = (fm10 * log10 (fmean (map (fun y => inverseSquare (substituteZero y)) obs)))%f64
  /\ (forall y, (y == f0)%f64 = true -> substituteZero y = epsilon_1e_10)
  /\ (forall y, (y == f0)%f64 = false -> substituteZero y = y)
  /\ (forall y, (substituteZero y == f0)%f64 = false)
  /\ (epsilon_1e_10 > f0)%f64 = true
  /\ (forall e : Experiment, 0 < len obs -> Goal e = LargerTheBetter ->
        calculateSNR log10 e obs = snrLargerTheBetter log10 obs).
Proof.
  split; [apply snrLargerTheBetter_formula|].
  split; [intros y H; unfold substituteZero; now rewrite H|].
  split; [intros y H; unfold substituteZero; now rewrite H|].
  split; [apply substituteZero_nonzero|].
  split; [reflexivity|].
  intros e Hlen Hg. rewrite calculateSNR_nonempty by assumption. now rewrite Hg.
Qed.

(** The theorem applied to the pool [0, 5]: the zero is read as 1e-10. *)
Lemma C8_witness :
  0 < len pool_0_5 /\
  calculateSNR GoMath.Log10 (goalOnly LargerTheBetter f0) pool_0_5
  = snrLargerTheBetter GoMath.Log10 pool_0_5 /\
  snrLargerTheBetter GoMath.Log10 pool_0_5
  = (fm10 * GoMath.Log10 ((f1 / (epsilon_1e_10 * epsilon_1e_10) + f1 / 25) / 2))%f64.
Proof.
  split; [reflexivity|]. split.
  - exact (proj2 (proj2 (proj2 (proj2 (proj2
             (C8_larger_the_better GoMath.Log10 pool_0_5)))))
             (goalOnly LargerTheBetter f0) eq_refl eq_refl).
  - vm_compute. reflexivity.
Defined.

(** C9: for every goal (the three named ones and any other value of the
    goal type) and every target, the SNR of the empty pool is the value 0;
    the function is total, so nothing is signalled. *)
Theorem C9_empty_pool_is_zero (log10 : float -> float) (e : Experiment) :
  calculateSNR log10 e [] = f0 /\ CalculateSNR log10 e [] = f0.
Proof. split; reflexivity. Qed.

Lemma ltb_asym (a b : float) :
  PrimFloat.ltb a b = true -> PrimFloat.ltb b a = false.
Proof.
  rewrite !FloatAxioms.ltb_spec. unfold SFltb.
  rewrite (SFcompare_antisym (Prim2SF a) (Prim2SF b)).
  now destruct (SFcompare (Prim2SF a) (Prim2SF b)) as [[]|].
Qed.

Lemma ltb_irrefl (a : float) : PrimFloat.ltb a a = false.
Proof.
  destruct (PrimFloat.ltb a a) eqn:E; [|reflexivity].
  pose proof (ltb_asym _ _ E) as H. congruence.
Qed.

Lemma ltb_nan_l (a b : float) : isNaN a = true -> PrimFloat.ltb a b = false.
Proof.
  intros H. destruct (PrimFloat.ltb a b) eqn:E; [|reflexivity].
  apply ltb_not_nan in E. destruct E; congruence.
Qed.

Lemma ltb_nan_r (a b : float) : isNaN b = true -> PrimFloat.ltb a b = false.
Proof.
  intros H. destruct (PrimFloat.ltb a b) eqn:E; [|reflexivity].
  apply ltb_not_nan in E. destruct E; congruence.
Qed.

Lemma leb_not_gt (a b : float) :
  PrimFloat.leb a b = true -> PrimFloat.ltb b a = false.
Proof.
  rewrite FloatAxioms.ltb_spec, FloatAxioms.leb_spec. unfold SFltb, SFleb.
  rewrite (SFcompare_antisym (Prim2SF a) (Prim2SF b)).
  now destruct (SFcompare (Prim2SF a) (Prim2SF b)) as [[]|].
Qed.

(* ===================================================================== *)
(** ** OptimalLevelSelector *)
(* ===================================================================== *)

Lemma bestLevel_loop_inv (rest pre : list float) (maxVal : float) (best : Z) :
  0 <= best ->
  (pre ++ rest) !! Z.to_nat best = Some maxVal ->
  (forall (k : nat) v, (k < length pre)%nat -> (pre ++ rest) !! k = Some v ->
     (v > maxVal)%f64 = false) ->
  (forall (k : nat) v, (k < Z.to_nat best)%nat -> (pre ++ rest) !! k = Some v ->
     (v < maxVal)%f64 = true \/ isNaN v = true) ->
  firstMaxAt (pre ++ rest)
    (bestLevel_loop rest (Z.of_nat (length pre)) maxVal best).
Proof.
  revert pre maxVal best.
  induction rest as [|v rest IH]; intros pre maxVal best Hb Hat Hle Hlt; simpl.
  - split; [assumption|]. exists maxVal. split; [assumption|]. split; [|assumption].
    intros k w Hk. apply (Hle k w); [|assumption]. apply lookup_lt_Some in Hk.
    rewrite length_app in Hk. simpl in Hk. lia.
  - assert (Hcat : pre ++ v :: rest = (pre ++ [v]) ++ rest)
      by (now rewrite <- app_assoc).
    assert (Hv : (pre ++ v :: rest) !! length pre = Some v)
      by (rewrite lookup_app_r by lia; now rewrite Nat.sub_diag).
    assert (Hi : Z.of_nat (length pre) + 1 = Z.of_nat (length (pre ++ [v])))
      by (rewrite length_app; simpl; lia).
    rewrite Hi, Hcat.
    destruct (v > maxVal)%f64 eqn:Hgt.
    + apply IH; rewrite <- ?Hcat.
      * lia.
      * now rewrite Nat2Z.id.
      * intros k w Hk Hw. rewrite length_app in Hk. simpl in Hk.
        destruct (Nat.eq_dec k (length pre)) as [->|Hne].
        -- rewrite Hv in Hw. injection Hw as <-. apply ltb_irrefl.
        -- assert (Hk' : (k < length pre)%nat) by lia.
           pose proof (Hle k w Hk' Hw) as Hw'.
           apply ltb_false in Hw'.
           destruct (ltb_not_nan _ _ Hgt) as [HnM _].
           destruct Hw' as [Hn|[Hn|Hl]]; [congruence| |].
           ++ now apply ltb_nan_r.
           ++ apply leb_not_gt. apply ltb_leb. eapply leb_ltb_trans; eassumption.
      * intros k w Hk Hw. rewrite Nat2Z.id in Hk.
        pose proof (Hle k w Hk Hw) as Hw'.
        apply ltb_false in Hw'.
        destruct (ltb_not_nan _ _ Hgt) as [HnM _].
        destruct Hw' as [Hn|[Hn|Hl]]; [congruence|now right|].
        left. eapply leb_ltb_trans; eassumption.
    + apply IH; rewrite <- ?Hcat; try assumption.
      intros k w Hk Hw. rewrite length_app in Hk. simpl in Hk.
      destruct (Nat.eq_dec k (length pre)) as [->|Hne].
      * rewrite Hv in Hw. now injection Hw as <-.
      * apply (Hle k w); [lia|assumption].
Qed.

Lemma bestLevelOf_firstMax (levels : list float) (b : Z) :
  bestLevelOf levels = Some b -> firstMaxAt levels b.
Proof.
  unfold bestLevelOf, index. cbn [Z.ltb Z.compare]. change (Z.to_nat 0) with 0%nat.
  destruct (levels !! 0%nat) as [maxVal|] eqn:E; simpl; [|discriminate].
  intros Hb. injection Hb as <-.
  apply (bestLevel_loop_inv levels [] maxVal 0); simpl.
  - lia.
  - exact E.
  - intros k v Hk. lia.
  - intros k v Hk. lia.
Qed.

Lemma bestLevelOf_total (levels : list float) :
  0 < len levels -> exists b, bestLevelOf levels = Some b.
Proof.
  intros H. destruct (len_pos_cons _ H) as (x & l' & ->).
  unfold bestLevelOf, index. simpl. eauto.
Qed.

Lemma firstMaxAt_bound (L : list float) (b : Z) :
  firstMaxAt L b -> 0 <= b < len L.
Proof.
  intros (Hb & vb & Hat & _). apply lookup_lt_Some in Hat. unfold len. lia.
Qed.

(** Without NaN the chosen entry is an upper bound and every earlier entry
    is strictly below it. *)
Lemma firstMaxAt_no_nan (L : list float) (b : Z) :
  firstMaxAt L b ->
  (forall v, In v L -> isNaN v = false) ->
  exists vb, L !! Z.to_nat b = Some vb /\
    (forall (k : nat) v, L !! k = Some v -> PrimFloat.leb v vb = true) /\
    (forall (k : nat) v, (k < Z.to_nat b)%nat -> L !! k = Some v ->
       (v < vb)%f64 = true).
Proof.
  intros (Hb & vb & Hat & Hle & Hlt) Hnan. exists vb. split; [assumption|].
  assert (Hin : forall (k : nat) v, L !! k = Some v -> In v L).
  { intros k v Hk. apply list_elem_of_In. eapply list_elem_of_lookup_2; eassumption. }
  split.
  - intros k v Hk. pose proof (Hle k v Hk) as H. apply ltb_false in H.
    destruct H as [H|[H|H]]; [| |assumption].
    + rewrite (Hnan vb (Hin _ _ Hat)) in H. discriminate.
    + rewrite (Hnan v (Hin _ _ Hk)) in H. discriminate.
  - intros k v Hk Hv. destruct (Hlt k v Hk Hv) as [H|H]; [assumption|].
    rewrite (Hnan v (Hin _ _ Hv)) in H. discriminate.
Qed.

Lemma findOptimalLevels_loop_other (fs : list Factor)
    (mainEffects : gmap string (list float)) (opt0 opt : gmap string float)
    (k : string) :
  findOptimalLevels_loop fs mainEffects opt0 = Some opt ->
  k ∉ map Name fs -> opt !! k = opt0 !! k.
Proof.
  revert opt0. induction fs as [|f fs IH]; intros opt0 H Hk; simpl in *.
  - now injection H as <-.
  - destruct (bestLevelOf (default [] (mainEffects !! Name f))) as [b|]; [|discriminate].
    simpl in H. destruct (index (Levels f) b) as [lv|]; [|discriminate]. simpl in H.
    rewrite (IH _ H) by (intros Hin; apply Hk; now right).
    apply lookup_insert_ne. intros Heq. apply Hk. subst k.
    apply elem_of_cons. now left.
Qed.

Lemma findOptimalLevels_loop_entries (fs : list Factor)
    (mainEffects : gmap string (list float)) (opt0 opt : gmap string float) :
  findOptimalLevels_loop fs mainEffects opt0 = Some opt ->
  NoDup (map Name fs) ->
  forall f, f ∈ fs ->
    exists b lv,
      bestLevelOf (default [] (mainEffects !! Name f)) = Some b /\
      index (Levels f) b = Some lv /\
      opt !! Name f = Some lv.
Proof.
  revert opt0. induction fs as [|f0 fs IH]; intros opt0 H Hnd f Hf; simpl in *.
  - inversion Hf.
  - destruct (bestLevelOf (default [] (mainEffects !! Name f0))) as [b|] eqn:Eb;
      [|discriminate].
    simpl in H. destruct (index (Levels f0) b) as [lv|] eqn:El; [|discriminate].
    simpl in H. apply NoDup_cons in Hnd as [Hnotin Hnd].
    apply elem_of_cons in Hf as [->|Hf].
    + exists b, lv. repeat split; try assumption.
      rewrite (findOptimalLevels_loop_other _ _ _ _ _ H Hnotin).
      apply lookup_insert_eq.
    + eapply IH; eassumption.
Qed.

Lemma findOptimalLevels_loop_total (fs : list Factor)
    (mainEffects : gmap string (list float)) (opt0 : gmap string float) :
  (forall f, f ∈ fs -> exists levels, mainEffects !! Name f = Some levels /\
      0 < len levels /\ len levels <= len (Levels f)) ->
  exists opt, findOptimalLevels_loop fs mainEffects opt0 = Some opt.
Proof.
  revert opt0. induction fs as [|f fs IH]; intros opt0 H; simpl.
  - eauto.
  - destruct (H f) as (levels & Hm & Hpos & Hle); [now left|].
    rewrite Hm. simpl.
    destruct (bestLevelOf_total levels Hpos) as [b Hb]. rewrite Hb. simpl.
    pose proof (firstMaxAt_bound _ _ (bestLevelOf_firstMax _ _ Hb)) as Hrange.
    assert (Hlv : exists lv, index (Levels f) b = Some lv).
    { unfold index. destruct (b <? 0) eqn:E; [apply Z.ltb_lt in E; lia|].
      apply lookup_lt_is_Some_2. unfold len in *. lia. }
    destruct Hlv as [lv ->]. simpl.
    apply IH. intros g Hg. apply H. now right.
Qed.

(** C6: when every control factor has at least one level and one main effect
    per level, optimal-level selection returns a map in which every declared
    factor has an entry: the literal level at the position of the first
    strict maximum of its main effects (no main effect compares greater than
    the chosen one, and every earlier one compares smaller, so ties go to the
    lowest index). *)
Theorem C6_optimal_levels (e : Experiment)
    (mainEffects : gmap string (list float)) :
  NoDup (map Name (ControlFactors e)) ->
  (forall f, f ∈ ControlFactors e ->
     exists levels, mainEffects !! Name f = Some levels /\
       0 < len levels /\ len levels = len (Levels f)) ->
  exists optimalLevels,
    findOptimalLevels e mainEffects = Some optimalLevels /\
    forall f, f ∈ ControlFactors e ->
      exists levels b lv,
        mainEffects !! Name f = Some levels /\
        firstMaxAt levels b /\
        index (Levels f) b = Some lv /\
        optimalLevels !! Name f = Some lv /\
        ((forall v, In v levels -> isNaN v = false) ->
         exists vb, index levels b = Some vb /\
           (forall k v, index levels k = Some v -> PrimFloat.leb v vb = true) /\
           (forall k v, 0 <= k < b -> index levels k = Some v ->
              (v < vb)%f64 = true)).
Proof.
  intros Hnd Hme. unfold findOptimalLevels.
  destruct (findOptimalLevels_loop_total (ControlFactors e) mainEffects ∅)
    as [opt Hopt].
  { intros f Hf. destruct (Hme f Hf) as (levels & Hm & Hpos & Hlen).
    exists levels. repeat split; try assumption. lia. }
  exists opt. split; [assumption|]. intros f Hf.
  destruct (findOptimalLevels_loop_entries _ _ _ _ Hopt Hnd f Hf)
    as (b & lv & Hb & Hlv & Hent).
  destruct (Hme f Hf) as (levels & Hm & Hpos & Hlen).
  rewrite Hm in Hb. simpl in Hb.
  pose proof (bestLevelOf_firstMax _ _ Hb) as Hfm.
  exists levels, b, lv. repeat split; try assumption; try apply Hfm.
  intros Hnan. destruct (firstMaxAt_no_nan _ _ Hfm Hnan) as (vb & Hat & Hub & Hlt).
  destruct Hfm as [Hb0 _].
  exists vb. split; [|split].
  - unfold index. destruct (b <? 0) eqn:E; [apply Z.ltb_lt in E; lia|assumption].
  - intros k v. unfold index. destruct (k <? 0); [discriminate|]. apply Hub.
  - intros k v Hk. unfold index. destruct (k <? 0) eqn:E; [discriminate|].
    apply Hlt. lia.
Qed.

Lemma experimentAT_names_NoDup : NoDup (map Name (ControlFactors experimentAT)).
Proof. apply (bool_decide_unpack _). vm_compute. exact I. Qed.

Lemma experimentAT_mainEffects (f : Factor) :
  f ∈ ControlFactors experimentAT ->
  exists levels, mainEffectsAT !! Name f = Some levels /\
    0 < len levels /\ len levels = len (Levels f).
Proof.
  intros Hf. simpl in Hf.
  apply elem_of_cons in Hf as [->|Hf];
    [|apply elem_of_cons in Hf as [->|Hf]; [|inversion Hf]].
  - exists [(-14.5)%float; 0%float]. repeat split.
  - exists [3%float; 5%float; 5%float]. repeat split.
Qed.

(** The theorem applied to factors A (main effects -14.5, 0) and T (main
    effects 3, 5, 5): A gets its second level, T the first of the two tied
    levels. *)
Lemma C6_witness :
  NoDup (map Name (ControlFactors experimentAT)) /\
  (exists optimalLevels,
     findOptimalLevels experimentAT mainEffectsAT = Some optimalLevels /\
     forall f, f ∈ ControlFactors experimentAT ->
       exists levels b lv,
         mainEffectsAT !! Name f = Some levels /\
         firstMaxAt levels b /\
         index (Levels f) b = Some lv /\
         optimalLevels !! Name f = Some lv /\
         ((forall v, In v levels -> isNaN v = false) ->
          exists vb, index levels b = Some vb /\
            (forall k v, index levels k = Some v -> PrimFloat.leb v vb = true) /\
            (forall k v, 0 <= k < b -> index levels k = Some v ->
               (v < vb)%f64 = true))) /\
  (forall optimalLevels,
     findOptimalLevels experimentAT mainEffectsAT = Some optimalLevels ->
     optimalLevels !! "A" = Some 2%float /\ optimalLevels !! "T" = Some 20%float).
Proof.
  split; [exact experimentAT_names_NoDup|]. split.
  - exact (C6_optimal_levels experimentAT mainEffectsAT
             experimentAT_names_NoDup experimentAT_mainEffects).
  - intros opt H. vm_compute in H. injection H as <-. split; reflexivity.
Defined.

(* ===================================================================== *)
(** ** RowReducer: what the analysis reads from the log *)
(* ===================================================================== *)

Lemma rowMatches_control (fs : list Factor) (j : Z) (row : list Z)
    (r1 r2 : TrialResult) :
  Control (ResultTrial r1) = Control (ResultTrial r2) ->
  rowMatches fs j row r1 = rowMatches fs j row r2.
Proof.
  intros H. revert j. induction fs as [|f fs IH]; intros j; simpl; [reflexivity|].
  destruct (index row j) as [oaij|]; simpl; [|reflexivity].
  destruct (index (Levels f) (oaij - 1)) as [lv|]; simpl; [|reflexivity].
  rewrite H, IH. reflexivity.
Qed.

Lemma calculateSNR_config (log10 : float -> float) (e1 e2 : Experiment)
    (obs : list float) :
  Goal e1 = Goal e2 -> Target e1 = Target e2 ->
  calculateSNR log10 e1 obs = calculateSNR log10 e2 obs.
Proof. intros Hg Ht. unfold calculateSNR. now rewrite Hg, Ht. Qed.

Lemma collectObs_log (e1 e2 : Experiment) (row : list Z)
    (rs1 rs2 : list TrialResult) (allObs : list float) :
  ControlFactors e1 = ControlFactors e2 ->
  Forall2 sameControlAndObservations rs1 rs2 ->
  collectObs e1 row rs1 allObs = collectObs e2 row rs2 allObs.
Proof.
  intros Hcf H. revert allObs.
  induction H as [|r1 r2 rs1 rs2 [Hc Ho] _ IH]; intros allObs; simpl; [reflexivity|].
  rewrite Hcf, (rowMatches_control _ _ _ r1 r2 Hc), Ho.
  destruct (rowMatches (ControlFactors e2) 0 row r2) as [m|]; simpl; [|reflexivity].
  apply IH.
Qed.

Lemma rowSNR_log (log10 : float -> float) (e1 e2 : Experiment) (row : list Z) :
  sameConfig e1 e2 ->
  Forall2 sameControlAndObservations (Results e1) (Results e2) ->
  rowSNR log10 e1 row = rowSNR log10 e2 row.
Proof.
  intros (Hcf & _ & Hg & Ht & _) H. unfold rowSNR, CalculateSNR.
  rewrite (collectObs_log e1 e2 row _ _ [] Hcf H).
  destruct (collectObs e2 row (Results e2) []) as [allObs|]; simpl; [|reflexivity].
  now rewrite (calculateSNR_config log10 e1 e2 allObs Hg Ht).
Qed.

Lemma computeOASNR_loop_log (log10 : float -> float) (e1 e2 : Experiment)
    (rows : list (list Z)) (oaSNR : list float) (grandMean : float) :
  sameConfig e1 e2 ->
  Forall2 sameControlAndObservations (Results e1) (Results e2) ->
  computeOASNR_loop log10 e1 rows oaSNR grandMean
  = computeOASNR_loop log10 e2 rows oaSNR grandMean.
Proof.
  intros Hc H. revert oaSNR grandMean.
  induction rows as [|row rows IH]; intros oaSNR grandMean; simpl; [reflexivity|].
  rewrite (rowSNR_log log10 e1 e2 row Hc H).
  destruct (rowSNR log10 e2 row) as [s|]; simpl; [apply IH|reflexivity].
Qed.

Lemma computeOASNR_log (log10 : float -> float) (e1 e2 : Experiment) :
  sameConfig e1 e2 ->
  Forall2 sameControlAndObservations (Results e1) (Results e2) ->
  computeOASNR log10 e1 = computeOASNR log10 e2.
Proof.
  intros Hc H. unfold computeOASNR.
  rewrite (computeOASNR_loop_log log10 e1 e2 _ [] f0 Hc H).
  destruct Hc as (_ & _ & _ & _ & Hoa & _). now rewrite Hoa.
Qed.

Lemma accumulateRows_config (e1 e2 : Experiment) (factor : Factor)
    (rows : list (list Z)) (i : Z) (oaSNR levelMeans : list float)
    (levelCounts : list Z) :
  ControlFactors e1 = ControlFactors e2 ->
  accumulateRows e1 factor rows i oaSNR levelMeans levelCounts
  = accumulateRows e2 factor rows i oaSNR levelMeans levelCounts.
Proof.
  intros Hcf. revert i levelMeans levelCounts.
  induction rows as [|row rows IH]; intros i levelMeans levelCounts; simpl;
    [reflexivity|].
  rewrite Hcf.
  destruct (levelIdx_loop (ControlFactors e2) 0 (Name factor) row) as [levelIdx|];
    simpl; [|reflexivity].
  destruct ((0 <=? levelIdx) && (levelIdx <? len (Levels factor))); [|apply IH].
  destruct (index oaSNR i) as [sn|]; simpl; [apply IH|reflexivity].
Qed.

Lemma factorLoop_config (e1 e2 : Experiment) (oaSNR : list float)
    (grandMean : float) (fs : list Factor) (t : FactorTables) :
  ControlFactors e1 = ControlFactors e2 ->
  OrthogonalArray e1 = OrthogonalArray e2 ->
  factorLoop e1 oaSNR grandMean fs t = factorLoop e2 oaSNR grandMean fs t.
Proof.
  intros Hcf Hoa. revert t.
  induction fs as [|f fs IH]; intros t; simpl; [reflexivity|].
  unfold factorStats. rewrite Hoa.
  rewrite (accumulateRows_config e1 e2 f _ _ _ _ _ Hcf).
  destruct (accumulateRows e2 f (OrthogonalArray e2) 0 oaSNR
              (replicate (length (Levels f)) f0) (replicate (length (Levels f)) 0))
    as [[levelMeans levelCounts]|]; simpl; [apply IH|reflexivity].
Qed.

Lemma computeANOVA_config (rng : MapRange) (e1 e2 : Experiment)
    (oaSNR : list float) (grandMean : float) :
  ControlFactors e1 = ControlFactors e2 ->
  OrthogonalArray e1 = OrthogonalArray e2 ->
  computeANOVA rng e1 oaSNR grandMean = computeANOVA rng e2 oaSNR grandMean.
Proof.
  intros Hcf Hoa. unfold computeANOVA.
  rewrite (factorLoop_config e1 e2 oaSNR grandMean _ _ Hcf Hoa), Hcf, Hoa.
  reflexivity.
Qed.

Lemma findOptimalLevels_config (e1 e2 : Experiment)
    (mainEffects : gmap string (list float)) :
  ControlFactors e1 = ControlFactors e2 ->
  findOptimalLevels e1 mainEffects = findOptimalLevels e2 mainEffects.
Proof. intros Hcf. unfold findOptimalLevels. now rewrite Hcf. Qed.

(** C10: for one configuration (and one order of map iteration), two logs
    whose results agree pairwise on the control assignment and on the
    observations give the same analysis result, whatever their trial
    identifiers and noise assignments are. *)
Theorem C10_analyze_reads_control_and_observations (log10 : float -> float)
    (rng : MapRange) (e1 e2 : Experiment) :
  sameConfig e1 e2 ->
  Forall2 sameControlAndObservations (Results e1) (Results e2) ->
  Analyze log10 rng e1 = Analyze log10 rng e2.
Proof.
  intros Hc H. unfold Analyze.
  rewrite (computeOASNR_log log10 e1 e2 Hc H).
  destruct Hc as (Hcf & _ & _ & _ & Hoa & _).
  destruct (computeOASNR log10 e2) as [[oaSNR grandMean]|]; simpl; [|reflexivity].
  rewrite (computeANOVA_config rng e1 e2 oaSNR grandMean Hcf Hoa).
  destruct (computeANOVA rng e2 oaSNR grandMean) as [[[anova me] snr]|]; simpl;
    [|reflexivity].
  now rewrite (findOptimalLevels_config e1 e2 me Hcf).
Qed.

Lemma index_in_range {A} (l : list A) (v : Z) :
  1 <= v <= len l -> exists x, index l (v - 1) = Some x.
Proof.
  intros H. unfold index. destruct (v - 1 <? 0) eqn:E; [apply Z.ltb_lt in E; lia|].
  apply lookup_lt_is_Some_2. unfold len in H. lia.
Qed.

Lemma validRowFrom_cons (f : Factor) (fs : list Factor) (j : Z) (row : list Z) :
  validRowFrom (f :: fs) j row = true ->
  exists v, index row j = Some v /\ 1 <= v <= len (Levels f) /\
    validRowFrom fs (j + 1) row = true.
Proof.
  simpl. destruct (index row j) as [v|]; [|discriminate].
  intros H. apply andb_prop in H as [H H3]. apply andb_prop in H as [H1 H2].
  exists v. repeat split; try assumption; lia.
Qed.

Lemma validRowFrom_rowLevels (fs : list Factor) (j : Z) (row : list Z) :
  validRowFrom fs j row = true -> exists lvs, rowLevels fs j row = Some lvs.
Proof.
  revert j. induction fs as [|f fs IH]; intros j H; simpl; [eauto|].
  destruct (validRowFrom_cons _ _ _ _ H) as (v & Hv & Hr & Hrest).
  rewrite Hv. simpl. destruct (index_in_range (Levels f) v Hr) as [lv ->]. simpl.
  destruct (IH _ Hrest) as [lvs ->]. simpl. eauto.
Qed.

Lemma rowLevels_rowMatches (fs : list Factor) (j : Z) (row : list Z)
    (lvs : list float) (r : TrialResult) :
  rowLevels fs j row = Some lvs ->
  rowMatches fs j row r = Some (agreesWith fs lvs r).
Proof.
  revert j lvs. induction fs as [|f fs IH]; intros j lvs H; simpl in *.
  - injection H as <-. reflexivity.
  - destruct (index row j) as [oaij|]; simpl in *; [|discriminate].
    destruct (index (Levels f) (oaij - 1)) as [lv|]; simpl in *; [|discriminate].
    destruct (rowLevels fs (j + 1) row) as [lvs'|] eqn:E; simpl in *; [|discriminate].
    injection H as <-. simpl.
    destruct (mapGet (Control (ResultTrial r)) (Name f) == lv)%f64; simpl.
    + now apply IH.
    + reflexivity.
Qed.

Lemma collectObs_pooled (e : Experiment) (row : list Z) (lvs : list float)
    (rs : list TrialResult) (allObs : list float) :
  rowLevels (ControlFactors e) 0 row = Some lvs ->
  collectObs e row rs allObs
  = Some (allObs ++ concat (map Observations
                              (List.filter (agreesWith (ControlFactors e) lvs) rs))).
Proof.
  intros Hl. revert allObs.
  induction rs as [|r rs IH]; intros allObs; simpl.
  - now rewrite app_nil_r.
  - rewrite (rowLevels_rowMatches _ _ _ _ r Hl). simpl.
    destruct (agreesWith (ControlFactors e) lvs r); simpl.
    + rewrite IH. now rewrite <- app_assoc.
    + apply IH.
Qed.

Lemma rowSNR_pooled (log10 : float -> float) (e : Experiment) (row : list Z) :
  validRowFrom (ControlFactors e) 0 row = true ->
  rowSNR log10 e row = Some (pooledRowSNR log10 e row).
Proof.
  intros Hv. destruct (validRowFrom_rowLevels _ _ _ Hv) as [lvs Hl].
  unfold rowSNR, pooledRowSNR. rewrite Hl.
  rewrite (collectObs_pooled e row lvs (Results e) [] Hl). reflexivity.
Qed.

Lemma computeOASNR_loop_pooled (log10 : float -> float) (e : Experiment)
    (rows : list (list Z)) (oaSNR : list float) (grandMean : float) :
  forallb (validRowFrom (ControlFactors e) 0) rows = true ->
  computeOASNR_loop log10 e rows oaSNR grandMean
  = Some (oaSNR ++ map (pooledRowSNR log10 e) rows,
          fold_left (fun acc x => (acc + x)%f64)
            (map (pooledRowSNR log10 e) rows) grandMean).
Proof.
  revert oaSNR grandMean.
  induction rows as [|row rows IH]; intros oaSNR grandMean H; simpl in *.
  - now rewrite app_nil_r.
  - apply andb_prop in H as [Hrow Hrows].
    rewrite (rowSNR_pooled log10 e row Hrow). simpl.
    rewrite (IH _ _ Hrows). now rewrite <- app_assoc.
Qed.

(** On an array that satisfies the data-model invariant, [computeOASNR]
    returns, for every row, the SNR computed once on the row's pool, and
    their mean. *)
Lemma computeOASNR_pooled (log10 : float -> float) (e : Experiment) :
  validArray e = true ->
  computeOASNR log10 e
  = Some (map (pooledRowSNR log10 e) (OrthogonalArray e),
          fmean (map (pooledRowSNR log10 e) (OrthogonalArray e))).
Proof.
  intros H. unfold computeOASNR.
  rewrite (computeOASNR_loop_pooled log10 e _ [] f0 H). simpl.
  unfold fmean, fsum. now rewrite len_map.
Qed.

(** The theorem applied to the test log and a relabelled copy of it. *)
Lemma C10_witness :
  sameConfig (experimentA SmallerTheBetter f0 logA)
             (experimentA SmallerTheBetter f0 logA_relabelled) /\
  Forall2 sameControlAndObservations logA logA_relabelled /\
  Analyze GoMath.Log10 canonicalRange (experimentA SmallerTheBetter f0 logA)
  = Analyze GoMath.Log10 canonicalRange
      (experimentA SmallerTheBetter f0 logA_relabelled).
Proof.
  assert (Hc : sameConfig (experimentA SmallerTheBetter f0 logA)
                 (experimentA SmallerTheBetter f0 logA_relabelled))
    by (repeat split; reflexivity).
  assert (Hl : Forall2 sameControlAndObservations logA logA_relabelled)
    by (repeat constructor).
  split; [exact Hc|]. split; [exact Hl|].
  exact (C10_analyze_reads_control_and_observations GoMath.Log10 canonicalRange
           _ _ Hc Hl).
Defined.

(** The older [Analyze] reduces every matching result to an SNR of its own
    and averages them. *)
Lemma legacy_sumSNR_average (log10 : float -> float) (e : Experiment)
    (row : list Z) (lvs : list float) (rs : list TrialResult)
    (sum : float) (count : Z) :
  rowLevels (ControlFactors e) 0 row = Some lvs ->
  Legacy.sumSNR log10 e row rs sum count
  = let matching := List.filter (agreesWith (ControlFactors e) lvs) rs in
    Some (fold_left (fun acc x => (acc + x)%f64)
            (map (fun r => calculateSNR log10 e (Observations r)) matching) sum,
          count + len matching).
Proof.
  intros Hl. revert sum count.
  induction rs as [|r rs IH]; intros sum count; simpl.
  - f_equal. f_equal. unfold len. simpl. lia.
  - rewrite (rowLevels_rowMatches _ _ _ _ r Hl). simpl.
    destruct (agreesWith (ControlFactors e) lvs r); simpl.
    + rewrite IH. simpl. f_equal. f_equal. unfold len. simpl. lia.
    + apply IH.
Qed.

(** C1, at the input of the repository's test: the older [Analyze] gives row
    [1] the average of the SNR of [2,4] (mean square 10) and of [6,8] (mean
    square 50), where [computeOASNR] gives it the SNR of the pooled
    observations (mean square 30); with the concrete logarithm the two
    values are about -13.49 and -14.77 (above -13.5; between -14.8125 and
    -14.75). *)
Theorem C1_legacy_analyze_averages :
  (forall log10 : float -> float,
     fst <$> Legacy.oaSNR_of log10 (experimentA SmallerTheBetter f0 logA)
     = Some [ ((f0 + fm10 * log10 10%float + fm10 * log10 50%float) / 2)%f64;
              ((f0 + fm10 * log10 1%float + fm10 * log10 1%float) / 2)%f64 ]) /\
  (forall log10 : float -> float,
     fst <$> computeOASNR log10 (experimentA SmallerTheBetter f0 logA)
     = Some [ (fm10 * log10 30%float)%f64; (fm10 * log10 1%float)%f64 ]) /\
  (exists legacy pooled rest1 rest2,
     fst <$> Legacy.oaSNR_of GoMath.Log10 (experimentA SmallerTheBetter f0 logA)
       = Some (legacy :: rest1) /\
     fst <$> computeOASNR GoMath.Log10 (experimentA SmallerTheBetter f0 logA)
       = Some (pooled :: rest2) /\
     (legacy > (-13.5)%float)%f64 = true /\
     (pooled < (-14.75)%float)%f64 = true /\
     (pooled > (-14.8125)%float)%f64 = true).
Proof.
  split; [intros log10; vm_compute; reflexivity|].
  split; [intros log10; vm_compute; reflexivity|].
  eexists _, _, _, _.
  split; [vm_compute; reflexivity|].
  split; [vm_compute; reflexivity|].
  repeat split; vm_compute; reflexivity.
Qed.

(* ===================================================================== *)
(** ** ANOVAEngine *)
(* ===================================================================== *)

Lemma accumulateRows_lengths (e : Experiment) (factor : Factor)
    (rows : list (list Z)) (i : Z) (oaSNR levelMeans : list float)
    (levelCounts : list Z) (levelMeans' : list float) (levelCounts' : list Z) :
  accumulateRows e factor rows i oaSNR levelMeans levelCounts
  = Some (levelMeans', levelCounts') ->
  length levelMeans' = length levelMeans /\ length levelCounts' = length levelCounts.
Proof.
  revert i levelMeans levelCounts.
  induction rows as [|row rows IH]; intros i levelMeans levelCounts H; simpl in H.
  - injection H as <- <-. split; reflexivity.
  - destruct (levelIdx_loop (ControlFactors e) 0 (Name factor) row) as [levelIdx|];
      simpl in H; [|discriminate].
    destruct ((0 <=? levelIdx) && (levelIdx <? len (Levels factor))).
    + destruct (index oaSNR i) as [sn|]; simpl in H; [|discriminate].
      apply IH in H. rewrite !length_alter in H. exact H.
    + now apply IH in H.
Qed.

Lemma factorStats_shape (e : Experiment) (oaSNR : list float) (grandMean : float)
    (factor : Factor) (levelMeans : list float) (ss : float) (dfs : Z) :
  factorStats e oaSNR grandMean factor = Some (levelMeans, ss, dfs) ->
  dfs = len (Levels factor) - 1 /\ len levelMeans = len (Levels factor).
Proof.
  unfold factorStats.
  destruct (accumulateRows e factor (OrthogonalArray e) 0 oaSNR
              (replicate (length (Levels factor)) f0)
              (replicate (length (Levels factor)) 0))
    as [[means counts]|] eqn:E; simpl; [|discriminate].
  intros H. injection H as <- _ <-.
  apply accumulateRows_lengths in E as [Hm Hc].
  rewrite length_replicate in Hm. rewrite length_replicate in Hc.
  split; [reflexivity|]. unfold len. rewrite length_zip_with. lia.
Qed.

Lemma factorLoop_other (e : Experiment) (oaSNR : list float) (grandMean : float)
    (fs : list Factor) (t t' : FactorTables) (k : string) :
  factorLoop e oaSNR grandMean fs t = Some t' ->
  k ∉ map Name fs ->
  ft_SS t' !! k = ft_SS t !! k /\ ft_DF t' !! k = ft_DF t !! k /\
  ft_mainEffects t' !! k = ft_mainEffects t !! k /\
  ft_snrPerFactor t' !! k = ft_snrPerFactor t !! k.
Proof.
  revert t. induction fs as [|f fs IH]; intros t H Hk; simpl in H.
  - injection H as <-. repeat split.
  - destruct (factorStats e oaSNR grandMean f) as [[[means ss] dfs]|];
      simpl in H; [|discriminate].
    assert (Hne : Name f <> k).
    { intros Heq. apply Hk. subst k. simpl. apply elem_of_cons. now left. }
    assert (Hk' : k ∉ map Name fs).
    { intros Hin. apply Hk. simpl. apply elem_of_cons. now right. }
    destruct (IH _ H Hk') as (H1 & H2 & H3 & H4). simpl in *.
    rewrite lookup_insert_ne in H1 by assumption.
    rewrite lookup_insert_ne in H2 by assumption.
    rewrite lookup_insert_ne in H3 by assumption.
    rewrite lookup_insert_ne in H4 by assumption.
    repeat split; assumption.
Qed.

Lemma factorLoop_entries (e : Experiment) (oaSNR : list float) (grandMean : float)
    (fs : list Factor) (t t' : FactorTables) :
  factorLoop e oaSNR grandMean fs t = Some t' ->
  NoDup (map Name fs) ->
  forall f, f ∈ fs ->
    exists levelMeans ss,
      factorStats e oaSNR grandMean f = Some (levelMeans, ss, len (Levels f) - 1) /\
      ft_SS t' !! Name f = Some ss /\
      ft_DF t' !! Name f = Some (len (Levels f) - 1) /\
      ft_mainEffects t' !! Name f = Some levelMeans /\
      ft_snrPerFactor t' !! Name f = Some levelMeans.
Proof.
  revert t. induction fs as [|f0 fs IH]; intros t H Hnd f Hf; simpl in H.
  - inversion Hf.
  - destruct (factorStats e oaSNR grandMean f0) as [[[means ss] dfs]|] eqn:E;
      simpl in H; [|discriminate].
    simpl in Hnd. apply NoDup_cons in Hnd as [Hnotin Hnd].
    apply elem_of_cons in Hf as [->|Hf].
    + destruct (factorStats_shape _ _ _ _ _ _ _ E) as [-> _].
      destruct (factorLoop_other _ _ _ _ _ _ _ H Hnotin) as (H1 & H2 & H3 & H4).
      simpl in *. rewrite lookup_insert_eq in H1. rewrite lookup_insert_eq in H2.
      rewrite lookup_insert_eq in H3. rewrite lookup_insert_eq in H4.
      exists means, ss. repeat split; assumption.
    + eapply IH; eassumption.
Qed.

(** The table of degrees of freedom is the list of factors read as a map. *)
Lemma factorLoop_DF_map (e : Experiment) (oaSNR : list float) (grandMean : float)
    (fs : list Factor) (t' : FactorTables) :
  factorLoop e oaSNR grandMean fs
    {| ft_SS := ∅; ft_DF := ∅; ft_mainEffects := ∅; ft_snrPerFactor := ∅ |}
  = Some t' ->
  NoDup (map Name fs) ->
  ft_DF t' = list_to_map (map (fun f => (Name f, factorDFSpec f)) fs).
Proof.
  intros H Hnd. apply map_eq. intros k.
  set (L := map (fun f => (Name f, factorDFSpec f)) fs).
  assert (HL1 : L.*1 = map Name fs).
  { unfold L. rewrite <- list_fmap_compose.
    induction fs as [|f fs' IH]; [reflexivity|]. simpl. now f_equal. }
  destruct (decide (k ∈ map Name fs)) as [Hin|Hnotin].
  - apply list_elem_of_fmap in Hin as (f & -> & Hf).
    destruct (factorLoop_entries _ _ _ _ _ _ H Hnd f Hf) as (m & ss & _ & _ & Hdf & _).
    rewrite Hdf. symmetry. apply elem_of_list_to_map_1.
    + now rewrite HL1.
    + unfold L. apply list_elem_of_fmap. exists f. split; [reflexivity|assumption].
  - destruct (factorLoop_other _ _ _ _ _ _ k H Hnotin) as (_ & Hdf & _).
    rewrite Hdf. simpl. rewrite lookup_empty. symmetry.
    apply not_elem_of_list_to_map_1. now rewrite HL1.
Qed.

Lemma factorLoop_SS_map (e : Experiment) (oaSNR : list float) (grandMean : float)
    (fs : list Factor) (t' : FactorTables) :
  factorLoop e oaSNR grandMean fs
    {| ft_SS := ∅; ft_DF := ∅; ft_mainEffects := ∅; ft_snrPerFactor := ∅ |}
  = Some t' ->
  NoDup (map Name fs) ->
  ft_SS t' = list_to_map (map (fun f => (Name f, mapGet (ft_SS t') (Name f))) fs).
Proof.
  intros H Hnd. apply map_eq. intros k.
  set (L := map (fun f => (Name f, mapGet (ft_SS t') (Name f))) fs).
  assert (HL1 : L.*1 = map Name fs).
  { unfold L. rewrite <- list_fmap_compose.
    induction fs as [|f fs' IH]; [reflexivity|]. simpl. now f_equal. }
  destruct (decide (k ∈ map Name fs)) as [Hin|Hnotin].
  - apply list_elem_of_fmap in Hin as (f & -> & Hf).
    destruct (factorLoop_entries _ _ _ _ _ _ H Hnd f Hf) as (m & ss & _ & Hss & _).
    rewrite Hss. symmetry. apply elem_of_list_to_map_1.
    + now rewrite HL1.
    + unfold L. apply list_elem_of_fmap. exists f. split; [|assumption].
      unfold mapGet. now rewrite Hss.
  - destruct (factorLoop_other _ _ _ _ _ _ k H Hnotin) as (Hss & _).
    rewrite Hss. simpl. rewrite lookup_empty. symmetry.
    apply not_elem_of_list_to_map_1. now rewrite HL1.
Qed.

Lemma zsum_perm (l1 l2 : list Z) : l1 ≡ₚ l2 -> zsum l1 = zsum l2.
Proof.
  unfold zsum.
  induction 1 as [|x l1 l2 _ IH|x y l|l1 l2 l3 _ IH1 _ IH2]; simpl; lia.
Qed.

Lemma fold_left_sub_zsum {K} (l : list (K * Z)) (a : Z) :
  fold_left (fun acc '(_, df) => acc - df) l a = a - zsum (l.*2).
Proof.
  unfold zsum.
  revert a. induction l as [|[k df] l IH]; intros a; [simpl; lia|].
  rewrite fmap_cons. cbn [fold_left foldr snd]. rewrite IH. lia.
Qed.

Lemma fmap_fst_names {V} (g : Factor -> V) (fs : list Factor) :
  (map (fun f => (Name f, g f)) fs).*1 = map Name fs.
Proof. induction fs as [|f fs IH]; [reflexivity|]. simpl. now f_equal. Qed.

Lemma fmap_snd_values {V} (g : Factor -> V) (fs : list Factor) :
  (map (fun f => (Name f, g f)) fs).*2 = map g fs.
Proof. induction fs as [|f fs IH]; [reflexivity|]. simpl. now f_equal. Qed.

Lemma errorDF_of_spec (rng : MapRange) (oaRows : Z) (fs : list Factor) :
  NoDup (map Name fs) ->
  errorDF_of rng oaRows (list_to_map (map (fun f => (Name f, factorDFSpec f)) fs))
  = Z.max 1 (oaRows - 1 - zsum (map factorDFSpec fs)).
Proof.
  intros Hnd. unfold errorDF_of. rewrite fold_left_sub_zsum.
  set (L := map (fun f => (Name f, factorDFSpec f)) fs).
  assert (Hperm : range rng 0%nat (list_to_map L : gmap string Z) ≡ₚ L).
  { etransitivity; [apply range_perm|]. apply map_to_list_to_map.
    unfold L. now rewrite fmap_fst_names. }
  rewrite (zsum_perm _ (L.*2)) by (now apply fmap_Permutation).
  unfold L. rewrite fmap_snd_values.
  destruct (_ <? 1) eqn:E; [apply Z.ltb_lt in E|apply Z.ltb_ge in E]; lia.
Qed.

Lemma fold_left_sub_pairs (g : Factor -> float) (order : list Factor) (a : float) :
  fold_left (fun errorSS '(_, ss) => (errorSS - ss)%f64)
    (map (fun f => (Name f, g f)) order) a
  = fold_left (fun acc f => (acc - g f)%f64) order a.
Proof.
  revert a. induction order as [|f order IH]; intros a; simpl; [reflexivity|].
  apply IH.
Qed.

Lemma errorSS_of_spec (rng : MapRange) (totalSS : float) (fs : list Factor)
    (g : Factor -> float) :
  NoDup (map Name fs) ->
  exists order, order ≡ₚ fs /\
    errorSS_of rng totalSS (list_to_map (map (fun f => (Name f, g f)) fs))
    = fold_left (fun acc f => (acc - g f)%f64) order totalSS.
Proof.
  intros Hnd. unfold errorSS_of.
  set (L := map (fun f => (Name f, g f)) fs).
  assert (Hperm : range rng 1%nat (list_to_map L : gmap string float) ≡ₚ L).
  { etransitivity; [apply range_perm|]. apply map_to_list_to_map.
    unfold L. now rewrite fmap_fst_names. }
  destruct (Permutation_map_inv _ _ Hperm) as (order & Heq & Hord).
  exists order. split; [now symmetry|].
  rewrite Heq. apply fold_left_sub_pairs.
Qed.

Lemma computeANOVA_error_terms (rng : MapRange) (e : Experiment)
    (oaSNR : list float) (grandMean : float) (a : ANOVAResult)
    (mainEffects snrPerFactor : gmap string (list float)) :
  NoDup (map Name (ControlFactors e)) ->
  computeANOVA rng e oaSNR grandMean = Some (a, mainEffects, snrPerFactor) ->
  anovaErrorTerms e oaSNR grandMean a.
Proof.
  intros Hnd. unfold computeANOVA.
  destruct (factorLoop e oaSNR grandMean (ControlFactors e) _) as [t|] eqn:Ht;
    simpl; [|discriminate].
  destruct (factorMSF rng (ft_SS t) (ft_DF t) _) as [factorMS factorF].
  intros H. injection H as <- _ _.
  pose proof (factorLoop_DF_map _ _ _ _ _ Ht Hnd) as HDF.
  pose proof (factorLoop_SS_map _ _ _ _ _ Ht Hnd) as HSS.
  unfold anovaErrorTerms. simpl.
  assert (HeDF : errorDF_of rng (len (OrthogonalArray e)) (ft_DF t) = errorDFSpec e).
  { rewrite HDF. now apply errorDF_of_spec. }
  split; [|split; [|split; [|split]]].
  - intros f Hf.
    destruct (factorLoop_entries _ _ _ _ _ _ Ht Hnd f Hf) as (m & ss & _ & _ & H & _).
    exact H.
  - exact HeDF.
  - rewrite HeDF. unfold errorDFSpec. lia.
  - reflexivity.
  - destruct (errorSS_of_spec rng (totalSS_of oaSNR grandMean) (ControlFactors e)
                (fun f => mapGet (ft_SS t) (Name f)) Hnd) as (order & Hord & Heq).
    exists order. split; [assumption|]. rewrite <- Heq. now rewrite <- HSS.
Qed.

Lemma Analyze_stages (log10 : float -> float) (rng : MapRange) (e : Experiment)
    (r : AnalysisResult) :
  Analyze log10 rng e = Some r ->
  exists oaSNR grandMean,
    computeOASNR log10 e = Some (oaSNR, grandMean) /\
    computeANOVA rng e oaSNR grandMean = Some (ANOVA r, MainEffects r, SNR r) /\
    findOptimalLevels e (MainEffects r) = Some (OptimalLevels r) /\
    Contributions r = computeContributions rng (ANOVA r).
Proof.
  unfold Analyze.
  destruct (computeOASNR log10 e) as [[oaSNR grandMean]|]; simpl; [|discriminate].
  destruct (computeANOVA rng e oaSNR grandMean) as [[[a me] snr]|] eqn:Ea; simpl;
    [|discriminate].
  destruct (findOptimalLevels e me) as [opt|] eqn:E; simpl; [|discriminate].
  intros H. injection H as <-. simpl. exists oaSNR, grandMean.
  split; [reflexivity|]. split; [exact Ea|]. split; [exact E|reflexivity].
Qed.

Lemma Legacy_Analyze_stages (log10 : float -> float) (rng : MapRange)
    (e : Experiment) (r : AnalysisResult) :
  Legacy.Analyze log10 rng e = Some r ->
  exists oaSNR grandMean,
    Legacy.oaSNR_of log10 e = Some (oaSNR, grandMean) /\
    computeANOVA rng e oaSNR grandMean = Some (ANOVA r, MainEffects r, SNR r) /\
    findOptimalLevels e (MainEffects r) = Some (OptimalLevels r) /\
    Contributions r = computeContributions rng (ANOVA r).
Proof.
  unfold Legacy.Analyze.
  destruct (Legacy.oaSNR_of log10 e) as [[oaSNR grandMean]|]; simpl; [|discriminate].
  destruct (computeANOVA rng e oaSNR grandMean) as [[[a me] snr]|] eqn:Ea; simpl;
    [|discriminate].
  destruct (findOptimalLevels e me) as [opt|] eqn:E; simpl; [|discriminate].
  intros H. injection H as <-. simpl. exists oaSNR, grandMean.
  split; [reflexivity|]. split; [exact Ea|]. split; [exact E|reflexivity].
Qed.

(** C3: in every analysis (of either [Analyze]), a factor with [k] levels
    has [k-1] degrees of freedom, the error degrees of freedom are
    [(rows-1)] minus the factors' degrees of freedom, floored at 1, the error
    sum of squares is the total sum of squares minus every factor's sum of
    squares, and the error mean square is the error sum of squares divided
    by the floored degrees of freedom. *)
Theorem C3_anova_error_terms (log10 : float -> float) (rng : MapRange)
    (e : Experiment) (r : AnalysisResult) :
  NoDup (map Name (ControlFactors e)) ->
  (Analyze log10 rng e = Some r ->
     exists oaSNR grandMean,
       computeOASNR log10 e = Some (oaSNR, grandMean) /\
       anovaErrorTerms e oaSNR grandMean (ANOVA r)) /\
  (Legacy.Analyze log10 rng e = Some r ->
     exists oaSNR grandMean,
       Legacy.oaSNR_of log10 e = Some (oaSNR, grandMean) /\
       anovaErrorTerms e oaSNR grandMean (ANOVA r)).
Proof.
  intros Hnd. split; intros H.
  - destruct (Analyze_stages _ _ _ _ H) as (oaSNR & gm & H1 & H2 & _).
    exists oaSNR, gm. split; [assumption|].
    eapply computeANOVA_error_terms; eassumption.
  - destruct (Legacy_Analyze_stages _ _ _ _ H) as (oaSNR & gm & H1 & H2 & _).
    exists oaSNR, gm. split; [assumption|].
    eapply computeANOVA_error_terms; eassumption.
Qed.

Lemma experimentAB_names_NoDup (o1 o2 o3 o4 : float) :
  NoDup (map Name (ControlFactors (experimentAB o1 o2 o3 o4))).
Proof. apply (bool_decide_unpack _). vm_compute. exact I. Qed.

(** The theorem applied to the 2x2 layout with observations 2, 4, 6, 10:
    both factors have one degree of freedom and the error term has
    4 - 1 - 2 = 1. *)
Lemma C3_witness :
  NoDup (map Name (ControlFactors (experimentAB 2 4 6 10))) /\
  exists r,
    Analyze GoMath.Log10 canonicalRange (experimentAB 2 4 6 10) = Some r /\
    (exists oaSNR grandMean,
       computeOASNR GoMath.Log10 (experimentAB 2 4 6 10) = Some (oaSNR, grandMean) /\
       anovaErrorTerms (experimentAB 2 4 6 10) oaSNR grandMean (ANOVA r)) /\
    ErrorDF (ANOVA r) = 1.
Proof.
  split; [apply experimentAB_names_NoDup|].
  destruct (Analyze GoMath.Log10 canonicalRange (experimentAB 2 4 6 10))
    as [r|] eqn:Hr; [|vm_compute in Hr; discriminate].
  exists r. split; [reflexivity|]. split.
  - exact (proj1 (C3_anova_error_terms GoMath.Log10 canonicalRange
                    (experimentAB 2 4 6 10) r
                    (experimentAB_names_NoDup 2 4 6 10)) Hr).
  - vm_compute in Hr. injection Hr as <-. reflexivity.
Defined.

Lemma eqb_not_gt (a b : float) :
  PrimFloat.eqb a b = true -> PrimFloat.ltb b a = false.
Proof.
  rewrite FloatAxioms.eqb_spec, FloatAxioms.ltb_spec. unfold SFeqb, SFltb.
  rewrite (SFcompare_antisym (Prim2SF a) (Prim2SF b)).
  now destruct (SFcompare (Prim2SF a) (Prim2SF b)) as [[]|].
Qed.

(** A map filled by one pass over the entries of another map. *)
Lemma fold_insert_lookup {V W} (g : string -> V -> W) (l : list (string * V))
    (acc : gmap string W) (k : string) :
  NoDup (l.*1) ->
  fold_left (fun acc '(f, v) => <[f := g f v]> acc) l acc !! k
  = match list_find (fun p => p.1 = k) l with
    | Some (_, (_, v)) => Some (g k v)
    | None => acc !! k
    end.
Proof.
  revert acc. induction l as [|[f v] l IH]; intros acc Hnd; [reflexivity|].
  rewrite fmap_cons in Hnd. apply NoDup_cons in Hnd as [Hnotin Hnd].
  cbn [fold_left]. rewrite (IH _ Hnd). simpl.
  destruct (decide (f = k)) as [->|Hne]; simpl.
  - destruct (list_find (fun p => p.1 = k) l) as [[i [f' v']]|] eqn:E; simpl.
    + apply list_find_Some in E as (Hl & Hk & _). simpl in Hk. subst f'.
      exfalso. apply Hnotin. apply list_elem_of_fmap. exists (k, v'). split; [reflexivity|].
      eapply list_elem_of_lookup_2; eassumption.
    + apply lookup_insert_eq.
  - destruct (list_find (fun p => p.1 = k) l) as [[i [f' v']]|]; simpl; [reflexivity|].
    now apply lookup_insert_ne.
Qed.

Lemma range_lookup {V W} (rng : MapRange) (site : nat) (g : string -> V -> W)
    (m : gmap string V) (k : string) :
  fold_left (fun acc '(f, v) => <[f := g f v]> acc) (range rng site m)
    (∅ : gmap string W) !! k
  = g k <$> m !! k.
Proof.
  pose proof (range_perm rng V site m) as Hperm.
  assert (Hnd : NoDup ((range rng site m).*1)).
  { rewrite Hperm. apply NoDup_fst_map_to_list. }
  rewrite (fold_insert_lookup g _ ∅ k Hnd).
  destruct (list_find (fun p => p.1 = k) (range rng site m)) as [[i [f v]]|] eqn:E.
  - apply list_find_Some in E as (Hl & Hk & _). simpl in Hk. subst f.
    assert (Hin : (k, v) ∈ map_to_list m).
    { rewrite <- Hperm. eapply list_elem_of_lookup_2; eassumption. }
    apply elem_of_map_to_list in Hin. now rewrite Hin.
  - rewrite lookup_empty.
    destruct (m !! k) as [v|] eqn:Hm; [|reflexivity]. exfalso.
    apply elem_of_map_to_list in Hm. rewrite <- Hperm in Hm.
    apply list_elem_of_lookup in Hm as [i Hi].
    eapply list_find_None in E. rewrite Forall_forall in E.
    apply (E (k, v)); [|reflexivity].
    eapply list_elem_of_lookup_2; eassumption.
Qed.

Lemma fold_left_add_pairs {K} (l : list (K * float)) (a : float) :
  fold_left (fun total '(_, ss) => (total + ss)%f64) l a
  = fold_left (fun acc x => (acc + x)%f64) (l.*2) a.
Proof.
  revert a. induction l as [|[k ss] l IH]; intros a; [reflexivity|].
  rewrite fmap_cons. cbn [fold_left snd]. apply IH.
Qed.

(** C4 as the code has it: with [total] the float64 sum of the factors'
    sums of squares (added in the order the map is visited), every factor's
    contribution is [(SS / total) * 100] when [total > 0] and [0] otherwise
    (in particular when [total] is zero); every factor has an entry. *)
Theorem C4_contributions (rng : MapRange) (a : ANOVAResult) :
  let total := totalFactorSS_of rng (FactorSS a) in
  let contributions := computeContributions rng a in
  (exists order, order ≡ₚ map_to_list (FactorSS a) /\ total = fsum (order.*2)) /\
  (forall f, contributions !! f = None <-> FactorSS a !! f = None) /\
  ((total > f0)%f64 = true ->
     forall f ss, FactorSS a !! f = Some ss ->
       contributions !! f = Some (ss / total * f100)%f64) /\
  ((total > f0)%f64 = false ->
     forall f ss, FactorSS a !! f = Some ss -> contributions !! f = Some f0) /\
  ((total == f0)%f64 = true -> (total > f0)%f64 = false).
Proof.
  intros total contributions.
  assert (Hlook : forall f, contributions !! f
            = (fun ss => if (total > f0)%f64 then (ss / total * f100)%f64 else f0)
                <$> FactorSS a !! f).
  { intros f. unfold contributions, computeContributions. fold total.
    destruct (total > f0)%f64.
    - apply (range_lookup rng 4%nat (fun _ ss => (ss / total * f100)%f64)).
    - apply (range_lookup rng 5%nat (fun _ _ => f0)). }
  split; [|split; [|split; [|split]]].
  - exists (range rng 3%nat (FactorSS a)). split; [apply range_perm|].
    unfold total, totalFactorSS_of, fsum. apply fold_left_add_pairs.
  - intros f. rewrite Hlook. destruct (FactorSS a !! f); simpl; split; congruence.
  - intros Hpos f ss Hss. rewrite Hlook, Hss. simpl. now rewrite Hpos.
  - intros Hpos f ss Hss. rewrite Hlook, Hss. simpl. now rewrite Hpos.
  - intros Hz. now apply eqb_not_gt.
Qed.

(** The theorem applied to three factors with sum of squares 1 each: the
    total is 3 and every contribution is the float64 value of (1/3)*100. *)
Lemma C4_witness :
  (totalFactorSS_of canonicalRange (FactorSS anovaThirds) > f0)%f64 = true /\
  FactorSS anovaThirds !! "B" = Some 1%float /\
  computeContributions canonicalRange anovaThirds !! "B"
  = Some (1 / totalFactorSS_of canonicalRange (FactorSS anovaThirds) * f100)%f64.
Proof.
  assert (Hpos : (totalFactorSS_of canonicalRange (FactorSS anovaThirds) > f0)%f64
                 = true) by (vm_compute; reflexivity).
  assert (Hss : FactorSS anovaThirds !! "B" = Some 1%float)
    by (vm_compute; reflexivity).
  split; [exact Hpos|]. split; [exact Hss|].
  exact (proj1 (proj2 (proj2 (C4_contributions canonicalRange anovaThirds)))
           Hpos "B" 1%float Hss).
Defined.

(** C4 as stated fails.  Three factors with sum of squares 1 each have a
    positive total, each contribution is the float64 value of (1/3)*100, and
    in whatever order the three contributions are added, the float64 sum is
    99.999999999999986, not 100.  In a complete analysis (observations 1, 2,
    3, 5 on the 2x2 layout, with the concrete logarithm) the total is
    positive and the two contributions add up to 100.00000000000001. *)
Lemma C4_counterexample :
  ((totalFactorSS_of canonicalRange (FactorSS anovaThirds) > f0)%f64 = true /\
   forall order,
     order ≡ₚ map_to_list (computeContributions canonicalRange anovaThirds) ->
     fsum (order.*2) = 0x1.8ffffffffffffp+6%float /\ fsum (order.*2) <> f100) /\
  (exists r,
     Analyze GoMath.Log10 canonicalRange (experimentAB 1 2 3 5) = Some r /\
     (totalFactorSS_of canonicalRange (FactorSS (ANOVA r)) > f0)%f64 = true /\
     forall order,
       order ≡ₚ map_to_list (Contributions r) ->
       fsum (order.*2) = 0x1.9000000000001p+6%float /\ fsum (order.*2) <> f100).
Proof.
  split.
  - split; [vm_compute; reflexivity|].
    intros order Hperm.
    assert (Hvals : order.*2 = replicate 3 0x1.0aaaaaaaaaaaap+5%float).
    { symmetry. apply replicate_Permutation.
      rewrite Hperm. vm_compute. reflexivity. }
    rewrite Hvals. split; [vm_compute; reflexivity|].
    vm_compute. intros H.
    assert (Hb : PrimFloat.eqb 0x1.8ffffffffffffp+6 100 = true)
      by (rewrite H; reflexivity).
    vm_compute in Hb. discriminate.
  - destruct (Analyze GoMath.Log10 canonicalRange (experimentAB 1 2 3 5))
      as [r|] eqn:Hr; [|vm_compute in Hr; discriminate].
    exists r. split; [reflexivity|].
    vm_compute in Hr. injection Hr as <-.
    split; [vm_compute; reflexivity|].
    intros order Hperm.
    assert (Hvals : (map_to_list (Contributions
              {| OptimalLevels := _; SNR := _; MainEffects := _;
                 Contributions := _; ANOVA := _ |})).*2 ≡ₚ order.*2)
      by (now rewrite Hperm).
    remember (order.*2) as vals eqn:Evals. clear Evals Hperm.
    vm_compute in Hvals.
    apply Permutation_length_2_inv in Hvals as [Hv|Hv]; rewrite Hv.
    + split; [vm_compute; reflexivity|].
      vm_compute. intros H.
      assert (Hb : PrimFloat.eqb 0x1.9000000000001p+6 100 = true)
        by (rewrite H; reflexivity).
      vm_compute in Hb. discriminate.
    + split; [vm_compute; reflexivity|].
      vm_compute. intros H.
      assert (Hb : PrimFloat.eqb 0x1.9000000000001p+6 100 = true)
        by (rewrite H; reflexivity).
      vm_compute in Hb. discriminate.
Qed.

(* ===================================================================== *)
(** ** TrialGenerator *)
(* ===================================================================== *)

Lemma noiseTrialsFrom_app (id : Z) (ms1 ms2 : list (gmap string float)) :
  noiseTrialsFrom id (ms1 ++ ms2)
  = noiseTrialsFrom id ms1 ++ noiseTrialsFrom (id + len ms1) ms2.
Proof.
  revert id. induction ms1 as [|m ms1 IH]; intros id; simpl.
  - unfold len. simpl. now rewrite Z.add_0_r.
  - rewrite IH. do 3 f_equal. unfold len. simpl length. lia.
Qed.

(** The leaves below [fs] only depend on the entries of [current] that no
    factor of [fs] overwrites. *)
Lemma noiseProduct_agree (fs : list NoiseFactor) (c1 c2 : gmap string float) :
  (forall k, k ∉ map NoiseName fs -> c1 !! k = c2 !! k) ->
  noiseProduct fs c1 = noiseProduct fs c2.
Proof.
  revert c1 c2. induction fs as [|f fs IH]; intros c1 c2 H; simpl.
  - f_equal. apply map_eq. intros k. apply H. simpl. apply not_elem_of_nil.
  - f_equal. apply map_ext. intros level. apply IH. intros k Hk.
    destruct (decide (NoiseName f = k)) as [->|Hne].
    + now rewrite !lookup_insert_eq.
    + rewrite !lookup_insert_ne by assumption. apply H.
      simpl. intros Hin. apply elem_of_cons in Hin as [->|Hin]; [congruence|].
      now apply Hk.
Qed.

Lemma helper_levels (f : NoiseFactor) (rest : list NoiseFactor)
    (IH : forall st, helperSpec rest st (helper rest st))
    (levels : list float) (st : NoiseGen) :
  let step := fun st level =>
    helper rest {| ng_trials := ng_trials st; ng_id := ng_id st;
                   ng_current := <[NoiseName f := level]> (ng_current st) |} in
  let leaves :=
    concat (map (fun level => noiseProduct rest (<[NoiseName f := level]> (ng_current st)))
              levels) in
  let st' := fold_left step levels st in
  ng_trials st' = ng_trials st ++ noiseTrialsFrom (ng_id st) leaves /\
  ng_id st' = ng_id st + len leaves /\
  (forall k, k ∉ map NoiseName (f :: rest) -> ng_current st' !! k = ng_current st !! k).
Proof.
  revert st. induction levels as [|level levels IHl]; intros st; simpl.
  - rewrite app_nil_r. unfold len. simpl. rewrite Z.add_0_r. repeat split.
  - set (st0 := {| ng_trials := ng_trials st; ng_id := ng_id st;
                   ng_current := <[NoiseName f := level]> (ng_current st) |}).
    destruct (IH st0) as (Ht & Hi & Hc). simpl in Ht, Hi, Hc.
    destruct (IHl (helper rest st0)) as (Ht' & Hi' & Hc'). simpl in Ht', Hi', Hc'.
    assert (Hsame : forall l,
      noiseProduct rest (<[NoiseName f := l]> (ng_current (helper rest st0)))
      = noiseProduct rest (<[NoiseName f := l]> (ng_current st))).
    { intros l. apply noiseProduct_agree. intros k Hk.
      destruct (decide (NoiseName f = k)) as [->|Hne].
      - now rewrite !lookup_insert_eq.
      - rewrite !lookup_insert_ne by assumption. rewrite (Hc k Hk).
        now apply lookup_insert_ne. }
    rewrite (map_ext _ _ Hsame) in Ht', Hi'.
    split; [|split].
    + rewrite Ht', Ht, Hi, noiseTrialsFrom_app, <- app_assoc. reflexivity.
    + rewrite Hi', Hi. unfold len. rewrite length_app. lia.
    + intros k Hk. rewrite (Hc' k Hk).
      assert (Hkr : k ∉ map NoiseName rest).
      { intros Hin. apply Hk. simpl. apply elem_of_cons. now right. }
      rewrite (Hc k Hkr). apply lookup_insert_ne.
      intros Heq. apply Hk. simpl. apply elem_of_cons. now left.
Qed.

Lemma helper_spec (fs : list NoiseFactor) (st : NoiseGen) :
  helperSpec fs st (helper fs st).
Proof.
  revert st. induction fs as [|f rest IH]; intros st.
  - unfold helperSpec. simpl. unfold len. simpl. repeat split.
  - exact (helper_levels f rest IH (NoiseLevels f) st).
Qed.

(** The noise combinations are the nested-loop product, numbered from 1. *)
Lemma generateNoiseCombinations_spec (e : Experiment) :
  generateNoiseCombinations e
  = noiseTrialsFrom 1 (noiseProduct (NoiseFactors e) ∅).
Proof.
  unfold generateNoiseCombinations.
  destruct (helper_spec (NoiseFactors e)
              {| ng_trials := []; ng_id := 1; ng_current := ∅ |}) as (H & _).
  exact H.
Qed.

Lemma concat_lookup_blocks {A} (M : nat) (blocks : list (list A)) (i : nat) :
  Forall (fun b => length b = M) blocks -> (0 < M)%nat ->
  concat blocks !! i = blocks !! (i / M)%nat ≫= (fun b => b !! (i mod M)%nat).
Proof.
  intros Hall HM. revert i.
  induction Hall as [|b bs Hb _ IH]; intros i; simpl; [reflexivity|].
  destruct (Nat.lt_ge_cases i M) as [Hlt|Hge].
  - rewrite lookup_app_l by lia.
    rewrite Nat.div_small, Nat.mod_small by assumption. reflexivity.
  - rewrite lookup_app_r by lia. rewrite Hb, IH.
    assert (Hd : (i / M = S ((i - M) / M))%nat).
    { replace i with ((i - M) + 1 * M)%nat at 1 by lia.
      rewrite Nat.div_add by lia. lia. }
    assert (Hm : (i mod M = (i - M) mod M)%nat).
    { replace i with ((i - M) + 1 * M)%nat at 1 by lia.
      apply Nat.Div0.mod_add. }
    rewrite Hd, Hm. reflexivity.
Qed.

Lemma concat_length_blocks {A} (M : nat) (blocks : list (list A)) :
  Forall (fun b => length b = M) blocks ->
  length (concat blocks) = (length blocks * M)%nat.
Proof.
  induction 1 as [|b bs Hb _ IH]; simpl; [reflexivity|].
  rewrite length_app, Hb, IH. lia.
Qed.

Lemma noiseProduct_length (fs : list NoiseFactor) (current : gmap string float) :
  length (noiseProduct fs current) = prodLevels fs.
Proof.
  revert current. induction fs as [|f rest IH]; intros current; simpl; [reflexivity|].
  rewrite (concat_length_blocks (prodLevels rest)).
  - now rewrite length_map.
  - apply Forall_forall. intros b Hb. apply list_elem_of_fmap in Hb as (l & -> & _).
    apply IH.
Qed.

(** The combination number [c] of the nested-loop product carries, for the
    factor at position [p], the level whose index is the [p]-th mixed-radix
    digit of [c]. *)
Lemma noiseProduct_lookup (fs : list NoiseFactor) (current : gmap string float)
    (c : nat) (m : gmap string float) :
  noiseProduct fs current !! c = Some m ->
  (forall k, k ∉ map NoiseName fs -> m !! k = current !! k) /\
  (NoDup (map NoiseName fs) ->
   forall p f, fs !! p = Some f ->
     exists d level, digits fs c !! p = Some d /\
       NoiseLevels f !! d = Some level /\ m !! NoiseName f = Some level).
Proof.
  revert current c. induction fs as [|f rest IH]; intros current c H; simpl in H.
  - destruct c; simpl in H; [|discriminate]. injection H as <-.
    split; [reflexivity|]. intros _ p g Hp. discriminate.
  - assert (HM : (0 < prodLevels rest)%nat).
    { destruct (prodLevels rest) eqn:E; [|lia]. exfalso.
      apply lookup_lt_Some in H.
      rewrite (concat_length_blocks 0) in H; [lia|].
      apply Forall_forall. intros b Hb. apply list_elem_of_fmap in Hb as (l & -> & _).
      now rewrite noiseProduct_length. }
    rewrite (concat_lookup_blocks (prodLevels rest)) in H; [|
      apply Forall_forall; intros b Hb; apply list_elem_of_fmap in Hb as (l & -> & _);
      apply noiseProduct_length | assumption].
    rewrite list_lookup_fmap in H.
    destruct (NoiseLevels f !! (c / prodLevels rest)%nat) as [level|] eqn:El;
      simpl in H; [|discriminate].
    destruct (IH _ _ H) as [Hout Hdig].
    split.
    + intros k Hk. rewrite Hout.
      * apply lookup_insert_ne. intros Heq. apply Hk. simpl. apply elem_of_cons. now left.
      * intros Hin. apply Hk. simpl. apply elem_of_cons. now right.
    + intros Hnd p g Hp. simpl in Hnd. apply NoDup_cons in Hnd as [Hnotin Hnd].
      destruct p as [|p]; simpl in Hp.
      * injection Hp as <-. exists (c / prodLevels rest)%nat, level.
        split; [reflexivity|]. split; [assumption|].
        rewrite (Hout _ Hnotin). apply lookup_insert_eq.
      * destruct (Hdig Hnd p g Hp) as (d & lv & Hd & Hl & Hm).
        exists d, lv. repeat split; assumption.
Qed.

Lemma map_Noise_noiseTrialsFrom (id : Z) (ms : list (gmap string float)) :
  map Noise (noiseTrialsFrom id ms) = ms.
Proof.
  revert id. induction ms as [|m ms IH]; intros id; simpl; [reflexivity|].
  now rewrite IH.
Qed.

Lemma trialsFrom_app (id : Z) (ps1 ps2 : list (gmap string float * gmap string float)) :
  trialsFrom id (ps1 ++ ps2) = trialsFrom id ps1 ++ trialsFrom (id + len ps1) ps2.
Proof.
  revert id. induction ps1 as [|[c n] ps1 IH]; intros id; simpl.
  - unfold len. simpl. now rewrite Z.add_0_r.
  - rewrite IH. do 3 f_equal. unfold len. simpl length. lia.
Qed.

Lemma trialsFrom_lookup (id : Z) (ps : list (gmap string float * gmap string float))
    (k : nat) :
  trialsFrom id ps !! k
  = (fun '(c, n) => {| ID := id + Z.of_nat k; Control := c; Noise := n |}) <$> ps !! k.
Proof.
  revert id k. induction ps as [|[c n] ps IH]; intros id k; [reflexivity|].
  destruct k as [|k]; simpl.
  - now rewrite Z.add_0_r.
  - rewrite IH. destruct (ps !! k) as [[c' n']|]; simpl; [|reflexivity].
    do 2 f_equal. lia.
Qed.

Lemma trialsFrom_length (id : Z) (ps : list (gmap string float * gmap string float)) :
  length (trialsFrom id ps) = length ps.
Proof.
  revert id. induction ps as [|[c n] ps IH]; intros id; simpl; [reflexivity|].
  now rewrite IH.
Qed.

Lemma combine_row_spec (controlConfig : gmap string float) (noiseTrials : list Trial)
    (finalTrials : list Trial) (id : Z) :
  combine_row controlConfig noiseTrials (finalTrials, id)
  = (finalTrials ++ trialsFrom id (map (fun n => (controlConfig, n))
                                     (map Noise noiseTrials)),
     id + len noiseTrials).
Proof.
  unfold combine_row. revert finalTrials id.
  induction noiseTrials as [|nt nts IH]; intros finalTrials id; simpl.
  - rewrite app_nil_r. unfold len. simpl. now rewrite Z.add_0_r.
  - rewrite IH. rewrite <- app_assoc. simpl. f_equal. unfold len. simpl length. lia.
Qed.

Lemma combine_rows_spec (e : Experiment) (rows : list (list Z))
    (noiseTrials : list Trial) (finalTrials : list Trial) (id : Z) :
  combine_rows e rows noiseTrials (finalTrials, id)
  = controls ← mapM (getControlConfig e) rows;
    Some (finalTrials ++ trialsFrom id (rowMajor controls (map Noise noiseTrials)),
          id + len rows * len noiseTrials).
Proof.
  revert finalTrials id. induction rows as [|row rows IH]; intros finalTrials id.
  - simpl. rewrite app_nil_r. do 2 f_equal. unfold len. simpl. lia.
  - cbn [combine_rows mapM]. unfold mbind at 1 4. unfold option_bind at 1 3.
    destruct (getControlConfig e row) as [cfg|]; [|reflexivity].
    rewrite combine_row_spec, IH.
    unfold mbind, option_bind. destruct (mapM (getControlConfig e) rows) as [cfgs|];
      [|reflexivity].
    simpl. unfold rowMajor. simpl. rewrite trialsFrom_app, <- app_assoc.
    f_equal. f_equal.
    + do 2 f_equal. unfold len. rewrite !length_map. reflexivity.
    + unfold len. simpl length. lia.
Qed.

(** [GenerateTrials] is the row-major product of the rows' control
    assignments with the noise combinations, numbered from 1. *)
Lemma GenerateTrials_spec (e : Experiment) :
  GenerateTrials e
  = controls ← mapM (getControlConfig e) (OrthogonalArray e);
    Some (trialsFrom 1 (rowMajor controls (noiseProduct (NoiseFactors e) ∅))).
Proof.
  unfold GenerateTrials, combineControlAndNoise.
  rewrite combine_rows_spec, generateNoiseCombinations_spec, map_Noise_noiseTrialsFrom.
  destruct (mapM (getControlConfig e) (OrthogonalArray e)); reflexivity.
Qed.

Lemma getControlConfig_loop_valid (fs : list Factor) (j : Z) (row : list Z)
    (controlConfig : gmap string float) :
  validRowFrom fs j row = true ->
  exists cfg, getControlConfig_loop fs j row controlConfig = Some cfg.
Proof.
  revert j controlConfig. induction fs as [|f fs IH]; intros j cfg H; simpl; [eauto|].
  destruct (validRowFrom_cons _ _ _ _ H) as (v & Hv & Hr & Hrest).
  rewrite Hv. simpl. destruct (index_in_range (Levels f) v Hr) as [lv ->]. simpl.
  now apply IH.
Qed.

Lemma validArray_controls (e : Experiment) :
  validArray e = true ->
  exists controls, mapM (getControlConfig e) (OrthogonalArray e) = Some controls.
Proof.
  intros H. apply mapM_is_Some. unfold validArray in H.
  rewrite forallb_forall in H. apply Forall_forall. intros row Hrow.
  apply list_elem_of_In in Hrow.
  destruct (getControlConfig_loop_valid _ 0 row ∅ (H row Hrow)) as [cfg Hcfg].
  unfold getControlConfig. simpl. rewrite Hcfg. eauto.
Qed.

Lemma rowMajor_blocks (controls noises : list (gmap string float)) :
  Forall (fun b : list (gmap string float * gmap string float) =>
            length b = length noises)
    (map (fun c => map (fun n => (c, n)) noises) controls).
Proof.
  apply Forall_forall. intros b Hb. apply list_elem_of_fmap in Hb as (c & -> & _).
  apply length_map.
Qed.

Lemma rowMajor_length (controls noises : list (gmap string float)) :
  length (rowMajor controls noises) = (length controls * length noises)%nat.
Proof.
  unfold rowMajor. rewrite (concat_length_blocks _ _ (rowMajor_blocks _ _)).
  now rewrite length_map.
Qed.

Lemma rowMajor_lookup (controls noises : list (gmap string float)) (r c : nat)
    (cfg n : gmap string float) :
  controls !! r = Some cfg -> noises !! c = Some n ->
  rowMajor controls noises !! (r * length noises + c)%nat = Some (cfg, n).
Proof.
  intros Hr Hc. pose proof (lookup_lt_Some _ _ _ Hc) as Hlt.
  unfold rowMajor.
  rewrite (concat_lookup_blocks _ _ _ (rowMajor_blocks _ _)) by lia.
  rewrite Nat.div_add_l, Nat.div_small, Nat.add_0_r by lia.
  rewrite Nat.add_comm, Nat.Div0.mod_add, Nat.mod_small by lia.
  rewrite list_lookup_fmap, Hr. simpl. rewrite list_lookup_fmap, Hc. reflexivity.
Qed.

(** C5: on an array that satisfies the data-model invariant [GenerateTrials]
    returns; whenever it returns, the list has (rows) x (product of the
    noise level counts) trials, the trial at position [k] has ID [k+1], and
    the trial at position [r*N + c] carries the control assignment of row [r]
    and the noise combination [c], whose level for the noise factor at
    position [p] is given by the [p]-th mixed-radix digit of [c] (first
    factor most significant, last factor least significant). *)
Theorem C5_generate_trials (e : Experiment) :
  (validArray e = true -> exists trials, GenerateTrials e = Some trials) /\
  forall trials, GenerateTrials e = Some trials ->
    let N := prodLevels (NoiseFactors e) in
    length trials = (length (OrthogonalArray e) * N)%nat /\
    (forall (k : nat) t, trials !! k = Some t -> ID t = Z.of_nat k + 1) /\
    (forall (r c : nat) row,
       OrthogonalArray e !! r = Some row -> (c < N)%nat ->
       exists t, trials !! (r * N + c)%nat = Some t /\
         getControlConfig e row = Some (Control t) /\
         (NoDup (map NoiseName (NoiseFactors e)) ->
          forall (p : nat) f, NoiseFactors e !! p = Some f ->
            exists d level,
              digits (NoiseFactors e) c !! p = Some d /\
              NoiseLevels f !! d = Some level /\
              Noise t !! NoiseName f = Some level)).
Proof.
  split.
  - intros Hv. rewrite GenerateTrials_spec.
    destruct (validArray_controls e Hv) as [controls ->]. simpl. eauto.
  - intros trials H N. rewrite GenerateTrials_spec in H.
    destruct (mapM (getControlConfig e) (OrthogonalArray e)) as [controls|] eqn:Hm;
      simpl in H; [|discriminate].
    injection H as <-.
    pose proof (length_mapM _ _ _ Hm) as Hlen.
    apply mapM_Some in Hm.
    pose proof (noiseProduct_length (NoiseFactors e) ∅) as HN. fold N in HN.
    split; [|split].
    + rewrite trialsFrom_length, rowMajor_length, HN. lia.
    + intros k t Hk. rewrite trialsFrom_lookup in Hk.
      destruct (rowMajor controls _ !! k) as [[c n]|]; simpl in Hk; [|discriminate].
      injection Hk as <-. simpl. lia.
    + intros r c row Hrow Hc.
      destruct (Forall2_lookup_l _ _ _ _ _ Hm Hrow) as (cfg & Hcfg & Hget).
      destruct (lookup_lt_is_Some_2 (noiseProduct (NoiseFactors e) ∅) c) as [n Hn];
        [lia|].
      pose proof (rowMajor_lookup _ _ _ _ _ _ Hcfg Hn) as Hrm. rewrite HN in Hrm.
      exists {| ID := 1 + Z.of_nat (r * N + c); Control := cfg; Noise := n |}.
      split; [|split].
      * rewrite trialsFrom_lookup, Hrm. reflexivity.
      * exact Hget.
      * intros Hnd p f Hp. simpl.
        exact (proj2 (noiseProduct_lookup _ _ _ _ Hn) Hnd p f Hp).
Qed.

Lemma experimentNoise_names_NoDup :
  NoDup (map NoiseName (NoiseFactors experimentNoise)).
Proof. apply (bool_decide_unpack _). vm_compute. exact I. Qed.

(** The theorem applied to three rows crossed with noise factors N (two
    levels) and M (three levels): 18 trials; the one at position 1*6 + 4 has
    ID 11, the control assignment of the second row, the second level of N
    and the second level of M. *)
Lemma C5_witness :
  validArray experimentNoise = true /\
  exists trials,
    GenerateTrials experimentNoise = Some trials /\
    length trials = 18%nat /\
    exists t,
      trials !! 10%nat = Some t /\
      ID t = 11 /\
      getControlConfig experimentNoise [2] = Some (Control t) /\
      Noise t !! "N" = Some 1%float /\
      Noise t !! "M" = Some 20%float.
Proof.
  split; [reflexivity|].
  destruct (C5_generate_trials experimentNoise) as [Htotal Hspec].
  destruct (Htotal eq_refl) as [trials Htrials].
  destruct (Hspec trials Htrials) as (Hlen & Hid & Hrc).
  exists trials. split; [exact Htrials|]. split; [exact Hlen|].
  assert (Hc : (4 < prodLevels (NoiseFactors experimentNoise))%nat)
    by (simpl; lia).
  destruct (Hrc 1%nat 4%nat [2] eq_refl Hc) as (t & Hlk & Hcfg & Hnoise).
  exists t. split; [exact Hlk|]. split; [exact (Hid _ _ Hlk)|].
  split; [exact Hcfg|]. split.
  - destruct (Hnoise experimentNoise_names_NoDup 0%nat noiseN eq_refl)
      as (d & level & Hd & Hl & Hm).
    simpl in Hd. injection Hd as <-. simpl in Hl. injection Hl as <-. exact Hm.
  - destruct (Hnoise experimentNoise_names_NoDup 1%nat noiseM eq_refl)
      as (d & level & Hd & Hl & Hm).
    simpl in Hd. injection Hd as <-. simpl in Hl. injection Hl as <-. exact Hm.
Defined.

(* ===================================================================== *)
(** ** Construction and run-time faults *)
(* ===================================================================== *)

Lemma levelIdx_loop_valid (fs : list Factor) (j : Z) (name : string) (row : list Z) :
  validRowFrom fs j row = true ->
  exists levelIdx, levelIdx_loop fs j name row = Some levelIdx.
Proof.
  revert j. induction fs as [|f fs IH]; intros j H; simpl; [eauto|].
  destruct (validRowFrom_cons _ _ _ _ H) as (v & Hv & Hr & Hrest).
  destruct (String.eqb (Name f) name).
  - rewrite Hv. simpl. eauto.
  - now apply IH.
Qed.

Lemma index_lt {A} (l : list A) (i : Z) :
  0 <= i < len l -> exists x, index l i = Some x.
Proof.
  intros H. unfold index. destruct (i <? 0) eqn:E; [apply Z.ltb_lt in E; lia|].
  apply lookup_lt_is_Some_2. unfold len in H. lia.
Qed.

Lemma accumulateRows_total (e : Experiment) (factor : Factor)
    (rows : list (list Z)) (i : Z) (oaSNR levelMeans : list float)
    (levelCounts : list Z) :
  forallb (validRowFrom (ControlFactors e) 0) rows = true ->
  0 <= i -> i + len rows <= len oaSNR ->
  exists res, accumulateRows e factor rows i oaSNR levelMeans levelCounts = Some res.
Proof.
  revert i levelMeans levelCounts.
  induction rows as [|row rows IH]; intros i levelMeans levelCounts Hv Hi Hlen;
    simpl; [eauto|].
  simpl in Hv. apply andb_prop in Hv as [Hrow Hrows].
  assert (Hlen' : i + 1 + len rows <= len oaSNR)
    by (unfold len in *; simpl length in Hlen; lia).
  destruct (levelIdx_loop_valid _ 0 (Name factor) row Hrow) as [levelIdx ->]. simpl.
  destruct ((0 <=? levelIdx) && (levelIdx <? len (Levels factor))).
  - destruct (index_lt oaSNR i) as [sn ->];
      [unfold len in *; simpl length in Hlen; lia|].
    simpl. apply IH; [assumption|lia|assumption].
  - apply IH; [assumption|lia|assumption].
Qed.

Lemma factorLoop_total (e : Experiment) (oaSNR : list float) (grandMean : float)
    (fs : list Factor) (t : FactorTables) :
  validArray e = true ->
  len oaSNR = len (OrthogonalArray e) ->
  exists t', factorLoop e oaSNR grandMean fs t = Some t'.
Proof.
  intros Hv Hlen. revert t. induction fs as [|f fs IH]; intros t; simpl; [eauto|].
  unfold factorStats.
  destruct (accumulateRows_total e f (OrthogonalArray e) 0 oaSNR
              (replicate (length (Levels f)) f0) (replicate (length (Levels f)) 0)
              Hv) as [[means counts] ->]; [lia|lia|].
  simpl. apply IH.
Qed.

Lemma computeANOVA_total (rng : MapRange) (e : Experiment) (oaSNR : list float)
    (grandMean : float) :
  validArray e = true ->
  len oaSNR = len (OrthogonalArray e) ->
  exists res, computeANOVA rng e oaSNR grandMean = Some res.
Proof.
  intros Hv Hlen. unfold computeANOVA.
  destruct (factorLoop_total e oaSNR grandMean (ControlFactors e)
              {| ft_SS := ∅; ft_DF := ∅; ft_mainEffects := ∅; ft_snrPerFactor := ∅ |}
              Hv Hlen) as [t ->].
  simpl. destruct (factorMSF rng (ft_SS t) (ft_DF t) _). eauto.
Qed.

Lemma validRowFrom_levels (fs : list Factor) (j : Z) (row : list Z) (f : Factor) :
  validRowFrom fs j row = true -> f ∈ fs -> 0 < len (Levels f).
Proof.
  revert j. induction fs as [|g fs IH]; intros j Hrow Hf.
  - inversion Hf.
  - destruct (validRowFrom_cons _ _ _ _ Hrow) as (v & _ & Hr & Hrest).
    apply elem_of_cons in Hf as [->|Hf]; [lia|]. eapply IH; eassumption.
Qed.

(** On a valid, non-empty array every control factor has a level. *)
Lemma validArray_levels (e : Experiment) (f : Factor) :
  validArray e = true -> OrthogonalArray e <> [] -> f ∈ ControlFactors e ->
  0 < len (Levels f).
Proof.
  unfold validArray. destruct (OrthogonalArray e) as [|row rows]; [congruence|].
  simpl. intros Hv _ Hf. apply andb_prop in Hv as [Hrow _].
  eapply validRowFrom_levels; eassumption.
Qed.

Lemma mainEffects_shape (rng : MapRange) (e : Experiment) (oaSNR : list float)
    (grandMean : float) (a : ANOVAResult)
    (mainEffects snrPerFactor : gmap string (list float)) :
  NoDup (map Name (ControlFactors e)) ->
  computeANOVA rng e oaSNR grandMean = Some (a, mainEffects, snrPerFactor) ->
  forall f, f ∈ ControlFactors e ->
    exists levels, mainEffects !! Name f = Some levels /\
      len levels = len (Levels f).
Proof.
  intros Hnd. unfold computeANOVA.
  destruct (factorLoop e oaSNR grandMean (ControlFactors e) _) as [t|] eqn:Ht;
    simpl; [|discriminate].
  destruct (factorMSF rng (ft_SS t) (ft_DF t) _) as [factorMS factorF].
  intros H. injection H as _ <- _. intros f Hf.
  destruct (factorLoop_entries _ _ _ _ _ _ Ht Hnd f Hf)
    as (means & ss & Hstats & _ & _ & Hme & _).
  exists means. split; [assumption|].
  now destruct (factorStats_shape _ _ _ _ _ _ _ Hstats).
Qed.

Lemma analysis_tail_total (rng : MapRange) (e : Experiment) (oaSNR : list float)
    (grandMean : float) :
  validArray e = true -> OrthogonalArray e <> [] ->
  NoDup (map Name (ControlFactors e)) ->
  len oaSNR = len (OrthogonalArray e) ->
  exists a mainEffects snrPerFactor optimalLevels,
    computeANOVA rng e oaSNR grandMean = Some (a, mainEffects, snrPerFactor) /\
    findOptimalLevels e mainEffects = Some optimalLevels.
Proof.
  intros Hv Hne Hnd Hlen.
  destruct (computeANOVA_total rng e oaSNR grandMean Hv Hlen) as [[[a me] snr] Ha].
  exists a, me, snr.
  destruct (findOptimalLevels_loop_total (ControlFactors e) me ∅) as [opt Hopt].
  { intros f Hf.
    destruct (mainEffects_shape _ _ _ _ _ _ _ Hnd Ha f Hf) as (levels & Hm & Hl).
    exists levels. split; [assumption|].
    pose proof (validArray_levels e f Hv Hne Hf). lia. }
  exists opt. split; [assumption|exact Hopt].
Qed.

Lemma Analyze_total (log10 : float -> float) (rng : MapRange) (e : Experiment) :
  validArray e = true -> OrthogonalArray e <> [] ->
  NoDup (map Name (ControlFactors e)) ->
  exists r, Analyze log10 rng e = Some r.
Proof.
  intros Hv Hne Hnd. unfold Analyze.
  rewrite (computeOASNR_pooled log10 e Hv). simpl.
  destruct (analysis_tail_total rng e (map (pooledRowSNR log10 e) (OrthogonalArray e))
              (fmean (map (pooledRowSNR log10 e) (OrthogonalArray e))) Hv Hne Hnd)
    as (a & me & snr & opt & Ha & Hopt); [apply len_map|].
  rewrite Ha. simpl. rewrite Hopt. simpl. eauto.
Qed.

Lemma legacy_oaSNR_loop_total (log10 : float -> float) (e : Experiment)
    (rows : list (list Z)) (oaSNR : list float) (grandMean : float) :
  forallb (validRowFrom (ControlFactors e) 0) rows = true ->
  exists oaSNR' grandMean',
    Legacy.oaSNR_loop log10 e rows oaSNR grandMean = Some (oaSNR', grandMean') /\
    len oaSNR' = len oaSNR + len rows.
Proof.
  revert oaSNR grandMean.
  induction rows as [|row rows IH]; intros oaSNR grandMean Hv; simpl.
  - exists oaSNR, grandMean. split; [reflexivity|]. unfold len. simpl. lia.
  - simpl in Hv. apply andb_prop in Hv as [Hrow Hrows].
    destruct (validRowFrom_rowLevels _ _ _ Hrow) as [lvs Hl].
    unfold Legacy.rowSNR.
    rewrite (legacy_sumSNR_average log10 e row lvs (Results e) f0 0 Hl). simpl.
    match goal with
    | |- context [Legacy.oaSNR_loop _ _ _ ?o' ?g'] =>
        destruct (IH o' g' Hrows) as (o & g & -> & Hlen)
    end.
    exists o, g. split; [reflexivity|].
    rewrite Hlen. unfold len. rewrite length_app. simpl length. lia.
Qed.

Lemma Legacy_Analyze_total (log10 : float -> float) (rng : MapRange)
    (e : Experiment) :
  validArray e = true -> OrthogonalArray e <> [] ->
  NoDup (map Name (ControlFactors e)) ->
  exists r, Legacy.Analyze log10 rng e = Some r.
Proof.
  intros Hv Hne Hnd. unfold Legacy.Analyze, Legacy.oaSNR_of.
  destruct (legacy_oaSNR_loop_total log10 e (OrthogonalArray e) [] f0 Hv)
    as (oaSNR & gm & -> & Hlen).
  simpl.
  destruct (analysis_tail_total rng e oaSNR
              (gm / float64_of_int (len (OrthogonalArray e)))%f64 Hv Hne Hnd)
    as (a & me & snr & opt & Ha & Hopt); [unfold len in *; simpl in Hlen; lia|].
  rewrite Ha. simpl. rewrite Hopt. simpl. eauto.
Qed.

Lemma AddResult_sameConfig (e : Experiment) (trial : Trial) (obs : list float) :
  sameConfig e (AddResult e trial obs).
Proof. repeat split. Qed.

Lemma validArray_neverFaults (e : Experiment) :
  validArray e = true -> OrthogonalArray e <> [] ->
  NoDup (map Name (ControlFactors e)) ->
  neverFaults e.
Proof.
  intros Hv Hne Hnd. split.
  - rewrite GenerateTrials_spec; destruct (validArray_controls e Hv) as [controls ->]; simpl; eauto.
  - intros log10 rng e' (Hcf & _ & _ & _ & Hoa & _).
    assert (Hv' : validArray e' = true) by (unfold validArray; now rewrite <- Hcf, <- Hoa).
    assert (Hne' : OrthogonalArray e' <> []) by (now rewrite <- Hoa).
    assert (Hnd' : NoDup (map Name (ControlFactors e'))) by (now rewrite <- Hcf).
    split; [now apply Analyze_total|now apply Legacy_Analyze_total].
Qed.

(** C7 as the code has it: construction fails exactly when the factors
    cannot be read, the array is empty, or its first row has fewer columns
    than there are control factors; the entries are not inspected.  A
    constructed experiment whose array does satisfy the invariant of the
    data model (every row has a column per factor, every entry within
    [1, level count]) and whose factor names are unique never faults in
    trial generation or analysis. *)
Theorem C7_construction_and_faults {F : Type}
    (factorsFrom : F -> ConstructionError + list Factor)
    (goal : OptimizationGoal) (factors : F) (orthogonalArray : list (list Z))
    (noiseFactors : list NoiseFactor) :
  let result :=
    NewExperimentUsingArray factorsFrom goal factors orthogonalArray noiseFactors in
  (forall err, factorsFrom factors = inl err -> result = inl err) /\
  (forall controlFactors, factorsFrom factors = inr controlFactors ->
     (orthogonalArray = [] -> result = inl ArrayEmpty) /\
     (forall row0 rest, orthogonalArray = row0 :: rest ->
        len controlFactors > len row0 ->
        result = inl (CannotAccommodate (len controlFactors))) /\
     (forall row0 rest, orthogonalArray = row0 :: rest ->
        len controlFactors <= len row0 ->
        result = inr (constructed goal controlFactors orthogonalArray noiseFactors) /\
        NewExperimentFromFactorsUsingArray goal controlFactors orthogonalArray
          noiseFactors = result /\
        (validArray (constructed goal controlFactors orthogonalArray noiseFactors)
           = true ->
         NoDup (map Name controlFactors) ->
         neverFaults (constructed goal controlFactors orthogonalArray noiseFactors)))).
Proof.
  intros result. unfold result, NewExperimentUsingArray. split.
  - intros err ->. reflexivity.
  - intros cfs ->. unfold NewExperimentFromFactorsUsingArray. split; [|split].
    + intros ->. reflexivity.
    + intros row0 rest -> Hgt.
      destruct (len cfs >? len row0) eqn:E; [reflexivity|].
      rewrite Z.gtb_ltb in E. apply Z.ltb_ge in E. lia.
    + intros row0 rest -> Hle.
      destruct (len cfs >? len row0) eqn:E.
      { rewrite Z.gtb_ltb in E. apply Z.ltb_lt in E. lia. }
      split; [reflexivity|]. split; [reflexivity|].
      intros Hv Hnd. apply validArray_neverFaults; [assumption|discriminate|assumption].
Qed.

(** The theorem applied to the test layout (factor A, array [[1], [2]]). *)
Lemma C7_witness :
  factorsFromList [factorA] = inr [factorA] /\
  len [factorA] <= len [1] /\
  validArray (constructed SmallerTheBetter [factorA] [[1]; [2]] [noiseN]) = true /\
  NoDup (map Name [factorA]) /\
  NewExperimentUsingArray factorsFromList SmallerTheBetter [factorA] [[1]; [2]]
    [noiseN]
  = inr (constructed SmallerTheBetter [factorA] [[1]; [2]] [noiseN]) /\
  neverFaults (constructed SmallerTheBetter [factorA] [[1]; [2]] [noiseN]).
Proof.
  assert (Hle : len [factorA] <= len [1]) by (unfold len; simpl; lia).
  assert (Hnd : NoDup (map Name [factorA]))
    by (apply (bool_decide_unpack _); vm_compute; exact I).
  split; [reflexivity|]. split; [exact Hle|]. split; [reflexivity|].
  split; [exact Hnd|].
  destruct (proj2 (C7_construction_and_faults factorsFromList SmallerTheBetter
                     [factorA] [[1]; [2]] [noiseN]) [factorA] eq_refl)
    as (_ & _ & Hok).
  destruct (Hok [1] [[2]] eq_refl Hle) as (Hres & _ & Hnf).
  split; [exact Hres|]. exact (Hnf eq_refl Hnd).
Defined.

(** C7 as stated fails: the array [[3]] for a factor with two levels passes
    construction (by either constructor); trial generation then faults, and
    so does the analysis as soon as a result is recorded.  The same holds
    for the entry 0. *)
Lemma C7_counterexample :
  let e := constructed SmallerTheBetter [factorA] [[3]] [noiseN] in
  NewExperimentUsingArray factorsFromList SmallerTheBetter [factorA] [[3]] [noiseN]
    = inr e /\
  NewExperimentFromFactorsUsingArray SmallerTheBetter [factorA] [[3]] [noiseN]
    = inr e /\
  validArray e = false /\
  GenerateTrials e = None /\
  (forall log10 rng, Analyze log10 rng (AddResult e (trialA 1 1 0) pool_2_4) = None) /\
  (forall log10 rng,
     Legacy.Analyze log10 rng (AddResult e (trialA 1 1 0) pool_2_4) = None) /\
  (exists e0,
     NewExperimentFromFactorsUsingArray SmallerTheBetter [factorA] [[0]] [noiseN]
       = inr e0 /\
     GenerateTrials e0 = None).
Proof.
  repeat split; try reflexivity.
  eexists. split; reflexivity.
Qed.

(* ===================================================================== *)
(** ** End-to-end scenarios of the repository's tests *)
(* ===================================================================== *)

(** Smaller-the-Better: the main effects of A are -10*log10(30) and 0, and
    the second level is optimal. *)
Lemma scenario_smaller_the_better :
  exists r,
    Analyze GoMath.Log10 canonicalRange (experimentA SmallerTheBetter f0 logA)
    = Some r /\
    SNR r !! "A" = Some [ (fm10 * GoMath.Log10 30)%f64; f0 ] /\
    OptimalLevels r !! "A" = Some 2%float.
Proof.
  destruct (Analyze GoMath.Log10 canonicalRange (experimentA SmallerTheBetter f0 logA))
    as [r|] eqn:Hr; [|vm_compute in Hr; discriminate].
  exists r. split; [reflexivity|].
  vm_compute in Hr. injection Hr as <-. split; vm_compute; reflexivity.
Qed.

(** Nominal-the-Best with target 5: the first level has -10*log10(2.5), the
    second, all on target, has +infinity and is optimal. *)
Lemma scenario_nominal_the_best :
  exists r,
    Analyze GoMath.Log10 canonicalRange
      (experimentA NominalTheBest 5%float logA_nominal) = Some r /\
    SNR r !! "A" = Some [ (fm10 * GoMath.Log10 2.5)%f64; Inf_pos ] /\
    OptimalLevels r !! "A" = Some 2%float.
Proof.
  destruct (Analyze GoMath.Log10 canonicalRange
              (experimentA NominalTheBest 5%float logA_nominal))
    as [r|] eqn:Hr; [|vm_compute in Hr; discriminate].
  exists r. split; [reflexivity|].
  vm_compute in Hr. injection Hr as <-. split; vm_compute; reflexivity.
Qed.

(* ===================================================================== *)
(** ** Further properties: control assignments *)
(* ===================================================================== *)

Lemma index_Some_range {A} (l : list A) (i : Z) (x : A) :
  index l i = Some x -> 0 <= i < len l.
Proof.
  unfold index. destruct (i <? 0) eqn:E; [discriminate|].
  apply Z.ltb_ge in E. intros H. apply lookup_lt_Some in H. unfold len. lia.
Qed.

Lemma getControlConfig_loop_Some_valid (fs : list Factor) (j : Z) (row : list Z)
    (cfg0 cfg : gmap string float) :
  getControlConfig_loop fs j row cfg0 = Some cfg -> validRowFrom fs j row = true.
Proof.
  revert j cfg0. induction fs as [|f fs IH]; intros j cfg0 H; simpl in *; [reflexivity|].
  destruct (index row j) as [v|]; simpl in H; [|discriminate].
  destruct (index (Levels f) (v - 1)) as [lv|] eqn:El; simpl in H; [|discriminate].
  apply index_Some_range in El. rewrite (IH _ _ H).
  rewrite andb_true_r. apply andb_true_intro. split.
  - apply Z.leb_le. lia.
  - apply Z.leb_le. lia.
Qed.

Lemma getControlConfig_valid_iff (e : Experiment) (row : list Z) :
  is_Some (getControlConfig e row) <-> validRowFrom (ControlFactors e) 0 row = true.
Proof.
  unfold getControlConfig. split.
  - intros [cfg H]. eapply getControlConfig_loop_Some_valid; eassumption.
  - intros H. destruct (getControlConfig_loop_valid _ 0 row ∅ H) as [cfg ->]. eauto.
Qed.

(** X1: [GenerateTrials] returns exactly on the arrays in which every row
    has a column for every control factor and every entry lies within
    [1, level count]; on any other array it faults, also when there is no
    noise combination to cross the rows with. *)
Theorem X1_generate_trials_returns_iff_valid (e : Experiment) :
  is_Some (GenerateTrials e) <-> validArray e = true.
Proof.
  rewrite GenerateTrials_spec. split.
  - intros [trials H].
    destruct (mapM (getControlConfig e) (OrthogonalArray e)) as [controls|] eqn:Hm;
      simpl in H; [|discriminate].
    apply mk_is_Some, mapM_is_Some in Hm. unfold validArray.
    apply forallb_forall. intros row Hrow.
    rewrite Forall_forall in Hm. apply getControlConfig_valid_iff.
    apply (Hm row). now apply list_elem_of_In.
  - intros Hv. destruct (validArray_controls e Hv) as [controls ->]. simpl. eauto.
Qed.

Lemma getControlConfig_loop_other (fs : list Factor) (j : Z) (row : list Z)
    (cfg0 cfg : gmap string float) (k : string) :
  getControlConfig_loop fs j row cfg0 = Some cfg ->
  k ∉ map Name fs -> cfg !! k = cfg0 !! k.
Proof.
  revert j cfg0. induction fs as [|f fs IH]; intros j cfg0 H Hk; simpl in H.
  - now injection H as <-.
  - destruct (index row j) as [v|]; simpl in H; [|discriminate].
    destruct (index (Levels f) (v - 1)) as [lv|]; simpl in H; [|discriminate].
    rewrite (IH _ _ H) by (intros Hin; apply Hk; simpl; apply elem_of_cons; now right).
    apply lookup_insert_ne. intros Heq. apply Hk. subst k. simpl.
    apply elem_of_cons. now left.
Qed.

Lemma getControlConfig_loop_levels (fs : list Factor) (j : Z) (row : list Z)
    (cfg0 cfg : gmap string float) :
  getControlConfig_loop fs j row cfg0 = Some cfg ->
  NoDup (map Name fs) ->
  exists lvs, rowLevels fs j row = Some lvs /\
    Forall2 (fun f lv => cfg !! Name f = Some lv) fs lvs.
Proof.
  revert j cfg0. induction fs as [|f fs IH]; intros j cfg0 H Hnd; simpl in *.
  - exists []. split; [reflexivity|constructor].
  - destruct (index row j) as [v|]; simpl in *; [|discriminate].
    destruct (index (Levels f) (v - 1)) as [lv|]; simpl in *; [|discriminate].
    apply NoDup_cons in Hnd as [Hnotin Hnd].
    destruct (IH _ _ H Hnd) as (lvs & -> & Hall). simpl.
    exists (lv :: lvs). split; [reflexivity|]. constructor; [|assumption].
    rewrite (getControlConfig_loop_other _ _ _ _ _ _ H Hnotin).
    apply lookup_insert_eq.
Qed.

(** X2: with unique factor names, the control assignment of a row maps every
    control factor's name to the level the row's entry selects (entry [v]
    selects the [v]-th declared level) and has no other keys. *)
Theorem X2_control_config_content (e : Experiment) (row : list Z)
    (cfg : gmap string float) :
  getControlConfig e row = Some cfg ->
  NoDup (map Name (ControlFactors e)) ->
  (forall (j : nat) f, ControlFactors e !! j = Some f ->
     exists v lv, row !! j = Some v /\ 1 <= v <= len (Levels f) /\
       Levels f !! Z.to_nat (v - 1) = Some lv /\ cfg !! Name f = Some lv) /\
  (forall k, cfg !! k <> None -> k ∈ map Name (ControlFactors e)).
Proof.
  unfold getControlConfig. intros H Hnd. split.
  - assert (Hgen : forall fs (j0 : Z) cfg0,
        0 <= j0 ->
        getControlConfig_loop fs j0 row cfg0 = Some cfg -> NoDup (map Name fs) ->
        forall (j : nat) f, fs !! j = Some f ->
          exists v lv, row !! (Z.to_nat j0 + j)%nat = Some v /\
            1 <= v <= len (Levels f) /\
            Levels f !! Z.to_nat (v - 1) = Some lv /\ cfg !! Name f = Some lv).
    { clear H Hnd. induction fs as [|g fs IH]; intros j0 cfg0 Hj0 H Hnd j f Hj;
        [discriminate|].
      simpl in H, Hnd.
      destruct (index row j0) as [v|] eqn:Ev; simpl in H; [|discriminate].
      destruct (index (Levels g) (v - 1)) as [lv|] eqn:El; simpl in H; [|discriminate].
      apply NoDup_cons in Hnd as [Hnotin Hnd].
      destruct j as [|j]; simpl in Hj.
      - injection Hj as <-. exists v, lv.
        pose proof (index_Some_range _ _ _ El) as Hr.
        unfold index in Ev, El.
        destruct (j0 <? 0); [discriminate|]. destruct (v - 1 <? 0); [discriminate|].
        rewrite Nat.add_0_r. repeat split; try assumption; try lia.
        rewrite (getControlConfig_loop_other _ _ _ _ _ _ H Hnotin).
        apply lookup_insert_eq.
      - destruct (IH (j0 + 1) _ ltac:(lia) H Hnd j f Hj) as (v' & lv' & Hr & Hrest).
        exists v', lv'. split; [|exact Hrest].
        replace (Z.to_nat j0 + S j)%nat with (Z.to_nat (j0 + 1) + j)%nat by lia.
        exact Hr. }
    intros j f Hj. exact (Hgen _ 0 ∅ ltac:(lia) H Hnd j f Hj).
  - intros k Hk. destruct (decide (k ∈ map Name (ControlFactors e))) as [Hin|Hnotin];
      [assumption|].
    exfalso. apply Hk.
    rewrite (getControlConfig_loop_other _ _ _ _ _ _ H Hnotin). apply lookup_empty.
Qed.

Lemma agreesWith_levelsEqual (fs : list Factor) (lvs lvs' : list float)
    (r : TrialResult) :
  Forall2 (fun f lv => Control (ResultTrial r) !! Name f = Some lv) fs lvs ->
  agreesWith fs lvs' r = levelsEqual lvs lvs'.
Proof.
  intros H. revert lvs'. induction H as [|f lv fs lvs Hf _ IH]; intros lvs'.
  - reflexivity.
  - destruct lvs' as [|lv' lvs']; [reflexivity|]. simpl.
    unfold mapGet. rewrite Hf. simpl. now rewrite IH.
Qed.

Lemma levelsEqual_refl (lvs : list float) :
  Forall (fun lv => isNaN lv = false) lvs -> levelsEqual lvs lvs = true.
Proof.
  induction 1 as [|lv lvs Hlv _ IH]; simpl; [reflexivity|].
  rewrite IH. unfold isNaN in Hlv. apply negb_false_iff in Hlv. now rewrite Hlv.
Qed.

Lemma rowLevels_declared (fs : list Factor) (j : Z) (row : list Z)
    (lvs : list float) :
  rowLevels fs j row = Some lvs -> Forall2 (fun f lv => lv ∈ Levels f) fs lvs.
Proof.
  revert j lvs. induction fs as [|f fs IH]; intros j lvs H; simpl in H.
  - injection H as <-. constructor.
  - destruct (index row j) as [v|]; simpl in H; [|discriminate].
    destruct (index (Levels f) (v - 1)) as [lv|] eqn:El; simpl in H; [|discriminate].
    destruct (rowLevels fs (j + 1) row) as [lvs'|] eqn:E; simpl in H; [|discriminate].
    injection H as <-. constructor; [|eapply IH; eassumption].
    unfold index in El. destruct (v - 1 <? 0); [discriminate|].
    eapply list_elem_of_lookup_2; eassumption.
Qed.

Lemma GenerateTrials_control (e : Experiment) (trials : list Trial) (t : Trial) :
  GenerateTrials e = Some trials -> t ∈ trials ->
  exists row, row ∈ OrthogonalArray e /\ getControlConfig e row = Some (Control t).
Proof.
  rewrite GenerateTrials_spec. intros H Ht.
  destruct (mapM (getControlConfig e) (OrthogonalArray e)) as [controls|] eqn:Hm;
    simpl in H; [|discriminate].
  injection H as <-. apply mapM_Some in Hm.
  apply list_elem_of_lookup in Ht as [k Hk]. rewrite trialsFrom_lookup in Hk.
  destruct (rowMajor controls _ !! k) as [[c n]|] eqn:Hp; simpl in Hk; [|discriminate].
  injection Hk as <-. simpl.
  apply list_elem_of_lookup_2 in Hp. unfold rowMajor in Hp.
  apply list_elem_of_In, in_concat in Hp as (block & Hblock & Hin).
  apply list_elem_of_In, list_elem_of_fmap in Hblock as (c' & -> & Hc').
  apply list_elem_of_In, list_elem_of_fmap in Hin as (n' & Heq & _).
  injection Heq as -> ->.
  apply list_elem_of_lookup in Hc' as [r Hr].
  destruct (Forall2_lookup_r _ _ _ _ _ Hm Hr) as (row & Hrow & Hget).
  exists row. split; [eapply list_elem_of_lookup_2; eassumption|exact Hget].
Qed.

(** X3: with unique factor names and no NaN among the declared levels, a
    result recorded against a generated trial is matched by the analysis to
    the row the trial was generated from; it is matched to another (valid)
    row exactly when that row selects levels that compare equal, factor by
    factor. *)
Theorem X3_generated_trial_matches_its_row (e : Experiment) (trials : list Trial)
    (t : Trial) (obs : list float) :
  GenerateTrials e = Some trials -> t ∈ trials ->
  NoDup (map Name (ControlFactors e)) ->
  (forall f lv, f ∈ ControlFactors e -> lv ∈ Levels f -> isNaN lv = false) ->
  exists row lvs,
    row ∈ OrthogonalArray e /\
    getControlConfig e row = Some (Control t) /\
    rowLevels (ControlFactors e) 0 row = Some lvs /\
    rowMatches (ControlFactors e) 0 row (resultOf t obs) = Some true /\
    forall row' lvs', rowLevels (ControlFactors e) 0 row' = Some lvs' ->
      rowMatches (ControlFactors e) 0 row' (resultOf t obs)
      = Some (levelsEqual lvs lvs').
Proof.
  intros Hgen Ht Hnd Hnan.
  destruct (GenerateTrials_control e trials t Hgen Ht) as (row & Hrow & Hcfg).
  pose proof Hcfg as Hcfg'. unfold getControlConfig in Hcfg'.
  destruct (getControlConfig_loop_levels _ _ _ _ _ Hcfg' Hnd) as (lvs & Hl & Hall).
  exists row, lvs. split; [assumption|]. split; [assumption|]. split; [assumption|].
  assert (Hmatch : forall row' lvs', rowLevels (ControlFactors e) 0 row' = Some lvs' ->
            rowMatches (ControlFactors e) 0 row' (resultOf t obs)
            = Some (levelsEqual lvs lvs')).
  { intros row' lvs' Hl'. rewrite (rowLevels_rowMatches _ _ _ _ _ Hl').
    f_equal. now apply agreesWith_levelsEqual. }
  split; [|exact Hmatch].
  rewrite (Hmatch row lvs Hl). f_equal. apply levelsEqual_refl.
  pose proof (rowLevels_declared _ _ _ _ Hl) as Hdecl.
  clear -Hdecl Hnan. revert Hnan.
  induction Hdecl as [|f lv fs lvs Hin _ IH]; intros Hnan; constructor.
  - apply (Hnan f lv); [apply elem_of_cons; now left|assumption].
  - apply IH. intros g lv' Hg. apply Hnan. apply elem_of_cons. now right.
Qed.

(* ===================================================================== *)
(** ** Further properties: the tables of an analysis *)
(* ===================================================================== *)

Lemma factorLoop_same_tables (e : Experiment) (oaSNR : list float)
    (grandMean : float) (fs : list Factor) (t t' : FactorTables) :
  factorLoop e oaSNR grandMean fs t = Some t' ->
  ft_mainEffects t = ft_snrPerFactor t ->
  ft_mainEffects t' = ft_snrPerFactor t'.
Proof.
  revert t. induction fs as [|f fs IH]; intros t H Heq; simpl in H.
  - now injection H as <-.
  - destruct (factorStats e oaSNR grandMean f) as [[[means ss] dfs]|];
      simpl in H; [|discriminate].
    apply (IH _ H). simpl. now rewrite Heq.
Qed.

Lemma computeANOVA_same_tables (rng : MapRange) (e : Experiment)
    (oaSNR : list float) (grandMean : float) (a : ANOVAResult)
    (mainEffects snrPerFactor : gmap string (list float)) :
  computeANOVA rng e oaSNR grandMean = Some (a, mainEffects, snrPerFactor) ->
  snrPerFactor = mainEffects.
Proof.
  unfold computeANOVA.
  destruct (factorLoop e oaSNR grandMean (ControlFactors e) _) as [t|] eqn:Ht;
    simpl; [|discriminate].
  destruct (factorMSF rng (ft_SS t) (ft_DF t) _) as [factorMS factorF].
  intros H. injection H as _ <- <-. symmetry.
  exact (factorLoop_same_tables _ _ _ _ _ _ Ht eq_refl).
Qed.

(** X4: in every analysis result (of either [Analyze]) the [SNR] table is
    the [MainEffects] table. *)
Theorem X4_snr_table_is_main_effects (log10 : float -> float) (rng : MapRange)
    (e : Experiment) (r : AnalysisResult) :
  Analyze log10 rng e = Some r \/ Legacy.Analyze log10 rng e = Some r ->
  SNR r = MainEffects r.
Proof.
  intros [H|H].
  - destruct (Analyze_stages _ _ _ _ H) as (oaSNR & gm & _ & Ha & _).
    exact (computeANOVA_same_tables _ _ _ _ _ _ _ Ha).
  - destruct (Legacy_Analyze_stages _ _ _ _ H) as (oaSNR & gm & _ & Ha & _).
    exact (computeANOVA_same_tables _ _ _ _ _ _ _ Ha).
Qed.

Lemma fold_pair_fst {V W1 W2} (g1 : string -> V -> W1) (g2 : string -> V -> W2)
    (l : list (string * V)) (m1 : gmap string W1) (m2 : gmap string W2) :
  fold_left (fun '(a, b) '(f, v) => (<[f := g1 f v]> a, <[f := g2 f v]> b)) l (m1, m2)
  = (fold_left (fun a '(f, v) => <[f := g1 f v]> a) l m1,
     fold_left (fun b '(f, v) => <[f := g2 f v]> b) l m2).
Proof.
  revert m1 m2. induction l as [|[f v] l IH]; intros m1 m2; [reflexivity|].
  cbn [fold_left]. apply IH.
Qed.

Lemma factorMSF_lookup (rng : MapRange) (factorSS : gmap string float)
    (factorDF : gmap string Z) (errorMS : float) (f : string) :
  (factorMSF rng factorSS factorDF errorMS).1 !! f
  = (fun ss => (ss / float64_of_int (default 0 (factorDF !! f)))%f64) <$> factorSS !! f /\
  (factorMSF rng factorSS factorDF errorMS).2 !! f
  = (fun ss => (ss / float64_of_int (default 0 (factorDF !! f)) / errorMS)%f64)
      <$> factorSS !! f.
Proof.
  unfold factorMSF.
  rewrite (fold_pair_fst
             (fun f ss => (ss / float64_of_int (default 0 (factorDF !! f)))%f64)
             (fun f ss => (ss / float64_of_int (default 0 (factorDF !! f)) / errorMS)%f64)).
  simpl. split.
  - apply (range_lookup rng 2%nat
             (fun f ss => (ss / float64_of_int (default 0 (factorDF !! f)))%f64)).
  - apply (range_lookup rng 2%nat
             (fun f ss => (ss / float64_of_int (default 0 (factorDF !! f)) / errorMS)%f64)).
Qed.

Lemma computeANOVA_meanSquares (rng : MapRange) (e : Experiment)
    (oaSNR : list float) (grandMean : float) (a : ANOVAResult)
    (mainEffects snrPerFactor : gmap string (list float)) :
  computeANOVA rng e oaSNR grandMean = Some (a, mainEffects, snrPerFactor) ->
  meanSquaresOf a.
Proof.
  unfold computeANOVA.
  destruct (factorLoop e oaSNR grandMean (ControlFactors e) _) as [t|] eqn:Ht;
    simpl; [|discriminate].
  destruct (factorMSF rng (ft_SS t) (ft_DF t) _) as [factorMS factorF] eqn:E.
  intros H. injection H as <- _ _. intros f. simpl.
  pose proof (factorMSF_lookup rng (ft_SS t) (ft_DF t)
                (errorSS_of rng (totalSS_of oaSNR grandMean) (ft_SS t)
                 / float64_of_int (errorDF_of rng (len (OrthogonalArray e)) (ft_DF t)))%f64
                f) as Hl.
  rewrite E in Hl. exact Hl.
Qed.

(** X5: in every analysis result (of either [Analyze]) and for every order
    in which the maps are visited, a factor's mean square is its sum of
    squares divided by its degrees of freedom and its F-ratio is that mean
    square divided by the error mean square; the division is float64
    division and is not guarded (a one-level factor divides by 0). *)
Theorem X5_mean_squares_and_f_ratios (log10 : float -> float) (rng : MapRange)
    (e : Experiment) (r : AnalysisResult) :
  Analyze log10 rng e = Some r \/ Legacy.Analyze log10 rng e = Some r ->
  meanSquaresOf (ANOVA r).
Proof.
  intros [H|H].
  - destruct (Analyze_stages _ _ _ _ H) as (oaSNR & gm & _ & Ha & _).
    exact (computeANOVA_meanSquares _ _ _ _ _ _ _ Ha).
  - destruct (Legacy_Analyze_stages _ _ _ _ H) as (oaSNR & gm & _ & Ha & _).
    exact (computeANOVA_meanSquares _ _ _ _ _ _ _ Ha).
Qed.

Lemma factorLoop_keys (e : Experiment) (oaSNR : list float) (grandMean : float)
    (fs : list Factor) (t t' : FactorTables) (k : string) :
  factorLoop e oaSNR grandMean fs t = Some t' ->
  (is_Some (ft_SS t' !! k) <-> is_Some (ft_SS t !! k) \/ k ∈ map Name fs) /\
  (is_Some (ft_DF t' !! k) <-> is_Some (ft_DF t !! k) \/ k ∈ map Name fs) /\
  (is_Some (ft_mainEffects t' !! k)
   <-> is_Some (ft_mainEffects t !! k) \/ k ∈ map Name fs).
Proof.
  revert t. induction fs as [|f fs IH]; intros t H; simpl in H.
  - injection H as <-. simpl.
    repeat split; intros; try tauto;
      match goal with H : _ \/ _ ∈ [] |- _ => destruct H as [?|H]; [assumption|inversion H] end.
  - destruct (factorStats e oaSNR grandMean f) as [[[means ss] dfs]|];
      simpl in H; [|discriminate].
    destruct (IH _ H) as (H1 & H2 & H3). simpl in H1, H2, H3.
    rewrite H1, H2, H3. simpl. rewrite !elem_of_cons.
    destruct (decide (Name f = k)) as [->|Hne].
    + rewrite !lookup_insert_eq. repeat split; intros; eauto.
    + rewrite !lookup_insert_ne by assumption.
      repeat split; intros; try tauto; intuition congruence.
Qed.

Lemma findOptimalLevels_loop_keys (fs : list Factor)
    (mainEffects : gmap string (list float)) (opt0 opt : gmap string float)
    (k : string) :
  findOptimalLevels_loop fs mainEffects opt0 = Some opt ->
  (is_Some (opt !! k) <-> is_Some (opt0 !! k) \/ k ∈ map Name fs).
Proof.
  revert opt0. induction fs as [|f fs IH]; intros opt0 H; simpl in H.
  - injection H as <-. split; [tauto|]. intros [?|Hin]; [assumption|inversion Hin].
  - destruct (bestLevelOf (default [] (mainEffects !! Name f))) as [b|]; [|discriminate].
    simpl in H. destruct (index (Levels f) b) as [lv|]; [|discriminate]. simpl in H.
    rewrite (IH _ H). simpl. rewrite elem_of_cons.
    destruct (decide (Name f = k)) as [->|Hne].
    + rewrite lookup_insert_eq. split; intros; eauto.
    + rewrite lookup_insert_ne by assumption. split; intros; intuition congruence.
Qed.

Lemma computeContributions_lookup (rng : MapRange) (a : ANOVAResult) (f : string) :
  computeContributions rng a !! f
  = (fun ss => if (totalFactorSS_of rng (FactorSS a) > f0)%f64
               then (ss / totalFactorSS_of rng (FactorSS a) * f100)%f64 else f0)
      <$> FactorSS a !! f.
Proof.
  unfold computeContributions.
  destruct (totalFactorSS_of rng (FactorSS a) > f0)%f64.
  - apply (range_lookup rng 4%nat
             (fun _ ss => (ss / totalFactorSS_of rng (FactorSS a) * f100)%f64)).
  - apply (range_lookup rng 5%nat (fun _ _ => f0)).
Qed.

Lemma analysis_result_keys (rng : MapRange) (e : Experiment) (oaSNR : list float)
    (grandMean : float) (r : AnalysisResult) :
  computeANOVA rng e oaSNR grandMean = Some (ANOVA r, MainEffects r, SNR r) ->
  findOptimalLevels e (MainEffects r) = Some (OptimalLevels r) ->
  Contributions r = computeContributions rng (ANOVA r) ->
  resultKeysAre (map Name (ControlFactors e)) r.
Proof.
  intros Ha Hopt Hc.
  pose proof (computeANOVA_same_tables _ _ _ _ _ _ _ Ha) as Hsnr.
  pose proof (computeANOVA_meanSquares _ _ _ _ _ _ _ Ha) as Hms.
  assert (Hkeys : keysAre (map Name (ControlFactors e)) (FactorSS (ANOVA r)) /\
                  keysAre (map Name (ControlFactors e)) (FactorDF (ANOVA r)) /\
                  keysAre (map Name (ControlFactors e)) (MainEffects r)).
  { revert Ha. unfold computeANOVA.
    destruct (factorLoop e oaSNR grandMean (ControlFactors e) _) as [t|] eqn:Ht;
      simpl; [|discriminate].
    destruct (factorMSF rng (ft_SS t) (ft_DF t) _) as [factorMS factorF].
    intros H. injection H as Heq1 Heq2 _. rewrite <- Heq1, <- Heq2. simpl.
    repeat split; intros Hk.
    all: destruct (factorLoop_keys _ _ _ _ _ _ k Ht) as (H1 & H2 & H3);
      simpl in H1, H2, H3; rewrite ?lookup_empty in *.
    all: first [ apply H1 in Hk | apply H2 in Hk | apply H3 in Hk
               | apply H1 | apply H2 | apply H3 ].
    all: try (destruct Hk as [[x Hx]|Hk]; [discriminate|assumption]).
    all: now right. }
  destruct Hkeys as (Hss & Hdf & Hme).
  assert (Hfmap : forall {V W} (g : V -> W) (o : option V),
            is_Some (g <$> o) <-> is_Some o).
  { intros V W g o. destruct o; simpl; split; intros [x Hx]; eauto; discriminate. }
  unfold resultKeysAre. split; [|split; [|split; [|split; [|split; [|split; [|split]]]]]].
  - intros k. unfold findOptimalLevels in Hopt.
    rewrite (findOptimalLevels_loop_keys _ _ _ _ k Hopt), lookup_empty.
    split; [intros [[x Hx]|Hk]; [discriminate|assumption]|now right].
  - rewrite Hsnr. exact Hme.
  - exact Hme.
  - intros k. rewrite Hc, computeContributions_lookup, Hfmap. apply Hss.
  - exact Hss.
  - exact Hdf.
  - intros k. rewrite (proj1 (Hms k)), Hfmap. apply Hss.
  - intros k. rewrite (proj2 (Hms k)), Hfmap. apply Hss.
Qed.

(** X6: every map of an analysis result (optimal levels, SNR, main effects,
    contributions and the four ANOVA tables) has exactly the names of the
    declared control factors as keys, for either [Analyze], every order of
    map iteration, and also when two factors share a name. *)
Theorem X6_result_keys_are_factor_names (log10 : float -> float) (rng : MapRange)
    (e : Experiment) (r : AnalysisResult) :
  Analyze log10 rng e = Some r \/ Legacy.Analyze log10 rng e = Some r ->
  resultKeysAre (map Name (ControlFactors e)) r.
Proof.
  intros [H|H].
  - destruct (Analyze_stages _ _ _ _ H) as (oaSNR & gm & _ & Ha & Hopt & Hc).
    eapply analysis_result_keys; eassumption.
  - destruct (Legacy_Analyze_stages _ _ _ _ H) as (oaSNR & gm & _ & Ha & Hopt & Hc).
    eapply analysis_result_keys; eassumption.
Qed.

Lemma levelIdx_loop_at (fs : list Factor) (j0 : Z) (row : list Z) (j : nat)
    (f : Factor) :
  NoDup (map Name fs) -> fs !! j = Some f ->
  levelIdx_loop fs j0 (Name f) row
  = (oaij ← index row (j0 + Z.of_nat j); Some (oaij - 1)).
Proof.
  revert j0 j. induction fs as [|g fs IH]; intros j0 j Hnd Hj; [discriminate|].
  simpl in Hnd. apply NoDup_cons in Hnd as [Hnotin Hnd].
  destruct j as [|j]; simpl in Hj.
  - injection Hj as <-. simpl. rewrite String.eqb_refl, Z.add_0_r. reflexivity.
  - simpl. destruct (String.eqb (Name g) (Name f)) eqn:E.
    + apply String.eqb_eq in E. exfalso. apply Hnotin. rewrite E.
      apply list_elem_of_fmap. exists f. split; [reflexivity|].
      eapply list_elem_of_lookup_2; eassumption.
    + rewrite (IH (j0 + 1) j Hnd Hj). do 2 f_equal. lia.
Qed.

Lemma accumulateRows_levels (e : Experiment) (f : Factor) (j : nat)
    (rows : list (list Z)) (i : nat) (oaSNR levelMeans : list float)
    (levelCounts : list Z) (levelMeans' : list float) (levelCounts' : list Z) :
  NoDup (map Name (ControlFactors e)) -> ControlFactors e !! j = Some f ->
  (i + length rows = length oaSNR)%nat ->
  accumulateRows e f rows (Z.of_nat i) oaSNR levelMeans levelCounts
  = Some (levelMeans', levelCounts') ->
  forall (li : nat), (li < length (Levels f))%nat ->
    levelMeans' !! li
    = (fun m => fold_left (fun acc x => (acc + x)%f64)
                  (valuesAtLevel rows (drop i oaSNR) j li) m) <$> levelMeans !! li /\
    levelCounts' !! li
    = (fun c => c + len (valuesAtLevel rows (drop i oaSNR) j li)) <$> levelCounts !! li.
Proof.
  intros Hnd Hj. revert i levelMeans levelCounts.
  induction rows as [|row rows IH]; intros i levelMeans levelCounts Hlen H li Hli.
  - simpl in H. injection H as <- <-. simpl. unfold len. simpl.
    destruct (levelMeans !! li), (levelCounts !! li); simpl; split;
      try reflexivity; f_equal; lia.
  - simpl in H, Hlen.
    rewrite (levelIdx_loop_at _ 0 row j f Hnd Hj) in H.
    change (0 + Z.of_nat j) with (Z.of_nat j) in H.
    destruct (index row (Z.of_nat j)) as [v|] eqn:Ev; [|discriminate].
    cbn [mbind option_bind] in H.
    assert (Hrow : row !! j = Some v).
    { unfold index in Ev. destruct (Z.of_nat j <? 0); [discriminate|].
      now rewrite Nat2Z.id in Ev. }
    destruct (drop i oaSNR) as [|sn rest] eqn:Hdrop.
    { apply (f_equal length) in Hdrop. rewrite length_drop in Hdrop. simpl in Hdrop. lia. }
    assert (Hsn : index oaSNR (Z.of_nat i) = Some sn).
    { unfold index. destruct (Z.of_nat i <? 0) eqn:E; [apply Z.ltb_lt in E; lia|].
      rewrite Nat2Z.id. pose proof (lookup_drop oaSNR i 0) as Hd.
      rewrite Hdrop, Nat.add_0_r in Hd. now symmetry. }
    assert (Hrest : drop (S i) oaSNR = rest).
    { replace (S i) with (i + 1)%nat by lia. rewrite <- drop_drop, Hdrop. reflexivity. }
    replace (Z.of_nat i + 1) with (Z.of_nat (S i)) in H by lia.
    cbn [valuesAtLevel]. rewrite Hrow.
    destruct ((0 <=? v - 1) && (v - 1 <? len (Levels f))) eqn:Hin.
    + rewrite Hsn in H. simpl in H.
      destruct (IH (S i) _ _ ltac:(lia) H li Hli) as [Hm Hc]. rewrite Hrest in Hm, Hc.
      apply andb_prop in Hin as [Hlo Hhi]. apply Z.leb_le in Hlo.
      destruct (decide (v = Z.of_nat li + 1)) as [->|Hne].
      * rewrite bool_decide_eq_true_2 by reflexivity.
        replace (Z.to_nat (Z.of_nat li + 1 - 1)) with li in Hm, Hc by lia.
        rewrite list_lookup_alter_eq in Hm. rewrite list_lookup_alter_eq in Hc.
        rewrite Hm, Hc.
        destruct (levelMeans !! li), (levelCounts !! li); simpl; split;
          try reflexivity.
        all: f_equal; unfold len; simpl length; lia.
      * rewrite bool_decide_eq_false_2 by congruence.
        rewrite list_lookup_alter_ne in Hm by lia.
        rewrite list_lookup_alter_ne in Hc by lia. split; assumption.
    + destruct (IH (S i) _ _ ltac:(lia) H li Hli) as [Hm Hc]. rewrite Hrest in Hm, Hc.
      rewrite bool_decide_eq_false_2; [split; assumption|].
      intros Heq. injection Heq as ->.
      apply andb_false_iff in Hin as [Hin|Hin].
      * apply Z.leb_gt in Hin. lia.
      * apply Z.ltb_ge in Hin. unfold len in Hin. lia.
Qed.

Lemma factorStats_levelMeans (e : Experiment) (oaSNR : list float)
    (grandMean : float) (f : Factor) (j : nat) (levelMeans : list float)
    (ss : float) (dfs : Z) :
  factorStats e oaSNR grandMean f = Some (levelMeans, ss, dfs) ->
  NoDup (map Name (ControlFactors e)) -> ControlFactors e !! j = Some f ->
  length oaSNR = length (OrthogonalArray e) ->
  forall (li : nat), (li < length (Levels f))%nat ->
    levelMeans !! li = Some (levelMean (valuesAtLevel (OrthogonalArray e) oaSNR j li)).
Proof.
  unfold factorStats. intros H Hnd Hj Hlen li Hli.
  destruct (accumulateRows e f (OrthogonalArray e) 0 oaSNR
              (replicate (length (Levels f)) f0) (replicate (length (Levels f)) 0))
    as [[means counts]|] eqn:E; simpl in H; [|discriminate].
  injection H as <- _ _.
  destruct (accumulateRows_levels e f j (OrthogonalArray e) 0 oaSNR _ _ _ _
              Hnd Hj ltac:(simpl; lia) E li Hli) as [Hm Hc].
  rewrite drop_0 in Hm, Hc.
  rewrite (lookup_replicate_2 _ _ _ Hli) in Hm.
  rewrite (lookup_replicate_2 _ _ _ Hli) in Hc. simpl in Hm, Hc.
  rewrite lookup_zip_with, Hm. simpl. rewrite Hc. simpl.
  unfold levelMean, fsum. reflexivity.
Qed.

Lemma levelIdx_loop_wide (fs : list Factor) (j : Z) (name : string) (row : list Z) :
  0 <= j -> j + len fs <= len row ->
  exists levelIdx, levelIdx_loop fs j name row = Some levelIdx.
Proof.
  revert j. induction fs as [|f fs IH]; intros j Hj Hlen; simpl; [eauto|].
  unfold len in Hlen. simpl length in Hlen.
  destruct (String.eqb (Name f) name).
  - destruct (index_lt row j) as [v ->]; [unfold len; lia|]. simpl. eauto.
  - apply IH; [lia|unfold len; lia].
Qed.

Lemma accumulateRows_wide (e : Experiment) (factor : Factor)
    (rows : list (list Z)) (i : Z) (oaSNR levelMeans : list float)
    (levelCounts : list Z) :
  (forall row, row ∈ rows -> (length (ControlFactors e) <= length row)%nat) ->
  0 <= i -> i + len rows <= len oaSNR ->
  exists res, accumulateRows e factor rows i oaSNR levelMeans levelCounts = Some res.
Proof.
  revert i levelMeans levelCounts.
  induction rows as [|row rows IH]; intros i levelMeans levelCounts Hw Hi Hlen;
    simpl; [eauto|].
  assert (Hlen' : i + 1 + len rows <= len oaSNR)
    by (unfold len in *; simpl length in Hlen; lia).
  assert (Hw' : forall r, r ∈ rows ->
            (length (ControlFactors e) <= length r)%nat)
    by (intros r Hr; apply Hw; apply elem_of_cons; now right).
  assert (Hrow : (length (ControlFactors e) <= length row)%nat)
    by (apply Hw; apply elem_of_cons; now left).
  destruct (levelIdx_loop_wide (ControlFactors e) 0 (Name factor) row)
    as [levelIdx ->]; [lia|unfold len; lia|].
  simpl. destruct ((0 <=? levelIdx) && (levelIdx <? len (Levels factor))).
  - destruct (index_lt oaSNR i) as [sn ->];
      [unfold len in *; simpl length in Hlen; lia|].
    simpl. apply IH; [assumption|lia|assumption].
  - apply IH; [assumption|lia|assumption].
Qed.

Lemma factorLoop_wide (e : Experiment) (oaSNR : list float) (grandMean : float)
    (fs : list Factor) (t : FactorTables) :
  (forall row, row ∈ OrthogonalArray e ->
     (length (ControlFactors e) <= length row)%nat) ->
  len oaSNR = len (OrthogonalArray e) ->
  exists t', factorLoop e oaSNR grandMean fs t = Some t'.
Proof.
  intros Hw Hlen. revert t. induction fs as [|f fs IH]; intros t; simpl; [eauto|].
  unfold factorStats.
  destruct (accumulateRows_wide e f (OrthogonalArray e) 0 oaSNR
              (replicate (length (Levels f)) f0) (replicate (length (Levels f)) 0)
              Hw) as [[means counts] ->]; [lia|lia|].
  simpl. apply IH.
Qed.

Lemma accumulateRows_Some_rows (e : Experiment) (factor : Factor)
    (rows : list (list Z)) (i : Z) (oaSNR levelMeans : list float)
    (levelCounts : list Z) (res : list float * list Z) :
  accumulateRows e factor rows i oaSNR levelMeans levelCounts = Some res ->
  forall row, row ∈ rows ->
    is_Some (levelIdx_loop (ControlFactors e) 0 (Name factor) row).
Proof.
  revert i levelMeans levelCounts.
  induction rows as [|r rows IH]; intros i levelMeans levelCounts H row Hrow;
    [inversion Hrow|].
  cbn [accumulateRows] in H.
  destruct (levelIdx_loop (ControlFactors e) 0 (Name factor) r) as [idx|] eqn:E;
    [|discriminate].
  apply elem_of_cons in Hrow as [->|Hrow]; [rewrite E; eauto|].
  cbn [mbind option_bind] in H.
  destruct ((0 <=? idx) && (idx <? len (Levels factor))).
  - destruct (index oaSNR i) as [sn|]; [|discriminate].
    cbn [mbind option_bind] in H. eapply IH; eassumption.
  - eapply IH; eassumption.
Qed.

Lemma factorLoop_Some_wide (e : Experiment) (oaSNR : list float)
    (grandMean : float) (t t' : FactorTables) :
  NoDup (map Name (ControlFactors e)) ->
  factorLoop e oaSNR grandMean (ControlFactors e) t = Some t' ->
  forall row, row ∈ OrthogonalArray e ->
    (length (ControlFactors e) <= length row)%nat.
Proof.
  intros Hnd Ht row Hrow.
  destruct (Nat.eq_dec (length (ControlFactors e)) 0%nat) as [Hz|Hnz]; [lia|].
  destruct (lookup_lt_is_Some_2 (ControlFactors e) (length (ControlFactors e) - 1))
    as [f Hj]; [lia|].
  destruct (factorLoop_entries _ _ _ _ _ _ Ht Hnd f (list_elem_of_lookup_2 _ _ _ Hj))
    as (means & ss & Hstats & _).
  unfold factorStats in Hstats.
  destruct (accumulateRows e f (OrthogonalArray e) 0 oaSNR
              (replicate (length (Levels f)) f0) (replicate (length (Levels f)) 0))
    as [res|] eqn:E; [|discriminate].
  destruct (accumulateRows_Some_rows _ _ _ _ _ _ _ _ E row Hrow) as [idx Hidx].
  rewrite (levelIdx_loop_at _ 0 row _ f Hnd Hj) in Hidx.
  destruct (index row (0 + Z.of_nat (length (ControlFactors e) - 1))) as [v|] eqn:Ev;
    [|discriminate].
  apply index_Some_range in Ev. unfold len in Ev. lia.
Qed.

(** X7: with unique factor names and one row value per array row,
    [computeANOVA] returns exactly when every array row has a column for
    every control factor, whatever the entries are: a row whose entry is
    outside [1, level count] is skipped for that factor without fault.  The
    main effect it stores for level [li] of the factor in column [j] is the
    float64 mean (summed in row order) of the row values of exactly the rows
    whose entry in column [j] is [li + 1], and 0 for a level that no row
    uses. *)
Theorem X7_main_effects_are_level_means (rng : MapRange) (e : Experiment)
    (oaSNR : list float) (grandMean : float) :
  NoDup (map Name (ControlFactors e)) ->
  length oaSNR = length (OrthogonalArray e) ->
  (is_Some (computeANOVA rng e oaSNR grandMean)
   <-> forall row, row ∈ OrthogonalArray e ->
         (length (ControlFactors e) <= length row)%nat) /\
  forall a mainEffects snrPerFactor,
    computeANOVA rng e oaSNR grandMean = Some (a, mainEffects, snrPerFactor) ->
    forall (j : nat) f, ControlFactors e !! j = Some f ->
      exists levelMeans,
        mainEffects !! Name f = Some levelMeans /\
        length levelMeans = length (Levels f) /\
        forall (li : nat), (li < length (Levels f))%nat ->
          levelMeans !! li
          = Some (levelMean (valuesAtLevel (OrthogonalArray e) oaSNR j li)).
Proof.
  intros Hnd Hlen. split; [split|].
  - intros [res Hres]. revert Hres. unfold computeANOVA.
    destruct (factorLoop e oaSNR grandMean (ControlFactors e) _) as [t|] eqn:Ht;
      simpl; [|discriminate].
    intros _. exact (factorLoop_Some_wide _ _ _ _ _ Hnd Ht).
  - intros Hw. unfold computeANOVA.
    destruct (factorLoop_wide e oaSNR grandMean (ControlFactors e)
                {| ft_SS := ∅; ft_DF := ∅; ft_mainEffects := ∅; ft_snrPerFactor := ∅ |}
                Hw) as [t ->]; [unfold len; now rewrite Hlen|].
    simpl. destruct (factorMSF rng (ft_SS t) (ft_DF t) _). eauto.
  - intros a mainEffects snrPerFactor Ha j f Hj. revert Ha. unfold computeANOVA.
    destruct (factorLoop e oaSNR grandMean (ControlFactors e) _) as [t|] eqn:Ht;
      simpl; [|discriminate].
    destruct (factorMSF rng (ft_SS t) (ft_DF t) _) as [factorMS factorF].
    intros H. injection H as _ <- _.
    destruct (factorLoop_entries _ _ _ _ _ _ Ht Hnd f
                (list_elem_of_lookup_2 _ _ _ Hj))
      as (means & ss & Hstats & _ & _ & Hme & _).
    exists means. split; [assumption|]. split.
    + destruct (factorStats_shape _ _ _ _ _ _ _ Hstats) as [_ Hl].
      unfold len in Hl. lia.
    + eapply factorStats_levelMeans; eassumption.
Qed.

(* ===================================================================== *)
(** ** Further properties: what the analysis reads *)
(* ===================================================================== *)

Lemma computeOASNR_loop_ext (log10 : float -> float) (e1 e2 : Experiment)
    (rows : list (list Z)) (oaSNR : list float) (grandMean : float) :
  analysisConfig e1 e2 -> Results e1 = Results e2 ->
  computeOASNR_loop log10 e1 rows oaSNR grandMean
  = computeOASNR_loop log10 e2 rows oaSNR grandMean.
Proof.
  intros (Hcf & Hg & Ht & _) Hr. revert oaSNR grandMean.
  induction rows as [|row rows IH]; intros oaSNR grandMean; simpl; [reflexivity|].
  assert (Hrow : rowSNR log10 e1 row = rowSNR log10 e2 row).
  { unfold rowSNR, CalculateSNR.
    rewrite (collectObs_log e1 e2 row (Results e1) (Results e2) [] Hcf)
      by (rewrite Hr; apply Forall2_same_length_lookup_2; [reflexivity|];
          intros i x y Hx Hy; rewrite Hx in Hy; injection Hy as <-; split; reflexivity).
    destruct (collectObs e2 row (Results e2) []) as [allObs|]; simpl; [|reflexivity].
    now rewrite (calculateSNR_config log10 e1 e2 allObs Hg Ht). }
  rewrite Hrow. destruct (rowSNR log10 e2 row) as [s|]; simpl; [apply IH|reflexivity].
Qed.

Lemma legacy_sumSNR_ext (log10 : float -> float) (e1 e2 : Experiment)
    (row : list Z) (rs : list TrialResult) (sum : float) (count : Z) :
  analysisConfig e1 e2 ->
  Legacy.sumSNR log10 e1 row rs sum count = Legacy.sumSNR log10 e2 row rs sum count.
Proof.
  intros (Hcf & Hg & Ht & _). revert sum count.
  induction rs as [|r rs IH]; intros sum count; simpl; [reflexivity|].
  rewrite Hcf. destruct (rowMatches (ControlFactors e2) 0 row r) as [[|]|]; simpl;
    [|apply IH|reflexivity].
  rewrite (calculateSNR_config log10 e1 e2 _ Hg Ht). apply IH.
Qed.

Lemma legacy_oaSNR_loop_ext (log10 : float -> float) (e1 e2 : Experiment)
    (rows : list (list Z)) (oaSNR : list float) (grandMean : float) :
  analysisConfig e1 e2 -> Results e1 = Results e2 ->
  Legacy.oaSNR_loop log10 e1 rows oaSNR grandMean
  = Legacy.oaSNR_loop log10 e2 rows oaSNR grandMean.
Proof.
  intros Hc Hr. revert oaSNR grandMean.
  induction rows as [|row rows IH]; intros oaSNR grandMean; simpl; [reflexivity|].
  unfold Legacy.rowSNR. rewrite Hr, (legacy_sumSNR_ext log10 e1 e2 row _ _ _ Hc).
  destruct (Legacy.sumSNR log10 e2 row (Results e2) f0 0) as [[sum count]|]; simpl;
    [apply IH|reflexivity].
Qed.

(** X8: the analysis (either [Analyze]) reads the control factors, the goal,
    the target, the array and the log, and nothing else: replacing the noise
    factors and the pooling threshold of an experiment leaves the result
    unchanged; no pooling of factors takes place. *)
Theorem X8_noise_and_threshold_are_not_read (log10 : float -> float)
    (rng : MapRange) (e : Experiment) (noiseFactors : list NoiseFactor)
    (poolingThreshold : float) :
  Analyze log10 rng (withNoiseAndThreshold e noiseFactors poolingThreshold)
  = Analyze log10 rng e /\
  Legacy.Analyze log10 rng (withNoiseAndThreshold e noiseFactors poolingThreshold)
  = Legacy.Analyze log10 rng e /\
  forall r, Analyze log10 rng e = Some r \/ Legacy.Analyze log10 rng e = Some r ->
    PooledFactors (ANOVA r) = [].
Proof.
  set (e' := withNoiseAndThreshold e noiseFactors poolingThreshold).
  assert (Hc : analysisConfig e' e) by (repeat split).
  assert (Hr : Results e' = Results e) by reflexivity.
  split; [|split].
  - unfold Analyze, computeOASNR.
    rewrite (computeOASNR_loop_ext log10 e' e _ [] f0 Hc Hr).
    change (OrthogonalArray e') with (OrthogonalArray e).
    destruct (computeOASNR_loop log10 e (OrthogonalArray e) [] f0)
      as [[oaSNR gm]|]; simpl; [|reflexivity].
    rewrite (computeANOVA_config rng e' e _ _ eq_refl eq_refl).
    destruct (computeANOVA rng e _ _) as [[[a me] snr]|]; simpl; [|reflexivity].
    now rewrite (findOptimalLevels_config e' e me eq_refl).
  - unfold Legacy.Analyze, Legacy.oaSNR_of.
    rewrite (legacy_oaSNR_loop_ext log10 e' e _ [] f0 Hc Hr).
    change (OrthogonalArray e') with (OrthogonalArray e).
    destruct (Legacy.oaSNR_loop log10 e (OrthogonalArray e) [] f0)
      as [[oaSNR gm]|]; simpl; [|reflexivity].
    rewrite (computeANOVA_config rng e' e _ _ eq_refl eq_refl).
    destruct (computeANOVA rng e _ _) as [[[a me] snr]|]; simpl; [|reflexivity].
    now rewrite (findOptimalLevels_config e' e me eq_refl).
  - assert (Hp : forall oaSNR gm a me snr,
              computeANOVA rng e oaSNR gm = Some (a, me, snr) -> PooledFactors a = []).
    { intros oaSNR gm a me snr. unfold computeANOVA.
      destruct (factorLoop e oaSNR gm (ControlFactors e) _) as [t|]; simpl;
        [|discriminate].
      destruct (factorMSF rng (ft_SS t) (ft_DF t) _) as [factorMS factorF].
      intros H. now injection H as <- _ _. }
    intros r [H|H].
    + destruct (Analyze_stages _ _ _ _ H) as (oaSNR & gm & _ & Ha & _).
      exact (Hp _ _ _ _ _ Ha).
    + destruct (Legacy_Analyze_stages _ _ _ _ H) as (oaSNR & gm & _ & Ha & _).
      exact (Hp _ _ _ _ _ Ha).
Qed.

Lemma Analyze_by_pools (log10 : float -> float) (rng : MapRange)
    (e1 e2 : Experiment) :
  analysisConfig e1 e2 -> validArray e1 = true ->
  (forall lvs, pooledObservations e1 lvs = pooledObservations e2 lvs) ->
  Analyze log10 rng e1 = Analyze log10 rng e2.
Proof.
  intros (Hcf & Hg & Ht & Hoa) Hv Hpool.
  assert (Hv2 : validArray e2 = true) by (unfold validArray; now rewrite <- Hcf, <- Hoa).
  unfold Analyze.
  rewrite (computeOASNR_pooled log10 e1 Hv), (computeOASNR_pooled log10 e2 Hv2).
  assert (Hrow : forall row, pooledRowSNR log10 e1 row = pooledRowSNR log10 e2 row).
  { intros row. unfold pooledRowSNR, CalculateSNR. rewrite Hcf.
    destruct (rowLevels (ControlFactors e2) 0 row) as [lvs|]; [|reflexivity].
    rewrite Hpool. now rewrite (calculateSNR_config log10 e1 e2 _ Hg Ht). }
  rewrite Hoa, (map_ext _ _ Hrow). simpl.
  rewrite (computeANOVA_config rng e1 e2 _ _ Hcf Hoa).
  destruct (computeANOVA rng e2 _ _) as [[[a me] snr]|]; simpl; [|reflexivity].
  now rewrite (findOptimalLevels_config e1 e2 me Hcf).
Qed.

Lemma pooledObservations_AddResult (e : Experiment) (trial : Trial)
    (obs lvs : list float) :
  pooledObservations (AddResult e trial obs) lvs
  = pooledObservations e lvs
    ++ (if agreesWith (ControlFactors e) lvs (resultOf trial obs) then obs else []).
Proof.
  unfold pooledObservations. simpl. rewrite List.filter_app, map_app, concat_app. simpl.
  f_equal. unfold resultOf.
  destruct (agreesWith (ControlFactors e) lvs _); simpl; [apply app_nil_r|reflexivity].
Qed.

Lemma agreesWith_control (fs : list Factor) (lvs : list float) (r1 r2 : TrialResult) :
  Control (ResultTrial r1) = Control (ResultTrial r2) ->
  agreesWith fs lvs r1 = agreesWith fs lvs r2.
Proof.
  intros H. revert lvs. induction fs as [|f fs IH]; intros [|lv lvs]; simpl;
    try reflexivity.
  now rewrite H, IH.
Qed.

(** X9: on a valid array, recording a trial without observations leaves the
    result of [Analyze] unchanged. *)
Theorem X9_empty_result_is_ignored (log10 : float -> float) (rng : MapRange)
    (e : Experiment) (trial : Trial) :
  validArray e = true ->
  Analyze log10 rng (AddResult e trial []) = Analyze log10 rng e.
Proof.
  intros Hv. symmetry. apply Analyze_by_pools; [repeat split|assumption|].
  intros lvs. rewrite pooledObservations_AddResult.
  destruct (agreesWith _ _ _); now rewrite app_nil_r.
Qed.

(** X10: on a valid array, recording the observations of one control
    assignment in two results (under any trial identifiers and noise
    assignments) gives the same result of [Analyze] as recording their
    concatenation in one. *)
Theorem X10_split_results_pool (log10 : float -> float) (rng : MapRange)
    (e : Experiment) (trial1 trial2 : Trial) (obs1 obs2 : list float) :
  validArray e = true ->
  Control trial1 = Control trial2 ->
  Analyze log10 rng (AddResult (AddResult e trial1 obs1) trial2 obs2)
  = Analyze log10 rng (AddResult e trial1 (obs1 ++ obs2)).
Proof.
  intros Hv Hc. apply Analyze_by_pools; [repeat split|assumption|].
  intros lvs. rewrite !pooledObservations_AddResult. simpl ControlFactors.
  rewrite (agreesWith_control _ lvs (resultOf trial2 obs2) (resultOf trial1 obs1))
    by (symmetry; exact Hc).
  rewrite (agreesWith_control _ lvs (resultOf trial1 (obs1 ++ obs2))
             (resultOf trial1 obs1)) by reflexivity.
  destruct (agreesWith _ _ _); rewrite <- app_assoc; reflexivity.
Qed.

(* ===================================================================== *)
(** ** Further properties: the SNR formulas *)
(* ===================================================================== *)

Lemma sub_zero_r (y : float) : (y - f0)%f64 = y.
Proof.
  apply Prim2SF_inj. rewrite FloatAxioms.sub_spec.
  change (Prim2SF f0) with (S754_zero false).
  destruct (Prim2SF y) as [s|s| |s m ex]; try reflexivity.
  destruct s; reflexivity.
Qed.

Lemma fold_left_ext_float (g1 g2 : float -> float -> float) (l : list float)
    (a : float) :
  (forall acc y, g1 acc y = g2 acc y) -> fold_left g1 l a = fold_left g2 l a.
Proof.
  intros H. revert a. induction l as [|y l IH]; intros a; simpl; [reflexivity|].
  now rewrite H, IH.
Qed.

(** X11: Nominal-the-Best with target 0 is Smaller-the-Better: the two
    formulas, and [calculateSNR] under the two goals, return the same float64
    value on every pool. *)
Theorem X11_nominal_with_target_zero (log10 : float -> float) (obs : list float)
    (e1 e2 : Experiment) :
  snrNominalTheBest log10 obs f0 = snrSmallerTheBetter log10 obs /\
  (Goal e1 = NominalTheBest -> Target e1 = f0 -> Goal e2 = SmallerTheBetter ->
   calculateSNR log10 e1 obs = calculateSNR log10 e2 obs).
Proof.
  assert (H : snrNominalTheBest log10 obs f0 = snrSmallerTheBetter log10 obs).
  { unfold snrNominalTheBest, snrSmallerTheBetter.
    rewrite (fold_left_ext_float
               (fun msd y => (msd + (y - f0) * (y - f0))%f64)
               (fun msd y => (msd + y * y)%f64)); [reflexivity|].
    intros acc y. now rewrite sub_zero_r. }
  split; [exact H|].
  intros Hg1 Ht Hg2. unfold calculateSNR. rewrite Hg1, Hg2, Ht. simpl.
  destruct (len obs =? 0); [reflexivity|exact H].
Qed.

(* ===================================================================== *)
(** ** Further properties: trial generation without noise combinations *)
(* ===================================================================== *)

Lemma trialsFrom_single_noise (id : Z) (controls : list (gmap string float))
    (n : gmap string float) :
  trialsFrom id (rowMajor controls [n])
  = trialsFrom id (map (fun c => (c, n)) controls).
Proof.
  f_equal. unfold rowMajor. induction controls as [|c cs IH]; [reflexivity|].
  simpl in *. now f_equal.
Qed.

(** X12: without noise factors, on a valid array, [GenerateTrials] returns
    one trial per array row, in row order: the trial of row [r] has ID [r+1],
    the control assignment of the row and an empty noise assignment. *)
Theorem X12_no_noise_factors (e : Experiment) :
  NoiseFactors e = [] -> validArray e = true ->
  exists trials,
    GenerateTrials e = Some trials /\
    length trials = length (OrthogonalArray e) /\
    forall (r : nat) row, OrthogonalArray e !! r = Some row ->
      exists t, trials !! r = Some t /\ ID t = Z.of_nat r + 1 /\ Noise t = ∅ /\
        getControlConfig e row = Some (Control t).
Proof.
  intros Hn Hv. rewrite GenerateTrials_spec, Hn.
  destruct (validArray_controls e Hv) as [controls Hm]. rewrite Hm. simpl.
  eexists. split; [reflexivity|].
  pose proof (length_mapM _ _ _ Hm) as Hlen. apply mapM_Some in Hm.
  rewrite trialsFrom_single_noise. split.
  - rewrite trialsFrom_length, length_map. lia.
  - intros r row Hrow.
    destruct (Forall2_lookup_l _ _ _ _ _ Hm Hrow) as (cfg & Hcfg & Hget).
    exists {| ID := 1 + Z.of_nat r; Control := cfg; Noise := ∅ |}.
    rewrite trialsFrom_lookup, list_lookup_fmap, Hcfg. simpl.
    repeat split; try assumption. lia.
Qed.

Lemma prodLevels_zero (fs : list NoiseFactor) (f : NoiseFactor) :
  f ∈ fs -> NoiseLevels f = [] -> prodLevels fs = 0%nat.
Proof.
  induction fs as [|g fs IH]; intros Hf Hl; [inversion Hf|].
  apply elem_of_cons in Hf as [<-|Hf]; simpl.
  - now rewrite Hl.
  - rewrite (IH Hf Hl). lia.
Qed.

(** X13: when some noise factor has no levels there is no noise combination
    and [GenerateTrials] returns the empty list on a valid array; on an
    invalid array it still faults. *)
Theorem X13_noise_factor_without_levels (e : Experiment) (f : NoiseFactor) :
  f ∈ NoiseFactors e -> NoiseLevels f = [] ->
  GenerateTrials e = if validArray e then Some [] else None.
Proof.
  intros Hf Hl. rewrite GenerateTrials_spec.
  assert (Hnone : noiseProduct (NoiseFactors e) ∅ = []).
  { apply length_zero_iff_nil. rewrite noiseProduct_length.
    eapply prodLevels_zero; eassumption. }
  rewrite Hnone.
  destruct (validArray e) eqn:Hv.
  - destruct (validArray_controls e Hv) as [controls ->]. simpl. f_equal.
    unfold rowMajor. induction controls as [|c cs IH]; [reflexivity|exact IH].
  - destruct (mapM (getControlConfig e) (OrthogonalArray e)) as [controls|] eqn:Hm;
      [|reflexivity].
    exfalso.
    assert (His : is_Some (GenerateTrials e))
      by (rewrite GenerateTrials_spec, Hm; simpl; eauto).
    rewrite GenerateTrials_spec, Hm in His. clear His.
    apply mk_is_Some, mapM_is_Some in Hm.
    assert (Hv' : validArray e = true); [|congruence].
    unfold validArray. apply forallb_forall. intros row Hrow.
    rewrite Forall_forall in Hm. apply getControlConfig_valid_iff.
    apply (Hm row). now apply list_elem_of_In.
Qed.

(* ===================================================================== *)
(** ** Further properties: construction from a named array *)
(* ===================================================================== *)

(** X14: construction from a named array returns the "not defined" error
    for a name that the catalog lacks, faults (at [oa[0]]) for a name whose
    catalog array is empty, and otherwise succeeds exactly when construction
    from that array itself succeeds, with the same experiment; the older
    [NewExperiment] differs only in storing target and pooling threshold. *)
Theorem X14_named_array_construction (StandardArrays : gmap string (list (list Z)))
    (goal : OptimizationGoal) (controlFactors : list Factor) (arrayName : string)
    (noiseFactors : list NoiseFactor) :
  let result :=
    NewExperimentFromFactors StandardArrays goal controlFactors arrayName noiseFactors in
  (StandardArrays !! arrayName = None ->
   result = Some (inl (ArrayNotDefined arrayName))) /\
  (StandardArrays !! arrayName = Some [] -> result = None) /\
  (forall oa, StandardArrays !! arrayName = Some oa -> oa <> [] ->
     (forall e, result = Some (inr e) <->
        NewExperimentFromFactorsUsingArray goal controlFactors oa noiseFactors = inr e) /\
     (forall e, result = Some (inr e) -> OrthogonalArray e = oa) /\
     (forall target poolingThreshold e,
        result = Some (inr e) ->
        LegacyNewExperiment StandardArrays goal target poolingThreshold controlFactors
          arrayName noiseFactors
        = Some (inr {| ControlFactors := ControlFactors e;
                       NoiseFactors := NoiseFactors e;
                       Goal := Goal e;
                       Target := target;
                       OrthogonalArray := OrthogonalArray e;
                       Results := Results e;
                       PoolingThreshold := poolingThreshold |}))).
Proof.
  intros result. unfold result, NewExperimentFromFactors, LegacyNewExperiment.
  split; [intros ->; reflexivity|]. split; [intros ->; reflexivity|].
  intros oa -> Hne. destruct oa as [|row0 rest]; [congruence|].
  unfold NewExperimentFromFactorsUsingArray, index. simpl.
  destruct (len controlFactors >? len row0).
  - repeat split; intros; discriminate.
  - repeat split.
    + intros H. injection H as <-. reflexivity.
    + intros H. injection H as <-. reflexivity.
    + intros e H. injection H as <-. reflexivity.
    + intros target pt e H. injection H as <-. reflexivity.
Qed.

(* ===================================================================== *)
(** ** Further properties: the per-row reduction of the two versions *)
(* ===================================================================== *)

Lemma legacy_rowSNR_averaged (log10 : float -> float) (e : Experiment)
    (row : list Z) :
  validRowFrom (ControlFactors e) 0 row = true ->
  Legacy.rowSNR log10 e row = Some (averagedRowSNR log10 e row).
Proof.
  intros Hv. destruct (validRowFrom_rowLevels _ _ _ Hv) as [lvs Hl].
  unfold Legacy.rowSNR, averagedRowSNR. rewrite Hl.
  rewrite (legacy_sumSNR_average log10 e row lvs (Results e) f0 0 Hl). simpl.
  reflexivity.
Qed.

Lemma legacy_oaSNR_loop_averaged (log10 : float -> float) (e : Experiment)
    (rows : list (list Z)) (oaSNR : list float) (grandMean : float) :
  forallb (validRowFrom (ControlFactors e) 0) rows = true ->
  Legacy.oaSNR_loop log10 e rows oaSNR grandMean
  = Some (oaSNR ++ map (averagedRowSNR log10 e) rows,
          fold_left (fun acc x => (acc + x)%f64)
            (map (averagedRowSNR log10 e) rows) grandMean).
Proof.
  revert oaSNR grandMean.
  induction rows as [|row rows IH]; intros oaSNR grandMean H; simpl in *.
  - now rewrite app_nil_r.
  - apply andb_prop in H as [Hrow Hrows].
    rewrite (legacy_rowSNR_averaged log10 e row Hrow). simpl.
    rewrite (IH _ _ Hrows). now rewrite <- app_assoc.
Qed.

(** X15: on a valid array the older [Analyze] gives every row the float64
    mean of the SNR values of the matching results, each computed on that
    result's observations alone (0 for a row without matching result; a
    matching result without observations counts with SNR 0), and the grand
    mean is the mean of these row values. *)
Theorem X15_legacy_rows_average_per_result_snr (log10 : float -> float)
    (e : Experiment) :
  validArray e = true ->
  Legacy.oaSNR_of log10 e
  = Some (map (averagedRowSNR log10 e) (OrthogonalArray e),
          fmean (map (averagedRowSNR log10 e) (OrthogonalArray e))).
Proof.
  intros H. unfold Legacy.oaSNR_of.
  rewrite (legacy_oaSNR_loop_averaged log10 e _ [] f0 H). simpl.
  unfold fmean, fsum. now rewrite len_map.
Qed.

(** X16: on a valid array [computeOASNR] gives every row the SNR computed
    once on the row's pool, the concatenation in log order of the
    observations of every matching result, and the grand mean is the float64
    mean of the row values; a row that no result matches has the value 0. *)
Theorem X16_rows_pool_observations (log10 : float -> float) (e : Experiment) :
  validArray e = true ->
  computeOASNR log10 e
  = Some (map (pooledRowSNR log10 e) (OrthogonalArray e),
          fmean (map (pooledRowSNR log10 e) (OrthogonalArray e))) /\
  forall row lvs,
    rowLevels (ControlFactors e) 0 row = Some lvs ->
    (forall r, r ∈ Results e -> agreesWith (ControlFactors e) lvs r = false) ->
    pooledRowSNR log10 e row = f0.
Proof.
  intros H. split; [now apply computeOASNR_pooled|].
  intros row lvs Hl Hno. unfold pooledRowSNR, pooledObservations. rewrite Hl.
  assert (Hf : List.filter (agreesWith (ControlFactors e) lvs) (Results e) = []).
  { induction (Results e) as [|r rs IH]; [reflexivity|]. simpl.
    rewrite (Hno r) by (apply elem_of_cons; now left).
    apply IH. intros r' Hr'. apply Hno. apply elem_of_cons. now right. }
  rewrite Hf. reflexivity.
Qed.

(* ===================================================================== *)
(** ** Further properties: edge cases of the row match *)
(* ===================================================================== *)

Lemma eqb_nan_r (a b : float) : isNaN b = true -> PrimFloat.eqb a b = false.
Proof.
  intros H. apply isNaN_spec in H.
  rewrite FloatAxioms.eqb_spec. unfold SFeqb. now rewrite H, SFcompare_nan_r.
Qed.

Lemma agreesWith_nan (fs : list Factor) (lvs : list float) (r : TrialResult) :
  length lvs = length fs -> Exists (fun lv => isNaN lv = true) lvs ->
  agreesWith fs lvs r = false.
Proof.
  intros Hlen Hex. revert fs Hlen.
  induction Hex as [lv lvs Hnan|lv lvs _ IH]; intros [|f fs] Hlen; try discriminate;
    simpl.
  - rewrite (eqb_nan_r _ lv Hnan). reflexivity.
  - rewrite IH by (simpl in Hlen; lia). apply andb_false_r.
Qed.

Lemma rowLevels_length (fs : list Factor) (j : Z) (row : list Z) (lvs : list float) :
  rowLevels fs j row = Some lvs -> length lvs = length fs.
Proof.
  intros H. apply rowLevels_declared in H. symmetry. eapply Forall2_length; eassumption.
Qed.

(** X17: a row that selects a NaN level is matched by no result, whatever
    its control assignment (float64 [!=] holds of NaN against everything);
    the row value of such a row is 0. *)
Theorem X17_nan_level_matches_nothing (log10 : float -> float) (e : Experiment)
    (row : list Z) (lvs : list float) :
  rowLevels (ControlFactors e) 0 row = Some lvs ->
  Exists (fun lv => isNaN lv = true) lvs ->
  (forall r, rowMatches (ControlFactors e) 0 row r = Some false) /\
  rowSNR log10 e row = Some f0.
Proof.
  intros Hl Hex.
  assert (Hno : forall r, agreesWith (ControlFactors e) lvs r = false).
  { intros r. apply agreesWith_nan; [|assumption]. eapply rowLevels_length; eassumption. }
  split.
  - intros r. rewrite (rowLevels_rowMatches _ _ _ _ r Hl). now rewrite Hno.
  - unfold rowSNR. rewrite (collectObs_pooled e row lvs (Results e) [] Hl). simpl.
    assert (Hf : List.filter (agreesWith (ControlFactors e) lvs) (Results e) = []).
    { induction (Results e) as [|r rs IH]; [reflexivity|]. simpl. now rewrite Hno. }
    rewrite Hf. reflexivity.
Qed.

Lemma agreesWith_empty_control (fs : list Factor) (lvs : list float)
    (r : TrialResult) :
  length lvs = length fs ->
  (forall f, f ∈ fs -> Control (ResultTrial r) !! Name f = None) ->
  agreesWith fs lvs r = allZero lvs.
Proof.
  revert lvs. induction fs as [|f fs IH]; intros [|lv lvs] Hlen Hnone;
    try discriminate; [reflexivity|].
  simpl. unfold mapGet. rewrite (Hnone f) by (apply elem_of_cons; now left). simpl.
  f_equal. apply IH; [simpl in Hlen; lia|].
  intros g Hg. apply Hnone. apply elem_of_cons. now right.
Qed.

(** X18: a missing key reads as level 0.  A result whose control assignment
    has no entry for any control factor (a nil or empty map, or other keys
    only) is matched to a row exactly when every level the row selects
    compares equal to 0; no fault occurs. *)
Theorem X18_missing_control_reads_zero (e : Experiment) (row : list Z)
    (lvs : list float) (r : TrialResult) :
  rowLevels (ControlFactors e) 0 row = Some lvs ->
  (forall f, f ∈ ControlFactors e -> Control (ResultTrial r) !! Name f = None) ->
  rowMatches (ControlFactors e) 0 row r = Some (allZero lvs).
Proof.
  intros Hl Hnone. rewrite (rowLevels_rowMatches _ _ _ _ r Hl). f_equal.
  apply agreesWith_empty_control; [|assumption].
  eapply rowLevels_length; eassumption.
Qed.

Lemma mul_opp_opp (x y : float) :
  (PrimFloat.opp x * PrimFloat.opp y)%f64 = (x * y)%f64.
Proof.
  apply Prim2SF_inj. rewrite !FloatAxioms.mul_spec, !FloatAxioms.opp_spec.
  destruct (Prim2SF x) as [sx|sx| |sx mx ex], (Prim2SF y) as [sy|sy| |sy my ey];
    try reflexivity; destruct sx, sy; reflexivity.
Qed.

Lemma eqb_opp_zero (y : float) : (PrimFloat.opp y == f0)%f64 = (y == f0)%f64.
Proof.
  rewrite !FloatAxioms.eqb_spec, FloatAxioms.opp_spec.
  change (Prim2SF f0) with (S754_zero false).
  destruct (Prim2SF y) as [s|s| |s m ex]; try reflexivity; destruct s; reflexivity.
Qed.

Lemma fold_left_map_float (g : float -> float -> float) (h : float -> float)
    (l : list float) (a : float) :
  fold_left g (map h l) a = fold_left (fun acc y => g acc (h y)) l a.
Proof.
  revert a. induction l as [|y l IH]; intros a; simpl; [reflexivity|]. apply IH.
Qed.

(** X19: the Smaller-the-Better and Larger-the-Better formulas read the
    observations through their squares only: negating every observation of
    a pool leaves the float64 result unchanged. *)
Theorem X19_snr_ignores_signs (log10 : float -> float) (obs : list float) :
  snrSmallerTheBetter log10 (map PrimFloat.opp obs) = snrSmallerTheBetter log10 obs /\
  snrLargerTheBetter log10 (map PrimFloat.opp obs) = snrLargerTheBetter log10 obs.
Proof.
  unfold snrSmallerTheBetter, snrLargerTheBetter.
  rewrite !fold_left_map_float, !len_map. split.
  - rewrite (fold_left_ext_float
               (fun acc y => (acc + PrimFloat.opp y * PrimFloat.opp y)%f64)
               (fun msd y => (msd + y * y)%f64)); [reflexivity|].
    intros acc y. now rewrite mul_opp_opp.
  - rewrite (fold_left_ext_float
               (fun acc y =>
                  (acc + f1 / ((if (PrimFloat.opp y == f0)%f64 then epsilon_1e_10
                                else PrimFloat.opp y)
                               * (if (PrimFloat.opp y == f0)%f64 then epsilon_1e_10
                                  else PrimFloat.opp y)))%f64)
               (fun msd y =>
                  (msd + f1 / ((if (y == f0)%f64 then epsilon_1e_10 else y)
                               * (if (y == f0)%f64 then epsilon_1e_10 else y)))%f64));
      [reflexivity|].
    intros acc y. rewrite eqb_opp_zero.
    destruct (y == f0)%f64; [reflexivity|]. now rewrite mul_opp_opp.
Qed.

(* ===================================================================== *)
(** ** The further properties at sample inputs *)
(* ===================================================================== *)

Lemma X2_witness :
  getControlConfig (experimentAB 2 4 6 10) [1; 2]
  = Some (<["A" := 1%float]> (<["B" := 2%float]> ∅)) /\
  NoDup (map Name (ControlFactors (experimentAB 2 4 6 10))) /\
  (forall (j : nat) f, ControlFactors (experimentAB 2 4 6 10) !! j = Some f ->
     exists v lv, [1; 2] !! j = Some v /\ 1 <= v <= len (Levels f) /\
       Levels f !! Z.to_nat (v - 1) = Some lv /\
       (<["A" := 1%float]> (<["B" := 2%float]> ∅) : gmap string float) !! Name f
       = Some lv).
Proof.
  assert (H : getControlConfig (experimentAB 2 4 6 10) [1; 2]
              = Some (<["A" := 1%float]> (<["B" := 2%float]> ∅)))
    by (vm_compute; reflexivity).
  split; [exact H|]. split; [apply experimentAB_names_NoDup|].
  exact (proj1 (X2_control_config_content _ _ _ H
                  (experimentAB_names_NoDup 2 4 6 10))).
Defined.

Lemma sampleTrials_generated : GenerateTrials experimentNoise = Some sampleTrials.
Proof. vm_compute. reflexivity. Qed.

Lemma sampleTrial_generated : sampleTrial ∈ sampleTrials.
Proof.
  apply (list_elem_of_lookup_2 _ 10%nat). vm_compute. reflexivity.
Qed.

Lemma factorA_levels_not_nan (f : Factor) (lv : float) :
  f ∈ [factorA] -> lv ∈ Levels f -> isNaN lv = false.
Proof.
  intros Hf Hlv. apply elem_of_cons in Hf as [->|Hf]; [|inversion Hf].
  simpl in Hlv. apply elem_of_cons in Hlv as [->|Hlv]; [reflexivity|].
  apply elem_of_cons in Hlv as [->|Hlv]; [reflexivity|inversion Hlv].
Qed.

Lemma X3_witness :
  GenerateTrials experimentNoise = Some sampleTrials /\
  sampleTrial ∈ sampleTrials /\
  exists row lvs,
    row ∈ OrthogonalArray experimentNoise /\
    getControlConfig experimentNoise row = Some (Control sampleTrial) /\
    rowLevels (ControlFactors experimentNoise) 0 row = Some lvs /\
    rowMatches (ControlFactors experimentNoise) 0 row (resultOf sampleTrial pool_2_4)
    = Some true /\
    forall row' lvs', rowLevels (ControlFactors experimentNoise) 0 row' = Some lvs' ->
      rowMatches (ControlFactors experimentNoise) 0 row' (resultOf sampleTrial pool_2_4)
      = Some (levelsEqual lvs lvs').
Proof.
  split; [exact sampleTrials_generated|]. split; [exact sampleTrial_generated|].
  apply (X3_generated_trial_matches_its_row experimentNoise sampleTrials sampleTrial
           pool_2_4 sampleTrials_generated sampleTrial_generated).
  - apply (bool_decide_unpack _). vm_compute. exact I.
  - exact factorA_levels_not_nan.
Defined.

Lemma analysisAB_returns :
  exists r, Analyze GoMath.Log10 canonicalRange (experimentAB 2 4 6 10) = Some r.
Proof.
  destruct (Analyze GoMath.Log10 canonicalRange (experimentAB 2 4 6 10))
    as [r|] eqn:Hr; [eauto|vm_compute in Hr; discriminate].
Qed.

Lemma X4_witness :
  exists r, Analyze GoMath.Log10 canonicalRange (experimentAB 2 4 6 10) = Some r /\
    SNR r = MainEffects r.
Proof.
  destruct analysisAB_returns as [r Hr]. exists r. split; [exact Hr|].
  exact (X4_snr_table_is_main_effects _ _ _ r (or_introl Hr)).
Defined.

Lemma X5_witness :
  exists r, Analyze GoMath.Log10 canonicalRange (experimentAB 2 4 6 10) = Some r /\
    meanSquaresOf (ANOVA r).
Proof.
  destruct analysisAB_returns as [r Hr]. exists r. split; [exact Hr|].
  exact (X5_mean_squares_and_f_ratios _ _ _ r (or_introl Hr)).
Defined.

Lemma X6_witness :
  exists r, Analyze GoMath.Log10 canonicalRange (experimentAB 2 4 6 10) = Some r /\
    resultKeysAre ["A"; "B"] r.
Proof.
  destruct analysisAB_returns as [r Hr]. exists r. split; [exact Hr|].
  exact (X6_result_keys_are_factor_names _ _ _ r (or_introl Hr)).
Defined.

Lemma experimentOutOfRange_names_NoDup :
  NoDup (map Name (ControlFactors experimentOutOfRange)).
Proof. apply (bool_decide_unpack _). vm_compute. exact I. Qed.

Lemma experimentOutOfRange_columns (row : list Z) :
  row ∈ OrthogonalArray experimentOutOfRange ->
  (length (ControlFactors experimentOutOfRange) <= length row)%nat.
Proof.
  simpl. intros Hr.
  apply elem_of_cons in Hr as [->|Hr]; [simpl; lia|].
  apply elem_of_cons in Hr as [->|Hr]; [simpl; lia|inversion Hr].
Qed.

(** The theorem applied to factor A (two levels) on the array [[3], [1]]
    with row values 5 and 7: the first row is skipped, level 1 has the mean
    7 and level 2 the mean 0. *)
Lemma X7_witness :
  exists a mainEffects snrPerFactor,
    computeANOVA canonicalRange experimentOutOfRange [5%float; 7%float] 6%float
    = Some (a, mainEffects, snrPerFactor) /\
    mainEffects !! "A" = Some [7%float; 0%float] /\
    exists levelMeans,
      mainEffects !! "A" = Some levelMeans /\
      length levelMeans = 2%nat /\
      forall (li : nat), (li < 2)%nat ->
        levelMeans !! li
        = Some (levelMean (valuesAtLevel (OrthogonalArray experimentOutOfRange)
                             [5%float; 7%float] 0 li)).
Proof.
  destruct (X7_main_effects_are_level_means canonicalRange experimentOutOfRange
              [5%float; 7%float] 6%float experimentOutOfRange_names_NoDup eq_refl)
    as [Hret Hme].
  destruct (proj2 Hret experimentOutOfRange_columns) as [[[a me] snr] Ha].
  exists a, me, snr. split; [exact Ha|]. split.
  - vm_compute in Ha. injection Ha as _ <- _. vm_compute. reflexivity.
  - exact (Hme a me snr Ha 0%nat factorA eq_refl).
Defined.

Lemma X8_witness :
  exists r, Analyze GoMath.Log10 canonicalRange (experimentAB 2 4 6 10) = Some r /\
    PooledFactors (ANOVA r) = [] /\
    Analyze GoMath.Log10 canonicalRange
      (withNoiseAndThreshold (experimentAB 2 4 6 10) [noiseN] 0.0625%float)
    = Some r.
Proof.
  destruct analysisAB_returns as [r Hr]. exists r. split; [exact Hr|].
  destruct (X8_noise_and_threshold_are_not_read GoMath.Log10 canonicalRange
              (experimentAB 2 4 6 10) [noiseN] 0.0625%float) as (H1 & _ & H3).
  split; [exact (H3 r (or_introl Hr))|]. rewrite H1. exact Hr.
Defined.

Lemma X9_witness :
  validArray (experimentA SmallerTheBetter f0 logA) = true /\
  Analyze GoMath.Log10 canonicalRange
    (AddResult (experimentA SmallerTheBetter f0 logA) (trialA 5 1 0) [])
  = Analyze GoMath.Log10 canonicalRange (experimentA SmallerTheBetter f0 logA).
Proof.
  split; [reflexivity|].
  exact (X9_empty_result_is_ignored GoMath.Log10 canonicalRange
           (experimentA SmallerTheBetter f0 logA) (trialA 5 1 0) eq_refl).
Defined.

Lemma X10_witness :
  validArray (experimentA SmallerTheBetter f0 []) = true /\
  Control (trialA 1 1 0) = Control (trialA 2 1 1) /\
  Analyze GoMath.Log10 canonicalRange
    (AddResult (AddResult (experimentA SmallerTheBetter f0 []) (trialA 1 1 0) pool_2_4)
       (trialA 2 1 1) pool_6_8)
  = Analyze GoMath.Log10 canonicalRange
      (AddResult (experimentA SmallerTheBetter f0 []) (trialA 1 1 0)
         (pool_2_4 ++ pool_6_8)).
Proof.
  split; [reflexivity|]. split; [reflexivity|].
  exact (X10_split_results_pool GoMath.Log10 canonicalRange
           (experimentA SmallerTheBetter f0 []) (trialA 1 1 0) (trialA 2 1 1)
           pool_2_4 pool_6_8 eq_refl eq_refl).
Defined.

Lemma X11_witness :
  calculateSNR GoMath.Log10 (goalOnly NominalTheBest f0) pool_2_4
  = calculateSNR GoMath.Log10 (goalOnly SmallerTheBetter f0) pool_2_4.
Proof.
  exact (proj2 (X11_nominal_with_target_zero GoMath.Log10 pool_2_4
                  (goalOnly NominalTheBest f0) (goalOnly SmallerTheBetter f0))
           eq_refl eq_refl eq_refl).
Defined.

Lemma X12_witness :
  NoiseFactors (experimentAB 2 4 6 10) = [] /\
  validArray (experimentAB 2 4 6 10) = true /\
  exists trials,
    GenerateTrials (experimentAB 2 4 6 10) = Some trials /\
    length trials = 4%nat.
Proof.
  split; [reflexivity|]. split; [reflexivity|].
  destruct (X12_no_noise_factors (experimentAB 2 4 6 10) eq_refl eq_refl)
    as (trials & Hgen & Hlen & _).
  exists trials. split; [exact Hgen|exact Hlen].
Defined.

Lemma X13_witness :
  noiseWithoutLevels
    ∈ NoiseFactors (withNoiseAndThreshold experimentNoise [noiseN; noiseWithoutLevels] f0) /\
  NoiseLevels noiseWithoutLevels = [] /\
  GenerateTrials (withNoiseAndThreshold experimentNoise [noiseN; noiseWithoutLevels] f0)
  = Some [].
Proof.
  assert (Hin : noiseWithoutLevels
            ∈ NoiseFactors (withNoiseAndThreshold experimentNoise
                              [noiseN; noiseWithoutLevels] f0))
    by (simpl; apply elem_of_cons; right; apply elem_of_cons; now left).
  split; [exact Hin|]. split; [reflexivity|].
  exact (X13_noise_factor_without_levels _ noiseWithoutLevels Hin eq_refl).
Defined.

Lemma X14_witness :
  sampleArrays !! "L9" = None /\
  NewExperimentFromFactors sampleArrays SmallerTheBetter [factorA; factorB] "L9" []
  = Some (inl (ArrayNotDefined "L9")) /\
  sampleArrays !! "none" = Some [] /\
  NewExperimentFromFactors sampleArrays SmallerTheBetter [factorA; factorB] "none" []
  = None /\
  forall e,
    NewExperimentFromFactors sampleArrays SmallerTheBetter [factorA; factorB] "L4" []
    = Some (inr e) ->
    OrthogonalArray e = [[1; 1; 1]; [1; 2; 2]; [2; 1; 2]; [2; 2; 1]].
Proof.
  destruct (X14_named_array_construction sampleArrays SmallerTheBetter
              [factorA; factorB] "L9" []) as (H1 & _).
  destruct (X14_named_array_construction sampleArrays SmallerTheBetter
              [factorA; factorB] "none" []) as (_ & H2 & _).
  destruct (X14_named_array_construction sampleArrays SmallerTheBetter
              [factorA; factorB] "L4" []) as (_ & _ & H3).
  split; [reflexivity|]. split; [exact (H1 eq_refl)|]. split; [reflexivity|].
  split; [exact (H2 eq_refl)|].
  destruct (H3 [[1; 1; 1]; [1; 2; 2]; [2; 1; 2]; [2; 2; 1]] eq_refl
              ltac:(discriminate)) as (_ & Hoa & _).
  exact Hoa.
Defined.

Lemma X15_witness :
  validArray (experimentA SmallerTheBetter f0 logA) = true /\
  Legacy.oaSNR_of GoMath.Log10 (experimentA SmallerTheBetter f0 logA)
  = Some (map (averagedRowSNR GoMath.Log10 (experimentA SmallerTheBetter f0 logA))
            [[1]; [2]],
          fmean (map (averagedRowSNR GoMath.Log10 (experimentA SmallerTheBetter f0 logA))
                   [[1]; [2]])).
Proof.
  split; [reflexivity|].
  exact (X15_legacy_rows_average_per_result_snr GoMath.Log10
           (experimentA SmallerTheBetter f0 logA) eq_refl).
Defined.

Lemma logA_first_level_no_match (r : TrialResult) :
  r ∈ Results (experimentA SmallerTheBetter f0 logA_first_level) ->
  agreesWith (ControlFactors (experimentA SmallerTheBetter f0 logA_first_level))
    [2%float] r = false.
Proof.
  simpl. intros Hr.
  apply elem_of_cons in Hr as [->|Hr]; [reflexivity|].
  apply elem_of_cons in Hr as [->|Hr]; [reflexivity|inversion Hr].
Qed.

Lemma X16_witness :
  validArray (experimentA SmallerTheBetter f0 logA_first_level) = true /\
  rowLevels (ControlFactors (experimentA SmallerTheBetter f0 logA_first_level)) 0 [2]
  = Some [2%float] /\
  pooledRowSNR GoMath.Log10 (experimentA SmallerTheBetter f0 logA_first_level) [2]
  = f0.
Proof.
  split; [reflexivity|]. split; [reflexivity|].
  exact (proj2 (X16_rows_pool_observations GoMath.Log10
                  (experimentA SmallerTheBetter f0 logA_first_level) eq_refl)
           [2] [2%float] eq_refl logA_first_level_no_match).
Defined.

Lemma X17_witness :
  rowLevels (ControlFactors (experimentNaN [resultWithoutControl])) 0 [2] = Some [nan] /\
  Exists (fun lv => isNaN lv = true) [nan] /\
  rowSNR GoMath.Log10 (experimentNaN [resultWithoutControl]) [2] = Some f0.
Proof.
  assert (Hex : Exists (fun lv => isNaN lv = true) [nan])
    by (apply Exists_cons_hd; reflexivity).
  split; [reflexivity|]. split; [exact Hex|].
  exact (proj2 (X17_nan_level_matches_nothing GoMath.Log10
                  (experimentNaN [resultWithoutControl]) [2] [nan] eq_refl Hex)).
Defined.

Lemma resultWithoutControl_no_entry (f : Factor) :
  f ∈ ControlFactors (experimentA SmallerTheBetter f0 []) ->
  Control (ResultTrial resultWithoutControl) !! Name f = None.
Proof. intros _. apply lookup_empty. Qed.

Lemma X18_witness :
  rowLevels (ControlFactors (experimentA SmallerTheBetter f0 [])) 0 [1]
  = Some [1%float] /\
  rowMatches (ControlFactors (experimentA SmallerTheBetter f0 [])) 0 [1]
    resultWithoutControl = Some false.
Proof.
  split; [reflexivity|].
  exact (X18_missing_control_reads_zero (experimentA SmallerTheBetter f0 []) [1]
           [1%float] resultWithoutControl eq_refl resultWithoutControl_no_entry).
Defined.

(* ===================================================================== *)
(** ** Further properties: map iteration order *)
(* ===================================================================== *)

Lemma errorDF_of_order (rng1 rng2 : MapRange) (oaRows : Z) (factorDF : gmap string Z) :
  errorDF_of rng1 oaRows factorDF = errorDF_of rng2 oaRows factorDF.
Proof.
  unfold errorDF_of. rewrite !fold_left_sub_zsum.
  rewrite (zsum_perm ((range rng1 0%nat factorDF).*2) ((range rng2 0%nat factorDF).*2));
    [reflexivity|].
  apply fmap_Permutation. etransitivity; [apply range_perm|].
  symmetry. apply range_perm.
Qed.

Lemma factorMS_order (rng1 rng2 : MapRange) (factorSS : gmap string float)
    (factorDF : gmap string Z) (errorMS1 errorMS2 : float) :
  (factorMSF rng1 factorSS factorDF errorMS1).1
  = (factorMSF rng2 factorSS factorDF errorMS2).1.
Proof.
  apply map_eq. intros f.
  rewrite (proj1 (factorMSF_lookup rng1 factorSS factorDF errorMS1 f)).
  now rewrite (proj1 (factorMSF_lookup rng2 factorSS factorDF errorMS2 f)).
Qed.

Lemma computeANOVA_order (rng1 rng2 : MapRange) (e : Experiment)
    (oaSNR : list float) (grandMean : float) :
  match computeANOVA rng1 e oaSNR grandMean, computeANOVA rng2 e oaSNR grandMean with
  | Some (a1, me1, snr1), Some (a2, me2, snr2) =>
      me1 = me2 /\ snr1 = snr2 /\
      FactorSS a1 = FactorSS a2 /\ FactorDF a1 = FactorDF a2 /\
      FactorMS a1 = FactorMS a2 /\ ErrorDF a1 = ErrorDF a2
  | None, None => True
  | _, _ => False
  end.
Proof.
  unfold computeANOVA.
  destruct (factorLoop e oaSNR grandMean (ControlFactors e) _) as [t|]; simpl;
    [|exact I].
  rewrite (errorDF_of_order rng1 rng2).
  match goal with
  | |- context [factorMSF rng1 ?s ?d ?m1] =>
      match goal with
      | |- context [factorMSF rng2 s d ?m2] =>
          pose proof (factorMS_order rng1 rng2 s d m1 m2) as Hms;
          destruct (factorMSF rng1 s d m1) as [ms1 ff1];
          destruct (factorMSF rng2 s d m2) as [ms2 ff2]
      end
  end.
  simpl in Hms. simpl. repeat split; try reflexivity. exact Hms.
Qed.

(** X20: the optimal levels, the SNR and main-effect tables, the factor sums
    of squares, degrees of freedom and mean squares, and the error degrees
    of freedom of [Analyze] are the same under every iteration order of the
    maps, and so is whether [Analyze] returns at all. *)
Theorem X20_fields_independent_of_map_order (log10 : float -> float)
    (rng1 rng2 : MapRange) (e : Experiment) :
  (is_Some (Analyze log10 rng1 e) <-> is_Some (Analyze log10 rng2 e)) /\
  forall r1 r2,
    Analyze log10 rng1 e = Some r1 -> Analyze log10 rng2 e = Some r2 ->
    sameOrderFreeFields r1 r2.
Proof.
  unfold Analyze.
  destruct (computeOASNR log10 e) as [[oaSNR gm]|]; simpl.
  - pose proof (computeANOVA_order rng1 rng2 e oaSNR gm) as H.
    destruct (computeANOVA rng1 e oaSNR gm) as [[[a1 me1] snr1]|];
      destruct (computeANOVA rng2 e oaSNR gm) as [[[a2 me2] snr2]|];
      simpl; try contradiction.
    + destruct H as (<- & <- & Hss & Hdf & Hms & Hedf).
      destruct (findOptimalLevels e me1) as [opt|]; simpl.
      * split; [split; eauto|].
        intros r1 r2 H1 H2. injection H1 as <-. injection H2 as <-.
        repeat split; assumption.
      * split; [split; intros [? ?]; discriminate|]. intros ? ? ?. discriminate.
    + split; [split; intros [? ?]; discriminate|]. intros ? ? ?. discriminate.
  - split; [split; intros [? ?]; discriminate|]. intros ? ? ?. discriminate.
Qed.

(** X21: the error sum of squares, the error mean square and the F-ratios of
    [computeANOVA] do depend on the order in which the maps are iterated:
    for three two-level factors on the four-row array and the row values
    1/3, 2/3, 3/2, 2 (with their float64 mean), two iteration orders give
    numerically different values. *)
Theorem X21_error_terms_depend_on_map_order :
  exists a1 me1 snr1 a2 me2 snr2,
    computeANOVA canonicalRange experimentABC rowValuesThirds (fmean rowValuesThirds)
    = Some (a1, me1, snr1) /\
    computeANOVA reversedRange experimentABC rowValuesThirds (fmean rowValuesThirds)
    = Some (a2, me2, snr2) /\
    (ErrorSS a1 == ErrorSS a2)%f64 = false /\
    (ErrorMS a1 == ErrorMS a2)%f64 = false /\
    (mapGet (FactorF a1) "A" == mapGet (FactorF a2) "A")%f64 = false.
Proof.
  destruct (computeANOVA canonicalRange experimentABC rowValuesThirds
              (fmean rowValuesThirds)) as [[[a1 me1] snr1]|] eqn:H1;
    [|vm_compute in H1; discriminate].
  destruct (computeANOVA reversedRange experimentABC rowValuesThirds
              (fmean rowValuesThirds)) as [[[a2 me2] snr2]|] eqn:H2;
    [|vm_compute in H2; discriminate].
  exists a1, me1, snr1, a2, me2, snr2.
  split; [reflexivity|]. split; [reflexivity|].
  vm_compute in H1. vm_compute in H2.
  injection H1 as <- _ _. injection H2 as <- _ _.
  repeat split; vm_compute; reflexivity.
Qed.

(* ===================================================================== *)
(** ** Further properties: results and rows *)
(* ===================================================================== *)

Lemma Analyze_by_row_pools (log10 : float -> float) (rng : MapRange)
    (e1 e2 : Experiment) :
  analysisConfig e1 e2 -> validArray e1 = true ->
  (forall row lvs, row ∈ OrthogonalArray e1 ->
     rowLevels (ControlFactors e1) 0 row = Some lvs ->
     pooledObservations e1 lvs = pooledObservations e2 lvs) ->
  Analyze log10 rng e1 = Analyze log10 rng e2.
Proof.
  intros (Hcf & Hg & Ht & Hoa) Hv Hpool.
  assert (Hv2 : validArray e2 = true) by (unfold validArray; now rewrite <- Hcf, <- Hoa).
  unfold Analyze.
  rewrite (computeOASNR_pooled log10 e1 Hv), (computeOASNR_pooled log10 e2 Hv2).
  assert (Hrow : forall row, In row (OrthogonalArray e1) ->
            pooledRowSNR log10 e1 row = pooledRowSNR log10 e2 row).
  { intros row Hin. apply list_elem_of_In in Hin.
    unfold pooledRowSNR, CalculateSNR.
    pose proof (Hpool row) as Hp. rewrite Hcf in Hp. rewrite Hcf.
    destruct (rowLevels (ControlFactors e2) 0 row) as [lvs|]; [|reflexivity].
    rewrite (Hp lvs Hin eq_refl).
    now rewrite (calculateSNR_config log10 e1 e2 _ Hg Ht). }
  rewrite (map_ext_in _ _ _ Hrow), Hoa. simpl.
  rewrite (computeANOVA_config rng e1 e2 _ _ Hcf Hoa).
  destruct (computeANOVA rng e2 _ _) as [[[a me] snr]|]; simpl; [|reflexivity].
  now rewrite (findOptimalLevels_config e1 e2 me Hcf).
Qed.

(** X22: on a valid array, a result that matches no row (for every row the
    comparison loop of [computeOASNR] ends with [match = false]) leaves the
    result of [Analyze] unchanged, whatever its observations. *)
Theorem X22_unmatched_result_is_ignored (log10 : float -> float) (rng : MapRange)
    (e : Experiment) (trial : Trial) (obs : list float) :
  validArray e = true ->
  (forall row, row ∈ OrthogonalArray e ->
     rowMatches (ControlFactors e) 0 row (resultOf trial obs) = Some false) ->
  Analyze log10 rng (AddResult e trial obs) = Analyze log10 rng e.
Proof.
  intros Hv Hno. symmetry. apply Analyze_by_row_pools; [repeat split|assumption|].
  intros row lvs Hin Hl. rewrite pooledObservations_AddResult.
  pose proof (Hno row Hin) as Hm.
  rewrite (rowLevels_rowMatches _ _ _ lvs _ Hl) in Hm. injection Hm as ->.
  now rewrite app_nil_r.
Qed.

Lemma eqb_common (a b l : float) :
  (a == l)%f64 = true -> (b == l)%f64 = true -> (a == b)%f64 = true.
Proof.
  rewrite !FloatAxioms.eqb_spec.
  destruct (Prim2SF a) as [sa|sa| |sa ma ea], (Prim2SF l) as [sl|sl| |sl ml el],
    (Prim2SF b) as [sb|sb| |sb mb eb];
    try (destruct sa); try (destruct sl); try (destruct sb);
    unfold SFeqb, SFcompare; try discriminate; try reflexivity;
    intros H1 H2; cmp_cases.
Qed.

Lemma agreesWith_both (fs : list Factor) (lvs : list float)
    (r1 r2 : TrialResult) (f : Factor) :
  length lvs = length fs -> f ∈ fs ->
  agreesWith fs lvs r1 = true -> agreesWith fs lvs r2 = true ->
  (mapGet (Control (ResultTrial r1)) (Name f)
   == mapGet (Control (ResultTrial r2)) (Name f))%f64 = true.
Proof.
  revert lvs. induction fs as [|g fs IH]; intros [|lv lvs] Hlen Hf H1 H2;
    try (inversion Hf; fail); try discriminate.
  simpl in H1, H2. apply andb_prop in H1 as [E1 R1]. apply andb_prop in H2 as [E2 R2].
  apply elem_of_cons in Hf as [->|Hf].
  - exact (eqb_common _ _ _ E1 E2).
  - apply (IH lvs); [simpl in Hlen; lia|assumption..].
Qed.

(** X23: on a valid array, two results whose control assignments differ (as
    float64 values) on some control factor can be recorded in either order:
    [Analyze] gives the same result. *)
Theorem X23_results_of_different_settings_commute (log10 : float -> float)
    (rng : MapRange) (e : Experiment) (trial1 trial2 : Trial)
    (obs1 obs2 : list float) (f : Factor) :
  validArray e = true ->
  f ∈ ControlFactors e ->
  (mapGet (Control trial1) (Name f) == mapGet (Control trial2) (Name f))%f64 = false ->
  Analyze log10 rng (AddResult (AddResult e trial1 obs1) trial2 obs2)
  = Analyze log10 rng (AddResult (AddResult e trial2 obs2) trial1 obs1).
Proof.
  intros Hv Hf Hne. apply Analyze_by_row_pools; [repeat split|assumption|].
  intros row lvs _ Hl. simpl ControlFactors in Hl.
  rewrite !pooledObservations_AddResult. simpl ControlFactors.
  pose proof (agreesWith_both (ControlFactors e) lvs (resultOf trial1 obs1)
                (resultOf trial2 obs2) f (rowLevels_length _ _ _ _ Hl) Hf) as Hboth.
  simpl in Hboth.
  destruct (agreesWith (ControlFactors e) lvs (resultOf trial1 obs1));
    destruct (agreesWith (ControlFactors e) lvs (resultOf trial2 obs2));
    rewrite ?app_nil_r; try reflexivity.
  rewrite (Hboth eq_refl eq_refl) in Hne. discriminate.
Qed.

(* ===================================================================== *)
(** ** Further properties: an array without rows *)
(* ===================================================================== *)

Lemma zip_with_replicate_zero (n : nat) :
  zip_with (fun (m : float) (c : Z) => if c >? 0 then (m / float64_of_int c)%f64 else f0)
    (replicate n f0) (replicate n 0)
  = replicate n f0.
Proof. induction n as [|n IH]; simpl; [reflexivity|now rewrite IH]. Qed.

Lemma factorStats_without_rows (e : Experiment) (oaSNR : list float)
    (grandMean : float) (f : Factor) (levelMeans : list float) (ss : float) (dfs : Z) :
  OrthogonalArray e = [] ->
  factorStats e oaSNR grandMean f = Some (levelMeans, ss, dfs) ->
  levelMeans = replicate (length (Levels f)) f0.
Proof.
  intros Hoa. unfold factorStats. rewrite Hoa. simpl.
  intros H. injection H as <- _ _. apply zip_with_replicate_zero.
Qed.

Lemma bestLevel_loop_zeros (n : nat) (i best : Z) :
  bestLevel_loop (replicate n f0) i f0 best = best.
Proof.
  revert i. induction n as [|n IH]; intros i; simpl; [reflexivity|].
  change (f0 > f0)%f64 with false. simpl. apply IH.
Qed.

Lemma bestLevelOf_zeros (n : nat) (b : Z) :
  bestLevelOf (replicate n f0) = Some b -> b = 0.
Proof.
  unfold bestLevelOf. destruct n as [|n]; [discriminate|].
  change (index (replicate (S n) f0) 0) with (Some f0). simpl mbind.
  cbn [mbind option_bind]. intros H. injection H as <-.
  apply (bestLevel_loop_zeros (S n) 0 0).
Qed.

(** X24: on an experiment whose array has no rows [Analyze] returns exactly
    when every control factor has at least one level (names distinct); the
    main effects it reports are all zero and the optimal level of every
    factor is its first declared level, whatever the log holds. *)
Theorem X24_analysis_without_rows (log10 : float -> float) (rng : MapRange)
    (e : Experiment) :
  OrthogonalArray e = [] ->
  NoDup (map Name (ControlFactors e)) ->
  (is_Some (Analyze log10 rng e)
   <-> forall f, f ∈ ControlFactors e -> Levels f <> []) /\
  forall r, Analyze log10 rng e = Some r ->
    forall f, f ∈ ControlFactors e ->
      MainEffects r !! Name f = Some (replicate (length (Levels f)) f0) /\
      OptimalLevels r !! Name f = head (Levels f).
Proof.
  intros Hoa Hnd.
  assert (Hv : validArray e = true) by (unfold validArray; now rewrite Hoa).
  assert (Hentries : forall r, Analyze log10 rng e = Some r ->
            forall f, f ∈ ControlFactors e ->
              MainEffects r !! Name f = Some (replicate (length (Levels f)) f0) /\
              exists lv, index (Levels f) 0 = Some lv /\
                OptimalLevels r !! Name f = Some lv).
  { intros r Hr f Hf.
    destruct (Analyze_stages _ _ _ _ Hr) as (oaSNR & gm & _ & Ha & Hopt & _).
    assert (Hme : MainEffects r !! Name f = Some (replicate (length (Levels f)) f0)).
    { revert Ha. unfold computeANOVA.
      destruct (factorLoop e oaSNR gm (ControlFactors e) _) as [t|] eqn:Ht;
        simpl; [|discriminate].
      destruct (factorMSF rng (ft_SS t) (ft_DF t) _) as [factorMS factorF].
      intros H. injection H as _ Hm _. rewrite <- Hm.
      destruct (factorLoop_entries _ _ _ _ _ _ Ht Hnd f Hf)
        as (means & ss & Hstats & _ & _ & Hmeans & _).
      rewrite Hmeans. f_equal.
      exact (factorStats_without_rows _ _ _ _ _ _ _ Hoa Hstats). }
    split; [exact Hme|].
    destruct (findOptimalLevels_loop_entries _ _ _ _ Hopt Hnd f Hf)
      as (b & lv & Hb & Hlv & Hol).
    rewrite Hme in Hb. simpl in Hb. apply bestLevelOf_zeros in Hb. subst b.
    exists lv. split; assumption. }
  split.
  - split.
    + intros [r Hr] f Hf Hnil.
      destruct (Hentries r Hr f Hf) as (_ & lv & Hlv & _).
      rewrite Hnil in Hlv. discriminate.
    + intros Hlev. unfold Analyze.
      rewrite (computeOASNR_pooled log10 e Hv). simpl.
      set (oaSNR := map (pooledRowSNR log10 e) (OrthogonalArray e)).
      destruct (computeANOVA_total rng e oaSNR (fmean oaSNR) Hv)
        as [[[a me] snr] Ha]; [unfold oaSNR; apply len_map|].
      rewrite Ha. simpl.
      destruct (findOptimalLevels_loop_total (ControlFactors e) me ∅) as [opt Hopt].
      { intros f Hf.
        destruct (mainEffects_shape _ _ _ _ _ _ _ Hnd Ha f Hf) as (levels & Hm & Hl).
        exists levels. split; [assumption|].
        pose proof (Hlev f Hf) as Hne. unfold len in *.
        destruct (Levels f); [congruence|simpl length in *; lia]. }
      unfold findOptimalLevels. rewrite Hopt. simpl. eauto.
  - intros r Hr f Hf. destruct (Hentries r Hr f Hf) as (Hme & lv & Hlv & Hol).
    split; [exact Hme|]. rewrite Hol.
    destruct (Levels f); [discriminate|]. exact (eq_sym Hlv).
Qed.

Lemma levels_of_factorA_factorB (f : Factor) :
  f ∈ ControlFactors (experimentWithoutRows logA) -> Levels f <> [].
Proof.
  simpl. intros Hf.
  apply elem_of_cons in Hf as [->|Hf]; [discriminate|].
  apply elem_of_cons in Hf as [->|Hf]; [discriminate|inversion Hf].
Qed.

(* ===================================================================== *)
(** ** Further properties: what trial generation reads *)
(* ===================================================================== *)

(** X25: [GenerateTrials] reads the control factors, the noise factors and
    the array only: experiments that agree on these three give the same
    trials (or both fault), whatever their goal, target, threshold and log;
    in particular recording a result does not change the trials. *)
Theorem X25_trials_depend_on_layout_only (e1 e2 : Experiment) :
  ControlFactors e1 = ControlFactors e2 ->
  NoiseFactors e1 = NoiseFactors e2 ->
  OrthogonalArray e1 = OrthogonalArray e2 ->
  GenerateTrials e1 = GenerateTrials e2 /\
  forall trial obs, GenerateTrials (AddResult e1 trial obs) = GenerateTrials e2.
Proof.
  intros Hcf Hnf Hoa.
  assert (H : forall e, ControlFactors e = ControlFactors e2 ->
            NoiseFactors e = NoiseFactors e2 ->
            OrthogonalArray e = OrthogonalArray e2 ->
            GenerateTrials e = GenerateTrials e2).
  { intros e H1 H2 H3. rewrite !GenerateTrials_spec. unfold getControlConfig.
    now rewrite H1, H2, H3. }
  split; [exact (H e1 Hcf Hnf Hoa)|].
  intros trial obs. apply H; assumption.
Qed.

(* ===================================================================== *)
(** ** The further properties at sample inputs, continued *)
(* ===================================================================== *)

Lemma X20_witness :
  exists r1 r2,
    Analyze GoMath.Log10 canonicalRange (experimentAB 2 4 6 10) = Some r1 /\
    Analyze GoMath.Log10 reversedRange (experimentAB 2 4 6 10) = Some r2 /\
    sameOrderFreeFields r1 r2.
Proof.
  destruct analysisAB_returns as [r1 H1].
  destruct (Analyze GoMath.Log10 reversedRange (experimentAB 2 4 6 10))
    as [r2|] eqn:H2; [|vm_compute in H2; discriminate].
  exists r1, r2. split; [exact H1|]. split; [reflexivity|].
  exact (proj2 (X20_fields_independent_of_map_order GoMath.Log10 canonicalRange
                  reversedRange (experimentAB 2 4 6 10)) r1 r2 H1 H2).
Defined.

Lemma level_three_matches_no_row (row : list Z) :
  row ∈ OrthogonalArray (experimentA SmallerTheBetter f0 logA) ->
  rowMatches (ControlFactors (experimentA SmallerTheBetter f0 logA)) 0 row
    (resultOf (trialA 9 3 0) pool_2_4) = Some false.
Proof.
  simpl. intros Hr.
  apply elem_of_cons in Hr as [->|Hr]; [reflexivity|].
  apply elem_of_cons in Hr as [->|Hr]; [reflexivity|inversion Hr].
Qed.

Lemma X22_witness :
  validArray (experimentA SmallerTheBetter f0 logA) = true /\
  Analyze GoMath.Log10 canonicalRange
    (AddResult (experimentA SmallerTheBetter f0 logA) (trialA 9 3 0) pool_2_4)
  = Analyze GoMath.Log10 canonicalRange (experimentA SmallerTheBetter f0 logA).
Proof.
  split; [reflexivity|].
  exact (X22_unmatched_result_is_ignored GoMath.Log10 canonicalRange
           (experimentA SmallerTheBetter f0 logA) (trialA 9 3 0) pool_2_4 eq_refl
           level_three_matches_no_row).
Defined.

Lemma factorA_in_experimentA :
  factorA ∈ ControlFactors (experimentA SmallerTheBetter f0 []).
Proof. simpl. apply elem_of_cons. now left. Qed.

Lemma X23_witness :
  validArray (experimentA SmallerTheBetter f0 []) = true /\
  (mapGet (Control (trialA 1 1 0)) (Name factorA)
   == mapGet (Control (trialA 3 2 0)) (Name factorA))%f64 = false /\
  Analyze GoMath.Log10 canonicalRange
    (AddResult (AddResult (experimentA SmallerTheBetter f0 []) (trialA 1 1 0) pool_2_4)
       (trialA 3 2 0) pool_6_8)
  = Analyze GoMath.Log10 canonicalRange
      (AddResult (AddResult (experimentA SmallerTheBetter f0 []) (trialA 3 2 0) pool_6_8)
         (trialA 1 1 0) pool_2_4).
Proof.
  split; [reflexivity|]. split; [reflexivity|].
  exact (X23_results_of_different_settings_commute GoMath.Log10 canonicalRange
           (experimentA SmallerTheBetter f0 []) (trialA 1 1 0) (trialA 3 2 0)
           pool_2_4 pool_6_8 factorA eq_refl factorA_in_experimentA eq_refl).
Defined.

Lemma experimentWithoutRows_names_NoDup :
  NoDup (map Name (ControlFactors (experimentWithoutRows logA))).
Proof. apply (bool_decide_unpack _). vm_compute. exact I. Qed.

Lemma X24_witness :
  OrthogonalArray (experimentWithoutRows logA) = [] /\
  is_Some (Analyze GoMath.Log10 canonicalRange (experimentWithoutRows logA)).
Proof.
  split; [reflexivity|].
  exact (proj2 (proj1 (X24_analysis_without_rows GoMath.Log10 canonicalRange
                         (experimentWithoutRows logA) eq_refl
                         experimentWithoutRows_names_NoDup))
           levels_of_factorA_factorB).
Defined.

Lemma X25_witness :
  GenerateTrials (experimentA SmallerTheBetter f0 logA)
  = GenerateTrials (experimentA NominalTheBest 5 []).
Proof.
  exact (proj1 (X25_trials_depend_on_layout_only
                  (experimentA SmallerTheBetter f0 logA)
                  (experimentA NominalTheBest 5 []) eq_refl eq_refl eq_refl)).
Defined.

Lemma X1_witness : is_Some (GenerateTrials experimentNoise).
Proof.
  exact (proj2 (X1_generate_trials_returns_iff_valid experimentNoise) eq_refl).
Defined.
